(** * AthenaX: option-symbol codec, contract selector, position sizer,
      order planner and the two-percent-down strategy run.

    A shallow embedding of [pkg/alpaca] (ticker parsing, LEAPS selection,
    bracket-order planning), [pkg/notification] and
    [pkg/strategies/two_percent_down.go], followed by the properties the
    specification states about them.  The trading calendar and the market
    clock of [pkg/alpaca], the webhook client of [pkg/notification],
    [pkg/engine] and the two entry points (the command and the Lambda
    handler) are embedded after them, with further properties of the code.

    Conventions.
    - Go [string] is a sequence of bytes: [list ascii].
    - Go [float64] is IEEE 754 binary64: [spec_float] with 53 bits of
      precision and exponent bound 1024, every operation correctly rounded
      (round to nearest, ties to even).
    - Go [int] is 64 bits wide: a [Z] with the wrap-around written out.
    - A Go [(value, error)] pair is a [result].
    - A call that can dereference a nil pointer has an [ending]: it
      returns, or it panics. *)

From Stdlib Require Import ZArith Bool Lia Ascii String List Permutation.
From Stdlib Require Import Floats.SpecFloat.
Import ListNotations.
Local Open Scope Z_scope.

(** ** Results and errors *)

(** Every [fmt.Errorf] site of the three packages, by the text of its
    message.  [%w] wrapping keeps the wrapped error. *)
Inductive error : Type :=
| ApiError (msg : string)             (* an error returned by the Alpaca SDK *)
| TickerEmpty                         (* "symbol cannot be empty", market-data requests *)
(* ParseOptionTicker *)
| SymbolEmpty                         (* "symbol cannot be empty" *)
| SymbolTooShort                      (* "invalid option symbol format: too short" *)
| InvalidStrike                       (* "invalid strike price: %w" *)
| MissingOptionType                   (* "invalid option symbol format: missing option type" *)
| InvalidOptionType (c : ascii)       (* "invalid option type: expected C or P, got %c" *)
| MissingDate                         (* "invalid option symbol format: missing date" *)
| InvalidExpirationDate               (* "invalid expiration date: %w" *)
(* GetCallLeapsByDelta, GetOptionsPositions *)
| UnderlyingEmpty                     (* "underlying ticker cannot be empty" *)
| MinDeltaNotPositive                 (* "minimum delta must be greater than 0" *)
| GetOptionChainFailed (e : error)    (* "failed to get option chain for %s: %w" *)
| NoLeapsFound                        (* "no call LEAPS options found for %s" *)
| NoLeapsWithDelta                    (* "no call LEAPS options found for %s with delta >= %.2f" *)
| GetPositionsFailed (e : error)      (* "failed to get positions: %w" *)
| GetAllPositionsFailed (e : error)   (* "failed to get all positions: %w" *)
| GetAccountFailed (e : error)        (* "failed to get account: %w" *)
(* PlaceOptionLimitOrderWithTakeProfit *)
| OptionSymbolEmpty                   (* "option symbol cannot be empty" *)
| OptionQuoteNil                      (* "option quote cannot be nil" *)
| InvestmentSizeNotPositive           (* "investment size must be greater than 0" *)
| TakeProfitNotPositive               (* "take profit percentage must be greater than 0" *)
| InvalidBidAsk                       (* "invalid bid/ask prices: bid=%.2f, ask=%.2f" *)
| QuantityNotPositive                 (* "calculated quantity is 0 or negative: ..." *)
| PlaceBracketOrderFailed (e : error) (* "failed to place bracket order: %w" *)
(* calculateInvestmentSize, Run *)
| QQQPositionsFailed (e : error)      (* "failed to get QQQ option positions: %w" *)
| NoRemainingSpots                    (* "no remaining active option spots available" *)
| BuyingPowerFailed (e : error)       (* "failed to get non-marginable buying power: %w" *)
| YesterdayCloseFailed (e : error)    (* "failed to get yesterday's close for %s: %w" *)
| LatestQuoteFailed (e : error)       (* "failed to get latest quote for %s: %w" *)
| CallLeapsFailed (e : error)         (* "failed to get call LEAPS option for %s: %w" *)
| InvestmentSizeFailed (e : error)    (* "failed to calculate investment size: %w" *)
| PlaceOrderFailed (e : error).       (* "failed to place order: %w" *)

Inductive result (A : Type) : Type :=
| Ok (a : A)
| Err (e : error).
Arguments Ok {A} a.
Arguments Err {A} e.

Definition bind {A B : Type} (r : result A) (k : A -> result B) : result B :=
  match r with
  | Ok a => k a
  | Err e => Err e
  end.

(** [wrap f r]: on failure, return the error wrapped by [f]. *)
Definition wrap {A : Type} (f : error -> error) (r : result A) : result A :=
  match r with
  | Ok a => Ok a
  | Err e => Err (f e)
  end.

Notation "x <- r ;; k" := (bind r (fun x => k))
  (at level 61, r at next level, right associativity).

(** How a call ends: it returns, or it panics (a nil pointer is
    dereferenced, and nothing up to [main] recovers). *)
Inductive ending (A : Type) : Type :=
| Returns (a : A)
| Panics.
Arguments Returns {A} a.
Arguments Panics {A}.

(** ** float64 *)

Module Float64.

(** Every float64 of the program is a [spec_float] (one that
    [valid_binary] accepts); what is proved below of all [spec_float]
    holds of them. *)
Definition float64 : Type := spec_float.

Definition prec : Z := 53.
Definition emax : Z := 1024.

Definition add : float64 -> float64 -> float64 := SFadd prec emax.
Definition sub : float64 -> float64 -> float64 := SFsub prec emax.
Definition mul : float64 -> float64 -> float64 := SFmul prec emax.
Definition div : float64 -> float64 -> float64 := SFdiv prec emax.

Definition ltb : float64 -> float64 -> bool := SFltb.
Definition leb : float64 -> float64 -> bool := SFleb.
(** Go's [x >= y] on floats: false as soon as one side is NaN. *)
Definition geb (x y : float64) : bool := SFleb y x.

(** [float64(n)] for an integer [n]: the nearest binary64. *)
Definition of_Z (n : Z) : float64 := binary_normalize prec emax n 0 false.

(** A decimal constant [m / 10^k] of the source text, such as [0.99] or
    [0.60]: the nearest binary64 (the quotient of two exactly representable
    integers, correctly rounded). *)
Definition dec (m : Z) (k : nat) : float64 :=
  div (of_Z m) (of_Z (10 ^ Z.of_nat k)).

Definition zero : float64 := S754_zero false.

Definition min_int64 : Z := - 2 ^ 63.
Definition max_int64 : Z := 2 ^ 63 - 1.
Definition in_int64 (z : Z) : bool := (min_int64 <=? z) && (z <=? max_int64).

(** The value of a finite float with the fraction cut off (toward zero);
    [None] for infinities and NaN. *)
Definition trunc (f : float64) : option Z :=
  match f with
  | S754_zero _ => Some 0
  | S754_finite s m e =>
      let a := match e with
               | Zneg p => Z.pos m / 2 ^ Z.pos p
               | _ => Z.pos m * 2 ^ e
               end in
      Some (if s then - a else a)
  | _ => None
  end.

(** Go's conversion [int(f)] as the amd64 target of the build compiles it
    (CVTTSD2SQ): truncation toward zero, and the "integer indefinite" value
    [-2^63] when the truncated value does not fit 64 bits, or [f] is an
    infinity or NaN. *)
Definition to_int (f : float64) : Z :=
  match trunc f with
  | Some z => if in_int64 z then z else min_int64
  | None => min_int64
  end.

(** 64-bit two's complement wrap-around of Go's [int] arithmetic. *)
Definition wrap_int64 (z : Z) : Z := (z + 2 ^ 63) mod 2 ^ 64 - 2 ^ 63.

Definition is_nan (f : float64) : bool :=
  match f with
  | S754_nan => true
  | _ => false
  end.

(** The sign bit is clear (or the float is NaN, which has no sign here). *)
Definition signbit_clear (f : float64) : bool :=
  match f with
  | S754_zero s | S754_infinity s | S754_finite s _ _ => negb s
  | S754_nan => true
  end.

End Float64.
Export Float64.

(** ** Byte strings *)

Definition bytes (s : string) : list ascii := list_ascii_of_string s.

Definition byte_code (c : ascii) : Z := Z.of_N (N_of_ascii c).

Definition is_digit (c : ascii) : bool :=
  (48 <=? byte_code c) && (byte_code c <=? 57).

Definition digit_val (c : ascii) : Z := byte_code c - 48.

(** The number a run of decimal digits writes, continuing from [acc]. *)
Definition digits_value (s : list ascii) (acc : Z) : Z :=
  fold_left (fun a c => a * 10 + digit_val c) s acc.

Definition bytes_eqb (a b : list ascii) : bool :=
  if list_eq_dec ascii_dec a b then true else false.

(** [s[n:]] and [s[:n]]. *)
Definition from (n : nat) (s : list ascii) : list ascii := skipn n s.
Definition upto (n : nat) (s : list ascii) : list ascii := firstn n s.

(** ** strconv.ParseFloat (bitSize 64)

    The Go library function [ParseOptionTicker] reads the strike with:
    decimal and hexadecimal floating-point syntax with optional sign,
    fraction, exponent and digit-separating underscores, plus the
    case-insensitive words [inf], [infinity] and [nan]; the value is the
    nearest binary64, and a value that rounds to an infinity is a range
    error. *)

Module strconv.

(** [lower(c) = c | ('x' - 'X')]. *)
Definition lower (c : ascii) : ascii :=
  ascii_of_N (N.lor (N_of_ascii c) 32).

Definition is_hex_letter (c : ascii) : bool :=
  (97 <=? byte_code (lower c)) && (byte_code (lower c) <=? 102).

Definition fold_upper (c : ascii) : ascii :=
  if (65 <=? byte_code c) && (byte_code c <=? 90)
  then ascii_of_N (N_of_ascii c + 32) else c.

Fixpoint commonPrefixLenIgnoreCase (s prefix : list ascii) : nat :=
  match s, prefix with
  | c :: s', p :: prefix' =>
      if Ascii.eqb (fold_upper c) p
      then S (commonPrefixLenIgnoreCase s' prefix') else O
  | _, _ => O
  end.

(** [special]: the value and the number of bytes read, for the words. *)
Definition special (s : list ascii) : option (float64 * nat) :=
  let inf (neg : bool) (nsign : nat) (body : list ascii) :=
    let n := commonPrefixLenIgnoreCase body (bytes "infinity") in
    let n := if (Nat.ltb 3 n && Nat.ltb n 8)%bool then 3%nat else n in
    if (Nat.eqb n 3 || Nat.eqb n 8)%bool
    then Some (S754_infinity neg, (nsign + n)%nat) else None in
  match s with
  | [] => None
  | c :: s' =>
      if Ascii.eqb c "+" then inf false 1%nat s'
      else if Ascii.eqb c "-" then inf true 1%nat s'
      else if (Ascii.eqb c "i" || Ascii.eqb c "I")%bool then inf false 0%nat s
      else if (Ascii.eqb c "n" || Ascii.eqb c "N")%bool then
        if Nat.eqb (commonPrefixLenIgnoreCase s (bytes "nan")) 3
        then Some (S754_nan, 3%nat) else None
      else None
  end.

(** The mantissa loop of [readFloat]: the digits read as one integer, the
    number of them after the point, and what was seen. *)
Record mantissa : Type := {
  mant : Z;
  frac : Z;
  sawdot : bool;
  sawdigits : bool;
  underscores : bool
}.

Definition mantissa0 : mantissa :=
  {| mant := 0; frac := 0; sawdot := false; sawdigits := false;
     underscores := false |}.

Definition push (base d : Z) (st : mantissa) : mantissa :=
  {| mant := mant st * base + d;
     frac := if sawdot st then frac st + 1 else frac st;
     sawdot := sawdot st; sawdigits := true;
     underscores := underscores st |}.

Fixpoint read_mantissa (hex : bool) (s : list ascii) (st : mantissa)
  : mantissa * list ascii :=
  match s with
  | [] => (st, [])
  | c :: s' =>
      if Ascii.eqb c "_" then
        read_mantissa hex s'
          {| mant := mant st; frac := frac st; sawdot := sawdot st;
             sawdigits := sawdigits st; underscores := true |}
      else if Ascii.eqb c "." then
        if sawdot st then (st, s)
        else read_mantissa hex s'
               {| mant := mant st; frac := frac st; sawdot := true;
                  sawdigits := sawdigits st; underscores := underscores st |}
      else if is_digit c then
        read_mantissa hex s' (push (if hex then 16 else 10) (digit_val c) st)
      else if (hex && is_hex_letter c)%bool then
        read_mantissa hex s' (push 16 (byte_code (lower c) - 97 + 10) st)
      else (st, s)
  end.

Fixpoint read_exp_digits (s : list ascii) (e : Z) (us : bool)
  : Z * bool * list ascii :=
  match s with
  | [] => (e, us, [])
  | c :: s' =>
      if Ascii.eqb c "_" then read_exp_digits s' e true
      else if is_digit c then
        read_exp_digits s' (if e <? 10000 then e * 10 + digit_val c else e) us
      else (e, us, s)
  end.

(** The optional exponent: [None] is a syntax error, [Some (None, _, _)] no
    exponent at all. *)
Definition read_exponent (expChar : ascii) (s : list ascii)
  : option (option Z * bool * list ascii) :=
  match s with
  | c :: r =>
      if Ascii.eqb (lower c) expChar then
        match r with
        | [] => None
        | c1 :: r1 =>
            let '(esign, r2) :=
              if Ascii.eqb c1 "+" then (1, r1)
              else if Ascii.eqb c1 "-" then (-1, r1)
              else (1, r) in
            match r2 with
            | c2 :: _ =>
                if is_digit c2 then
                  let '(e, us, r3) := read_exp_digits r2 0 false in
                  Some (Some (e * esign), us, r3)
                else None
            | [] => None
            end
        end
      else Some (None, false, s)
  | [] => Some (None, false, [])
  end.

(** [underscoreOK]: an underscore only between digits, or between a base
    prefix and a digit.  [saw] is the last byte seen: a digit ['0'], an
    underscore, the start ['^'] or anything else ['!']. *)
Fixpoint underscore_scan (hex : bool) (s : list ascii) (saw : ascii) : bool :=
  match s with
  | [] => negb (Ascii.eqb saw "_")
  | c :: s' =>
      if (is_digit c || (hex && is_hex_letter c))%bool then
        underscore_scan hex s' "0"
      else if Ascii.eqb c "_" then
        if Ascii.eqb saw "0" then underscore_scan hex s' "_" else false
      else if Ascii.eqb saw "_" then false
      else underscore_scan hex s' "!"
  end.

Definition underscoreOK (s : list ascii) : bool :=
  let s := match s with
           | c :: s' =>
               if (Ascii.eqb c "-" || Ascii.eqb c "+")%bool then s' else s
           | [] => s
           end in
  match s with
  | c0 :: c1 :: s' =>
      if (Ascii.eqb c0 "0" &&
          (Ascii.eqb (lower c1) "b" || Ascii.eqb (lower c1) "o"
           || Ascii.eqb (lower c1) "x"))%bool
      then underscore_scan (Ascii.eqb (lower c1) "x") s' "0"
      else underscore_scan false s "^"
  | _ => underscore_scan false s "^"
  end.

Record parsed : Type := {
  p_neg : bool;
  p_hex : bool;
  p_mant : Z;
  p_exp : Z          (* power of ten, or of two when [p_hex] *)
}.

(** [readFloat]: the number read and the bytes left over. *)
Definition readFloat (s : list ascii) : option (parsed * list ascii) :=
  match s with
  | [] => None
  | c :: s' =>
      let '(neg, s1) :=
        if Ascii.eqb c "+" then (false, s')
        else if Ascii.eqb c "-" then (true, s')
        else (false, s) in
      let '(hex, s2) :=
        match s1 with
        | c0 :: c1 :: c2 :: r =>
            if (Ascii.eqb c0 "0" && Ascii.eqb (lower c1) "x")%bool
            then (true, c2 :: r) else (false, s1)
        | _ => (false, s1)
        end in
      let '(st, s3) := read_mantissa hex s2 mantissa0 in
      if negb (sawdigits st) then None
      else
        match read_exponent (if hex then "p"%char else "e"%char) s3 with
        | None => None
        | Some (None, _, s4) =>
            if hex then None
            else
              let read := firstn (length s - length s4) s in
              if (underscores st && negb (underscoreOK read))%bool then None
              else Some ({| p_neg := neg; p_hex := false; p_mant := mant st;
                            p_exp := - frac st |}, s4)
        | Some (Some e, us, s4) =>
            let read := firstn (length s - length s4) s in
            if ((underscores st || us) && negb (underscoreOK read))%bool
            then None
            else Some ({| p_neg := neg; p_hex := hex; p_mant := mant st;
                          p_exp := (if hex then - 4 * frac st else - frac st)
                                   + e |}, s4)
        end
  end.

(** The nearest binary64 to [m * 10^e10], and to [m * 2^e2]. *)
Definition atof_decimal (neg : bool) (m e10 : Z) : float64 :=
  match m with
  | Zpos p =>
      let f := match e10 with
               | Zneg k => SFdiv prec emax (S754_finite false p 0)
                             (S754_finite false (Pos.pow 10 k) 0)
               | _ => binary_normalize prec emax (m * 10 ^ e10) 0 false
               end in
      if neg then SFopp f else f
  | _ => S754_zero neg
  end.

Definition atofHex (neg : bool) (m e2 : Z) : float64 :=
  binary_normalize prec emax (if neg then - m else m) e2 neg.

Definition is_infinity (f : float64) : bool :=
  match f with
  | S754_infinity _ => true
  | _ => false
  end.

(** [ParseFloat(s, 64)]: [None] for a syntax or a range error. *)
Definition ParseFloat (s : list ascii) : option float64 :=
  match special s with
  | Some (f, n) => if Nat.eqb n (length s) then Some f else None
  | None =>
      match readFloat s with
      | Some (p, []) =>
          let f := if p_hex p then atofHex (p_neg p) (p_mant p) (p_exp p)
                   else atof_decimal (p_neg p) (p_mant p) (p_exp p) in
          if is_infinity f then None else Some f
      | _ => None
      end
  end.

End strconv.

(** ** time.Time, for the one layout the program parses

    [time.Parse("2006-01-02", value)] returns midnight UTC of a civil date,
    so a [Time] is that date, and two of them are ordered as instants the
    way their dates are. *)

Module time.

Record Time : Type := { year : Z; month : Z; day : Z }.

Definition isLeap (y : Z) : bool :=
  (y mod 4 =? 0) && (negb (y mod 100 =? 0) || (y mod 400 =? 0)).

(** [daysIn]: 28 or 29 for February, else [30 + ((m + m>>3) & 1)]. *)
Definition daysIn (m y : Z) : Z :=
  if m =? 2 then (if isLeap y then 29 else 28)
  else 30 + (m + m / 8) mod 2.

Definition num2 (a b : ascii) : Z := digit_val a * 10 + digit_val b.

(** [Parse] with the layout ["2006-01-02"]: four digits, a dash, two
    digits, a dash, two digits and nothing else; month 1 to 12 and a day
    the month has. *)
Definition Parse (value : list ascii) : option Time :=
  match value with
  | [y1; y2; y3; y4; s1; m1; m2; s2; d1; d2] =>
      if (is_digit y1 && is_digit y2 && is_digit y3 && is_digit y4
          && Ascii.eqb s1 "-" && is_digit m1 && is_digit m2
          && Ascii.eqb s2 "-" && is_digit d1 && is_digit d2)%bool
      then
        let y := num2 y1 y2 * 100 + num2 y3 y4 in
        let m := num2 m1 m2 in
        let d := num2 d1 d2 in
        if ((m <=? 0) || (12 <? m))%bool then None
        else if ((d <? 1) || (daysIn m y <? d))%bool then None
        else Some {| year := y; month := m; day := d |}
      else None
  | _ => None
  end.

Definition Before (t u : Time) : bool :=
  (year t <? year u)
  || ((year t =? year u)
      && ((month t <? month u)
          || ((month t =? month u) && (day t <? day u)))).

Definition Equal (t u : Time) : bool :=
  (year t =? year u) && (month t =? month u) && (day t =? day u).

End time.

(** ** sort.Slice

    The library promises a sorted permutation and no stability; the
    selector is stated for every such sorter.  For at most twelve elements
    the library runs the insertion sort below. *)

Section Sorting.

Context {A : Type}.
Variable less : A -> A -> bool.

(** A strict weak order, as [sort.Slice] wants its [less]. *)
Record strict_weak : Prop := {
  sw_asym : forall a b, less a b = true -> less b a = false;
  sw_negtrans : forall a b c,
      less a b = false -> less b c = false -> less a c = false
}.

(** No element is less than one before it. *)
Definition ordered (l : list A) : Prop :=
  forall pre x mid y post,
    l = pre ++ x :: mid ++ y :: post -> less y x = false.

(** The same for a list kept last element first. *)
Definition descending (l : list A) : Prop :=
  forall pre x mid y post,
    l = pre ++ x :: mid ++ y :: post -> less x y = false.

(** [insert_back x racc]: [racc] is the sorted prefix, last element first;
    [x] moves left while it is less than its neighbour. *)
Fixpoint insert_back (x : A) (racc : list A) : list A :=
  match racc with
  | [] => [x]
  | y :: r => if less x y then y :: insert_back x r else x :: racc
  end.

Definition insertionSort (l : list A) : list A :=
  rev (fold_left (fun racc x => insert_back x racc) l []).

End Sorting.

Record SliceSorter : Type := {
  sortSlice : forall A : Type, (A -> A -> bool) -> list A -> list A;
  sortSlice_perm :
    forall (A : Type) (less : A -> A -> bool) (l : list A),
      Permutation l (sortSlice A less l);
  sortSlice_ordered :
    forall (A : Type) (less : A -> A -> bool) (l : list A),
      strict_weak less -> ordered less (sortSlice A less l)
}.
Arguments sortSlice s {A} less l.

(** ** pkg/alpaca *)

Module alpaca.

(** A parsed option ticker. *)
Record Option : Type := {
  Underlying : list ascii;
  Expiry : time.Time;
  Type_ : list ascii;            (* "C" or "P" *)
  Strike : float64;
  Ticker : list ascii
}.

Definition ParseOptionTicker (symbol : list ascii) : result Option :=
  if bytes_eqb symbol [] then Err SymbolEmpty
  else if (length symbol <? 8)%nat then Err SymbolTooShort
  else
    let strikeStr := from (length symbol - 8) symbol in
    match strconv.ParseFloat strikeStr with
    | None => Err InvalidStrike
    | Some strikeFloat =>
        let strike := div strikeFloat (of_Z 1000) in
        let baseSymbol := upto (length symbol - 8) symbol in
        if (length baseSymbol <? 1)%nat then Err MissingOptionType
        else
          let optionTypeChar :=
            nth (length baseSymbol - 1) baseSymbol "000"%char in
          if negb (Ascii.eqb optionTypeChar "C" || Ascii.eqb optionTypeChar "P")
          then Err (InvalidOptionType optionTypeChar)
          else
            let optionType := [optionTypeChar] in
            let datePart := upto (length baseSymbol - 1) baseSymbol in
            if (length datePart <? 6)%nat then Err MissingDate
            else
              let dateStr := from (length datePart - 6) datePart in
              let year := bytes "20" ++ upto 2 dateStr in
              let month := upto 2 (from 2 dateStr) in
              let day := upto 2 (from 4 dateStr) in
              let dateStrFull := year ++ bytes "-" ++ month ++ bytes "-" ++ day in
              match time.Parse dateStrFull with
              | None => Err InvalidExpirationDate
              | Some expiry =>
                  let underlying := upto (length datePart - 6) datePart in
                  Ok {| Underlying := underlying; Expiry := expiry;
                        Type_ := optionType; Strike := strike;
                        Ticker := symbol |}
              end
    end.

(** What the SDK hands back. *)
Record Position : Type := { Symbol : list ascii }.
Record OptionQuote : Type := { BidPrice : float64; AskPrice : float64 }.
Record OptionGreeks : Type := { Delta : float64 }.
Record OptionSnapshot : Type := {
  LatestQuote : option OptionQuote;      (* a pointer, possibly nil *)
  Greeks : option OptionGreeks           (* a pointer, possibly nil *)
}.
Record Order : Type := { ID : list ascii }.

(** The bracket order sent: buy, limit, day, with a take-profit leg. *)
Record PlaceOrderRequest : Type := {
  req_Symbol : list ascii;
  req_Qty : float64;
  req_LimitPrice : float64;
  req_TakeProfit : float64
}.

(** What the SDK answers to one request: a value or its own error. *)
Inductive response (A : Type) : Type :=
| Reply (a : A)
| Fault (msg : string).
Arguments Reply {A} a.
Arguments Fault {A} msg.

Definition call {A : Type} (r : response A) : result A :=
  match r with
  | Reply a => Ok a
  | Fault msg => Err (ApiError msg)
  end.

(** The broker behind the client: what each request of this run answers.
    [api_LastClose] stands for the calendar and daily-bar requests of
    [GetLastTradingDayClose] together; [api_GetLatestQuote] answers a
    pointer to the quote, of which only the ask price is read, and the SDK
    answers nil with no error ([Reply None]) when the response holds no
    quote for the symbol; [api_GetPositions n] is the answer
    to the [n]-th positions request (the account may change between two of
    them); [api_GetOptionChain] is a Go map, given as its entries in the
    order [range] visits them. *)
Record Client : Type := {
  api_LastClose : list ascii -> response float64;
  api_GetLatestQuote : list ascii -> response (option float64);
  api_GetPositions : nat -> response (list Position);
  api_NonMarginBuyingPower : response float64;
  api_GetOptionChain :
    list ascii -> response (list (list ascii * OptionSnapshot));
  api_PlaceOrder : PlaceOrderRequest -> response Order
}.

Definition GetLastTradingDayClose (m : Client) (symbol : list ascii)
  : result float64 :=
  if bytes_eqb symbol [] then Err TickerEmpty
  else call (api_LastClose m symbol).

(** Returns the ask price of the latest quote.  The quote is not checked
    for nil: [quote.AskPrice] on the nil pointer panics. *)
Definition GetLatestQuote (m : Client) (symbol : list ascii)
  : ending (result float64) :=
  if bytes_eqb symbol [] then Returns (Err TickerEmpty)
  else
    match api_GetLatestQuote m symbol with
    | Fault msg => Returns (Err (LatestQuoteFailed (ApiError msg)))
    | Reply None => Panics
    | Reply (Some askPrice) => Returns (Ok askPrice)
    end.

Definition GetAllPositions (c : Client) (n : nat) : result (list Position) :=
  wrap GetPositionsFailed (call (api_GetPositions c n)).

Definition GetNonMarginableBuyingPower (c : Client) : result float64 :=
  wrap GetAccountFailed (call (api_NonMarginBuyingPower c)).

(** Keeps the positions whose symbol parses as an option on the ticker. *)
Definition GetOptionsPositions (c : Client) (n : nat)
    (underlyingTicker : list ascii) : result (list Position) :=
  if bytes_eqb underlyingTicker [] then Err UnderlyingEmpty
  else
    allPositions <- wrap GetAllPositionsFailed (GetAllPositions c n) ;;
    Ok (filter (fun position =>
                  match ParseOptionTicker (Symbol position) with
                  | Err _ => false
                  | Ok parsedOption =>
                      bytes_eqb (Underlying parsedOption) underlyingTicker
                  end) allPositions).

(** The anonymous struct of the selector.  [snapshot] is a pointer to the
    loop's copy of the map entry; with the Go 1.24 that go.mod asks for,
    every iteration has its own copy. *)
Record candidate : Type := {
  symbol : list ascii;
  snapshot : OptionSnapshot;
  delta : float64;
  expiry : time.Time
}.

(** The filtering loop: entries without greeks, below the delta floor or
    with a symbol that does not parse are passed over. *)
Fixpoint validOptions (minDelta : float64)
    (optionChain : list (list ascii * OptionSnapshot)) : list candidate :=
  match optionChain with
  | [] => []
  | (sym, snap) :: rest =>
      match Greeks snap with
      | None => validOptions minDelta rest
      | Some greeks =>
          if geb (Delta greeks) minDelta then
            match ParseOptionTicker sym with
            | Err _ => validOptions minDelta rest
            | Ok option =>
                {| symbol := sym; snapshot := snap; delta := Delta greeks;
                   expiry := Expiry option |} :: validOptions minDelta rest
            end
          else validOptions minDelta rest
      end
  end.

Definition expiryLess (a b : candidate) : bool :=
  time.Before (expiry a) (expiry b).

(** The scan for the minimum delta: a later option replaces the current
    one only when its delta is strictly smaller. *)
Definition minDeltaScan (first : candidate) (l : list candidate) : candidate :=
  fold_left (fun minDeltaOption option =>
               if ltb (delta option) (delta minDeltaOption)
               then option else minDeltaOption) l first.

(** [validOptions[0]] after sorting and [earliestExpiryOptions[0]] are read
    with [hd]; the defaults stand for index panics that cannot happen, the
    slices being non-empty there. *)
Definition GetCallLeapsByDelta (S : SliceSorter) (m : Client)
    (underlyingTicker : list ascii) (minDelta : float64)
  : result (list ascii * OptionSnapshot) :=
  if bytes_eqb underlyingTicker [] then Err UnderlyingEmpty
  else if leb minDelta zero then Err MinDeltaNotPositive
  else
    optionChain <- wrap GetOptionChainFailed
                     (call (api_GetOptionChain m underlyingTicker)) ;;
    if (length optionChain =? 0)%nat then Err NoLeapsFound
    else
      match validOptions minDelta optionChain with
      | [] => Err NoLeapsWithDelta
      | (v0 :: _) as valid =>
          let sorted := sortSlice S expiryLess valid in
          let earliestExpiry := expiry (hd v0 sorted) in
          let earliestExpiryOptions :=
            filter (fun option => time.Equal (expiry option) earliestExpiry)
                   sorted in
          let minDeltaOption :=
            minDeltaScan (hd v0 earliestExpiryOptions) earliestExpiryOptions in
          Ok (symbol minDeltaOption, snapshot minDeltaOption)
      end.

(** What a run does to the outside world: the notifications handed to a
    webhook and the order requests sent to the broker. *)
Inductive Webhook : Type := Noisy | Normal.

Inductive NotificationType : Type :=
| OrderPlacedType         (* "Order Placed" *)
| FailureType             (* "Error occurred" *)
| ActionNeededType        (* "Action needed" *)
| SkippingType            (* "Skipping" *)
| NoGapDownType           (* "No gap down" *)
| MarketClosedType.       (* "Market closed" *)

Inductive Event : Type :=
| Notification (hook : Webhook) (kind : NotificationType)
| OrderSubmitted (req : PlaceOrderRequest).

(** The 2-decimal truncation of both prices:
    [float64(int(x*100)) / 100]. *)
Definition truncate2 (x : float64) : float64 :=
  div (of_Z (to_int (mul x (of_Z 100)))) (of_Z 100).

Definition PlaceOptionLimitOrderWithTakeProfit (m : Client)
    (investmentSize : float64) (optionSymbol : list ascii)
    (optionQuote : option OptionQuote) (takeProfitPercentage : float64)
  : list Event * result Order :=
  if bytes_eqb optionSymbol [] then ([], Err OptionSymbolEmpty)
  else
    match optionQuote with
    | None => ([], Err OptionQuoteNil)
    | Some optionQuote =>
        if leb investmentSize zero then ([], Err InvestmentSizeNotPositive)
        else if leb takeProfitPercentage zero then ([], Err TakeProfitNotPositive)
        else if (leb (BidPrice optionQuote) zero
                 || leb (AskPrice optionQuote) zero)%bool
        then ([], Err InvalidBidAsk)
        else
          let limitPrice := mul (AskPrice optionQuote) (dec 99 2) in
          let limitPrice := truncate2 limitPrice in
          let takeProfitPrice :=
            mul limitPrice
                (add (of_Z 1) (div takeProfitPercentage (of_Z 100))) in
          let takeProfitPrice := truncate2 takeProfitPrice in
          let quantity :=
            to_int (div investmentSize
                        (mul (AskPrice optionQuote) (of_Z 100))) in
          if quantity <=? 0 then ([], Err QuantityNotPositive)
          else
            let req := {| req_Symbol := optionSymbol;
                          req_Qty := of_Z quantity;
                          req_LimitPrice := limitPrice;
                          req_TakeProfit := takeProfitPrice |} in
            ([OrderSubmitted req],
             wrap PlaceBracketOrderFailed (call (api_PlaceOrder m req)))
    end.

End alpaca.

(** ** pkg/notification *)

Module notification.
Import alpaca.

(** Each method posts to its webhook, ignores how the post went, and
    returns its own result; [Failure] returns the message as an error. *)
Definition OrderPlaced : list Event * option error :=
  ([Notification Normal OrderPlacedType], None).

Definition Failure (message : error) : list Event * option error :=
  ([Notification Normal FailureType], Some message).

Definition ActionNeeded (err : option error) : list Event * option error :=
  ([Notification Normal ActionNeededType], err).

Definition MaxActiveOptions : list Event * option error :=
  ([Notification Normal SkippingType], None).

Definition NoGapDown : list Event * option error :=
  ([Notification Noisy NoGapDownType], None).

Definition MarketClosed : list Event * option error :=
  ([Notification Noisy MarketClosedType], None).

End notification.

(** ** pkg/strategies *)

Module strategies.
Import alpaca.

Definition ticker : list ascii := bytes "QQQ".

(** The notifier of the source holds webhook addresses only; its calls are
    the [Notification] events. *)
Record TwoPercentDown : Type := {
  broker : Client;
  maxActiveOptions : Z
}.

(** [envMax] is what [strconv.Atoi] made of MAX_ACTIVE_OPTIONS: [None] when
    the variable is unset or not a number. *)
Definition NewTwoPercentDown (broker : Client) (envMax : option Z)
  : TwoPercentDown :=
  {| broker := broker;
     maxActiveOptions :=
       match envMax with
       | Some parsed => if 0 <? parsed then parsed else 5
       | None => 5
       end |}.

Definition len {A : Type} (l : list A) : Z := Z.of_nat (length l).

(** [n] counts the positions requests made before this one. *)
Definition calculateInvestmentSize (s : TwoPercentDown) (n : nat)
  : result float64 :=
  openOptions <- wrap QQQPositionsFailed
                   (GetOptionsPositions (broker s) n ticker) ;;
  let remainingSpots := wrap_int64 (maxActiveOptions s - len openOptions) in
  if remainingSpots <=? 0 then Err NoRemainingSpots
  else
    buyingPower <- wrap BuyingPowerFailed
                     (GetNonMarginableBuyingPower (broker s)) ;;
    let investmentSize := div buyingPower (of_Z remainingSpots) in
    Ok investmentSize.

(** [changePercent] of step 3. *)
Definition changePercent (currentPrice yesterdayClose : float64) : float64 :=
  mul (div (sub currentPrice yesterdayClose) yesterdayClose) (of_Z 100).

(** The branch taken on a gap down. *)
Definition gapDown (S : SliceSorter) (s : TwoPercentDown)
  : list Event * option error :=
  match GetOptionsPositions (broker s) 0 ticker with
  | Err err => notification.Failure (QQQPositionsFailed err)
  | Ok openOptions =>
      if maxActiveOptions s <=? len openOptions
      then notification.MaxActiveOptions
      else
        match GetCallLeapsByDelta S (broker s) ticker (dec 60 2) with
        | Err err => notification.Failure (CallLeapsFailed err)
        | Ok (optionSymbol, optionSnapshot) =>
            match calculateInvestmentSize s 1 with
            | Err err => notification.Failure (InvestmentSizeFailed err)
            | Ok investmentSize =>
                match PlaceOptionLimitOrderWithTakeProfit (broker s)
                        investmentSize optionSymbol
                        (LatestQuote optionSnapshot) (of_Z 50) with
                | (events, Err err) => (events, Some (PlaceOrderFailed err))
                | (events, Ok order) =>
                    (events ++ fst notification.OrderPlaced,
                     snd notification.OrderPlaced)
                end
            end
        end
  end.

(** A call that returns what [p] says: its events and its error. *)
Definition returned (p : list Event * option error)
  : list Event * ending (option error) :=
  (fst p, Returns (snd p)).

(** The run panics where [GetLatestQuote] does, before any event. *)
Definition Run (S : SliceSorter) (s : TwoPercentDown)
  : list Event * ending (option error) :=
  match GetLastTradingDayClose (broker s) ticker with
  | Err err => returned (notification.Failure (YesterdayCloseFailed err))
  | Ok yesterdayClose =>
      match GetLatestQuote (broker s) ticker with
      | Panics => ([], Panics)
      | Returns (Err err) =>
          returned (notification.Failure (LatestQuoteFailed err))
      | Returns (Ok currentPrice) =>
          if leb (changePercent currentPrice yesterdayClose) (of_Z (-2))
          then returned (gapDown S s)
          else returned notification.NoGapDown
      end
  end.

End strategies.

(** ** The specification's vocabulary *)

Module Spec.
Import alpaca.

(** The error kinds of the specification, and the kind of each error of
    the code: a wrapped error keeps the kind of what it wraps. *)
Inductive ErrorKind : Type :=
| InvalidInput
| MalformedSymbol
| NoMatchingContract
| InsufficientBudget
| CapacityExceeded
| UpstreamFailure.

Fixpoint kind (e : error) : ErrorKind :=
  match e with
  | ApiError _ => UpstreamFailure
  | SymbolEmpty | SymbolTooShort | InvalidStrike | MissingOptionType
  | InvalidOptionType _ | MissingDate | InvalidExpirationDate =>
      MalformedSymbol
  | TickerEmpty | UnderlyingEmpty | MinDeltaNotPositive | OptionSymbolEmpty
  | OptionQuoteNil | InvestmentSizeNotPositive | TakeProfitNotPositive
  | InvalidBidAsk => InvalidInput
  | NoLeapsFound | NoLeapsWithDelta => NoMatchingContract
  | QuantityNotPositive => InsufficientBudget
  | NoRemainingSpots => CapacityExceeded
  | GetOptionChainFailed e | GetPositionsFailed e | GetAllPositionsFailed e
  | GetAccountFailed e | PlaceBracketOrderFailed e | QQQPositionsFailed e
  | BuyingPowerFailed e | YesterdayCloseFailed e | LatestQuoteFailed e
  | CallLeapsFailed e | InvestmentSizeFailed e | PlaceOrderFailed e => kind e
  end.

(** *** The symbol encoding *)

Definition digit_char (d : Z) : ascii := ascii_of_N (Z.to_N (48 + d)).

(** [n] in [width] decimal digits, zero-padded, most significant first. *)
Fixpoint pad (width : nat) (n : Z) : list ascii :=
  match width with
  | O => []
  | S w => pad w (n / 10) ++ [digit_char (n mod 10)]
  end.

(** A calendar date the two-digit year of the format can carry. *)
Definition valid_date (t : time.Time) : Prop :=
  2000 <= time.year t <= 2099 /\ 1 <= time.month t <= 12
  /\ 1 <= time.day t <= time.daysIn (time.month t) (time.year t).

(** The encoding rule of the specification, which the code only inverts:
    symbol = UNDERLYING + YYMMDD + C|P + the strike times 1000 in 8
    digits; [strike1000] is the strike in thousandths. *)
Definition encode (underlying : list ascii) (expiry : time.Time)
    (type : ascii) (strike1000 : Z) : list ascii :=
  underlying
  ++ pad 2 (time.year expiry mod 100) ++ pad 2 (time.month expiry)
  ++ pad 2 (time.day expiry)
  ++ [type] ++ pad 8 strike1000.

(** *** The selection rule *)

(** An entry the selector retains: it has greeks, its delta [d] reaches
    the floor and its symbol parses, with expiry [t]. *)
Definition qualifying (minDelta : float64)
    (chain : list (list ascii * OptionSnapshot))
    (sym : list ascii) (snap : OptionSnapshot) (d : float64) (t : time.Time)
  : Prop :=
  In (sym, snap) chain
  /\ (exists g, Greeks snap = Some g /\ Delta g = d /\ geb d minDelta = true)
  /\ (exists o, ParseOptionTicker sym = Ok o /\ Expiry o = t).

(** Earliest expiry first, then minimum delta within that expiry. *)
Definition selected (minDelta : float64)
    (chain : list (list ascii * OptionSnapshot))
    (sym : list ascii) (snap : OptionSnapshot) : Prop :=
  exists d t,
    qualifying minDelta chain sym snap d t
    /\ forall sym' snap' d' t',
        qualifying minDelta chain sym' snap' d' t' ->
        time.Before t' t = false
        /\ (t' = t -> Float64.leb d d' = true).

(** *** The order plan, in exact arithmetic

    The formulas of the planner on amounts of whole cents: an ask of
    [askCents / 100], a limit price of [limit / 100], a budget of
    [budgetCents / 100] and a take-profit of [percent] percent.  [/] on
    [Z] is the floor. *)

(** [floor(ask * 0.99 * 100)], the limit price in cents. *)
Definition limitCents (askCents : Z) : Z := askCents * 99 / 100.

(** [floor(limitPrice * (1 + percent/100) * 100)], the take-profit price in
    cents. *)
Definition takeProfitCents (limit percent : Z) : Z :=
  limit * (100 + percent) / 100.

(** [floor(budget / (ask * 100))], the number of contracts. *)
Definition contracts (budgetCents askCents : Z) : Z :=
  budgetCents / (askCents * 100).

(** *** The gap *)

(** Both prices were fetched and the change is at or below -2 percent. *)
Definition gap_triggered (s : strategies.TwoPercentDown) : Prop :=
  exists yesterdayClose currentPrice,
    GetLastTradingDayClose (strategies.broker s) strategies.ticker
    = Ok yesterdayClose
    /\ GetLatestQuote (strategies.broker s) strategies.ticker
       = Returns (Ok currentPrice)
    /\ Float64.leb (strategies.changePercent currentPrice yesterdayClose)
         (of_Z (-2)) = true.


End Spec.


(** ** Fixtures *)

Module Fixtures.
Import alpaca strategies.

Definition quote_of (bid ask : float64) : option OptionQuote :=
  Some {| BidPrice := bid; AskPrice := ask |}.

(** A snapshot quoted 12.00 bid, 12.34 ask, with the given delta. *)
Definition snapshot_of (d : float64) : OptionSnapshot :=
  {| LatestQuote := quote_of (of_Z 12) (dec 1234 2);
     Greeks := Some {| Delta := d |} |}.

(** The chain of the selector example: A and B expire in January 2025,
    C in June 2024. *)
Definition entryA : list ascii * OptionSnapshot :=
  (bytes "QQQ250117C00400000", snapshot_of (dec 65 2)).
Definition entryB : list ascii * OptionSnapshot :=
  (bytes "QQQ250117C00410000", snapshot_of (dec 70 2)).
Definition entryC : list ascii * OptionSnapshot :=
  (bytes "QQQ240621C00390000", snapshot_of (dec 62 2)).
Definition example_chain : list (list ascii * OptionSnapshot) :=
  [entryA; entryB; entryC].

(** Two contracts of one expiry and one delta. *)
Definition entryX : list ascii * OptionSnapshot :=
  (bytes "QQQ250117C00400000", snapshot_of (dec 65 2)).
Definition entryY : list ascii * OptionSnapshot :=
  (bytes "QQQ250117C00410000", snapshot_of (dec 65 2)).

(** A broker that answers every request. *)
Definition broker_of (close quote : float64) (positions : list Position)
    (buyingPower : float64) (chain : list (list ascii * OptionSnapshot))
  : Client :=
  {| api_LastClose := fun _ => Reply close;
     api_GetLatestQuote := fun _ => Reply (Some quote);
     api_GetPositions := fun _ => Reply positions;
     api_NonMarginBuyingPower := Reply buyingPower;
     api_GetOptionChain := fun _ => Reply chain;
     api_PlaceOrder := fun _ => Reply {| ID := bytes "order-1" |} |}.

(** Yesterday 100, now 97, no position, 1000 of buying power. *)
Definition chain_broker (chain : list (list ascii * OptionSnapshot)) : Client :=
  broker_of (of_Z 100) (of_Z 97) [] (of_Z 1000) chain.

(** Positions: QQQ calls, and a share position and an option on another
    underlying, which do not count. *)
Definition position (s : string) : Position := {| Symbol := bytes s |}.

Definition three_open : list Position :=
  [position "QQQ250117C00400000"; position "AAPL";
   position "QQQ250117C00410000"; position "SPY250117C00500000";
   position "QQQ260116C00420000"].

Definition five_open : list Position :=
  three_open
  ++ [position "QQQ260116C00430000"; position "QQQ260116C00440000"].

Definition sizing (maxPositions : Z) (positions : list Position)
    (buyingPower : float64) : TwoPercentDown :=
  {| broker := broker_of (of_Z 100) (of_Z 97) positions buyingPower [];
     maxActiveOptions := maxPositions |}.

(** A gap down with no contract on offer. *)
Definition no_chain : TwoPercentDown :=
  {| broker := chain_broker []; maxActiveOptions := 5 |}.

Definition quote_12_34 : OptionQuote :=
  {| BidPrice := of_Z 12; AskPrice := dec 1234 2 |}.

(** A quote in whole cents. *)
Definition quote_cents (bidCents askCents : Z) : OptionQuote :=
  {| BidPrice := dec bidCents 2; AskPrice := dec askCents 2 |}.

(** The asks of whole cents up to 50.00 at which the code's limit price
    is not the floor of 99 percent of the ask, and the whole-dollar
    baselines up to 20 from which a price exactly 2 percent lower is not
    seen as a gap. *)
Definition short_asks : list Z := [1700; 1900; 3400; 3800; 4100].

(** The whole amounts from 1 to [n]. *)
Definition amounts_upto (n : Z) : list Z :=
  map Z.of_nat (seq 1 (Z.to_nat n)).



End Fixtures.

(** ** float64: finiteness *)

(** Neither an infinity nor NaN. *)
Definition is_finite (f : float64) : bool :=
  match f with
  | S754_zero _ | S754_finite _ _ _ => true
  | _ => false
  end.

(** ** strconv.Atoi, for the 64-bit [int] of the build

    [NewTwoPercentDown] reads MAX_ACTIVE_OPTIONS with it.  [None] stands
    for a non-nil error, of syntax or of range. *)

Module strconvInt.

(** The fast path, taken for 1 to 18 bytes: after an optional sign every
    byte must be a decimal digit; 18 digits cannot overflow. *)
Fixpoint fast_loop (s : list ascii) (n : Z) : option Z :=
  match s with
  | [] => Some n
  | ch :: s' =>
      if is_digit ch then fast_loop s' (n * 10 + digit_val ch) else None
  end.

Definition maxUint64 : Z := 2 ^ 64 - 1.

Inductive uint_result : Type :=
| UintOk (n : Z)
| UintSyntax         (* ErrSyntax *)
| UintRange.         (* ErrRange; the value returned is maxUint64 *)

(** The loop of [ParseUint] in base 10: a byte that is no digit is a
    syntax error; [cutoff] is the least [n] with [n * 10] past maxUint64. *)
Fixpoint ParseUint_loop (s : list ascii) (n : Z) : uint_result :=
  match s with
  | [] => UintOk n
  | c :: s' =>
      if is_digit c then
        let cutoff := maxUint64 / 10 + 1 in
        if cutoff <=? n then UintRange
        else
          let n1 := n * 10 + digit_val c in
          if maxUint64 <? n1 then UintRange else ParseUint_loop s' n1
      else UintSyntax
  end.

Definition ParseUint (s : list ascii) : uint_result :=
  if bytes_eqb s [] then UintSyntax else ParseUint_loop s 0.

(** [ParseInt(s, 10, 0)]. *)
Definition ParseInt (s : list ascii) : option Z :=
  match s with
  | [] => None
  | c :: rest =>
      let neg := Ascii.eqb c "-" in
      let s1 := if (Ascii.eqb c "+" || neg)%bool then rest else s in
      match ParseUint s1 with
      | UintSyntax => None
      | UintRange => None      (* maxUint64 is past the cutoff for either sign *)
      | UintOk un =>
          let cutoff := 2 ^ 63 in
          if (negb neg && (cutoff <=? un))%bool then None
          else if (neg && (cutoff <? un))%bool then None
          else Some (if neg then - un else un)
      end
  end.

Definition Atoi (s : list ascii) : option Z :=
  if ((0 <? length s) && (length s <? 19))%nat then
    match s with
    | [] => None
    | c :: rest =>
        let signed := (Ascii.eqb c "-" || Ascii.eqb c "+")%bool in
        let s1 := if signed then rest else s in
        if (signed && (length s1 <? 1)%nat)%bool then None
        else
          match fast_loop s1 0 with
          | Some n => Some (if Ascii.eqb c "-" then - n else n)
          | None => None
          end
    end
  else ParseInt s.

End strconvInt.

(** ** pkg/alpaca: the trading calendar, the daily bar and the clock

    The requests that [alpaca.Client] above folds into [api_LastClose],
    one by one, and the market clock the engine asks. *)

Module market.
Import alpaca.

Record CalendarDay : Type := { Date : list ascii }.   (* "2024-01-15" *)
Record Bar : Type := { Close : float64 }.

Inductive MarketError : Type :=
| EmptySymbol                          (* "symbol cannot be empty" *)
| GetCalendarFailed (msg : string)     (* "failed to get calendar: %w" *)
| NoCalendarData                       (* "no calendar data available" *)
| NoPreviousTradingDay                 (* "no previous trading day found" *)
| LastTradingDayFailed (e : MarketError) (* "failed to get last trading day: %w" *)
| GetBarsFailed (msg : string)         (* "failed to get bars for %s: %w" *)
| NoBarData (day : time.Time)          (* "no data found for %s on %s" *)
| GetClockFailed (msg : string).       (* "failed to get market clock: %w" *)

(** What the SDK answers: the calendar of the last ten days, the daily
    bars of a symbol from a day on (at most one is asked for), and whether
    the market is open. *)
Record Market : Type := {
  api_GetCalendar : response (list CalendarDay);
  api_GetBars : list ascii -> time.Time -> response (list Bar);
  api_GetClock : response bool
}.

(** The zero [time.Time]: January 1 of year 1, 00:00 UTC. *)
Definition zeroTime : time.Time :=
  {| time.year := 1; time.month := 1; time.day := 1 |}.

Definition IsZero (t : time.Time) : bool := time.Equal t zeroTime.

(** The loop of [getLastTradingDay], over the calendar from its last
    entry down: the first date that parses and is before [today];
    [lastTradingDay] stays the zero time when there is none. *)
Fixpoint lastBefore (today : time.Time) (reversed : list CalendarDay)
  : time.Time :=
  match reversed with
  | [] => zeroTime
  | day :: rest =>
      match time.Parse (Date day) with
      | None => lastBefore today rest
      | Some date =>
          if time.Before date today then date else lastBefore today rest
      end
  end.

(** [today] is [time.Now().Truncate(24 * time.Hour)]: midnight UTC of the
    current UTC date. *)
Definition getLastTradingDay (m : Market) (today : time.Time)
  : MarketError + time.Time :=
  match api_GetCalendar m with
  | Fault msg => inl (GetCalendarFailed msg)
  | Reply calendar =>
      if (length calendar =? 0)%nat then inl NoCalendarData
      else
        let lastTradingDay := lastBefore today (rev calendar) in
        if IsZero lastTradingDay then inl NoPreviousTradingDay
        else inr lastTradingDay
  end.

Definition GetLastTradingDayClose (m : Market) (today : time.Time)
    (symbol : list ascii) : MarketError + float64 :=
  if bytes_eqb symbol [] then inl EmptySymbol
  else
    match getLastTradingDay m today with
    | inl err => inl (LastTradingDayFailed err)
    | inr lastTradingDay =>
        match api_GetBars m symbol lastTradingDay with
        | Fault msg => inl (GetBarsFailed msg)
        | Reply [] => inl (NoBarData lastTradingDay)
        | Reply (bar :: _) => inr (Close bar)
        end
    end.

Definition IsMarketOpen (m : Market) : MarketError + bool :=
  match api_GetClock m with
  | Fault msg => inl (GetClockFailed msg)
  | Reply isOpen => inr isOpen
  end.

(** To speak of calendars: the dates one lists, entries that do not parse
    left out; that no date is before one listed earlier; that no entry is a
    date before [today]. *)
Fixpoint dates (calendar : list CalendarDay) : list time.Time :=
  match calendar with
  | [] => []
  | day :: rest =>
      match time.Parse (Date day) with
      | Some d => d :: dates rest
      | None => dates rest
      end
  end.

Fixpoint ascending (l : list time.Time) : bool :=
  match l with
  | [] => true
  | d :: rest => forallb (fun d' => negb (time.Before d' d)) rest && ascending rest
  end.

Definition none_before (today : time.Time) (l : list CalendarDay) : Prop :=
  forall day d, In day l -> time.Parse (Date day) = Some d ->
                time.Before d today = false.

End market.

(** ** pkg/notification: the webhook client

    [notification] above keeps of a notification its webhook and its kind;
    here is what is posted, and what becomes of the post. *)

Module webhook.
Import alpaca.

Record Client : Type := {
  noisyWebhookURL : list ascii;
  normalWebhookURL : list ascii;
  method : list ascii                    (* "generic" or "discord" *)
}.

(** [getenv] is [os.Getenv]: the value of a variable, empty when unset.
    The error returned is always nil. *)
Definition NewClient (getenv : list ascii -> list ascii)
  : Client * option string :=
  let method := getenv (bytes "NOTIFY_METHOD") in
  let method := if bytes_eqb method [] then bytes "generic" else method in
  ({| noisyWebhookURL := getenv (bytes "NOTIFY_NOISY_WEBHOOK_URL");
      normalWebhookURL := getenv (bytes "NOTIFY_NORMAL_WEBHOOK_URL");
      method := method |}, None).

(** The JSON document posted, before [json.Marshal] (which cannot fail on
    these values): for Discord the object with "content" and the
    "allowed_mentions" of everyone, else the object with "type" and
    "message". *)
Inductive Body : Type :=
| DiscordBody (content : list ascii)
| GenericBody (type message : list ascii).

Record Post : Type := { post_url : list ascii; post_body : Body }.

(** The answer to [http.Post]: a response with its status code, or an
    error of the transport. *)
Inductive HttpReply : Type :=
| Responded (statusCode : Z)
| Refused (msg : string).

Inductive SendError : Type :=
| PostFailed (msg : string)
| BadStatus (statusCode : Z).     (* "notification failed with status: %s" *)

Definition sendNotification (http : Post -> HttpReply) (c : Client)
    (webhookURL notificationType message : list ascii)
  : list Post * option SendError :=
  if bytes_eqb webhookURL [] then ([], None)
  else
    let b :=
      if bytes_eqb (method c) (bytes "discord") then
        DiscordBody (notificationType ++ bytes ": " ++ message
                     ++ bytes " @everyone")
      else GenericBody notificationType message in
    let post := {| post_url := webhookURL; post_body := b |} in
    match http post with
    | Refused msg => ([post], Some (PostFailed msg))
    | Responded statusCode =>
        if ((statusCode <? 200) || (300 <=? statusCode))%bool
        then ([post], Some (BadStatus statusCode))
        else ([post], None)
    end.

Definition utf8 (codes : list nat) : list ascii := map ascii_of_nat codes.

(** The notification types, each an emoji (in UTF-8) and its words. *)
Definition label (k : NotificationType) : list ascii :=
  match k with
  | OrderPlacedType => utf8 [226; 156; 133]%nat ++ bytes " Order Placed"
  | FailureType => utf8 [226; 157; 140]%nat ++ bytes " Error occurred"
  | ActionNeededType =>
      utf8 [226; 154; 160; 239; 184; 143]%nat ++ bytes " Action needed"
  | SkippingType => utf8 [226; 143; 169]%nat ++ bytes " Skipping"
  | NoGapDownType => utf8 [240; 159; 154; 171]%nat ++ bytes " No gap down"
  | MarketClosedType => utf8 [240; 159; 154; 171]%nat ++ bytes " Market closed"
  end.

(** The six methods: the posts made, and the error returned, which for
    [Failure] is the one whose text is the message. *)
Definition OrderPlaced (http : Post -> HttpReply) (c : Client)
    (message : list ascii) : list Post * option (list ascii) :=
  (fst (sendNotification http c (normalWebhookURL c)
          (label OrderPlacedType) message), None).

Definition Failure (http : Post -> HttpReply) (c : Client)
    (message : list ascii) : list Post * option (list ascii) :=
  (fst (sendNotification http c (normalWebhookURL c)
          (label FailureType) message), Some message).

Definition ActionNeeded (http : Post -> HttpReply) (c : Client)
    (message : list ascii) (err : option (list ascii))
  : list Post * option (list ascii) :=
  (fst (sendNotification http c (normalWebhookURL c)
          (label ActionNeededType) message), err).

Definition MaxActiveOptions (http : Post -> HttpReply) (c : Client)
    (message : list ascii) : list Post * option (list ascii) :=
  (fst (sendNotification http c (normalWebhookURL c)
          (label SkippingType) message), None).

Definition NoGapDown (http : Post -> HttpReply) (c : Client)
    (message : list ascii) : list Post * option (list ascii) :=
  (fst (sendNotification http c (noisyWebhookURL c)
          (label NoGapDownType) message), None).

(** [date] is [time.Now().Format("January 2, 2006")]. *)
Definition MarketClosed (http : Post -> HttpReply) (c : Client)
    (date : list ascii) : list Post * option (list ascii) :=
  let msg := bytes "The market is closed on " ++ date in
  (fst (sendNotification http c (noisyWebhookURL c)
          (label MarketClosedType) msg), None).

End webhook.

(** ** pkg/engine *)

Module engine.
Import alpaca.

(** The [Strategy] interface, and a value of it. *)
Class Strategy (T : Type) : Type := {
  RunStrategy : T -> list Event * ending (option error)
}.

Inductive AnyStrategy : Type :=
| Boxed {T : Type} `{Strategy T} (s : T).

#[export] Instance TwoPercentDown_Strategy (S : SliceSorter)
  : Strategy strategies.TwoPercentDown :=
  {| RunStrategy := strategies.Run S |}.

Inductive EngineError : Type :=
| MarketOpenCheckFailed (e : market.MarketError)
                                (* "failed to check if market is open: %w" *)
| StrategyFailed (e : error).   (* the error of a strategy, as returned *)

Record Engine : Type := {
  strategies : list AnyStrategy;
  broker : market.Market
}.

Definition NewEngine (strategies : list AnyStrategy) (broker : market.Market)
  : Engine :=
  {| strategies := strategies; broker := broker |}.

(** [strategy.Run(ctx)], on a value of the interface. *)
Definition runAny (strategy : AnyStrategy)
  : list Event * ending (option error) :=
  match strategy with
  | Boxed s => RunStrategy s
  end.

(** The loop over the strategies: the first error ends it, and so does a
    panic, which nothing here recovers. *)
Fixpoint runStrategies (l : list AnyStrategy)
  : list Event * ending (option error) :=
  match l with
  | [] => ([], Returns None)
  | strategy :: rest =>
      match runAny strategy with
      | (events, Panics) => (events, Panics)
      | (events, Returns (Some err)) => (events, Returns (Some err))
      | (events, Returns None) =>
          let (events', r) := runStrategies rest in (events ++ events', r)
      end
  end.

(** The market check comes first; a closed market is no error. *)
Definition Run (e : Engine) : list Event * ending (option EngineError) :=
  match market.IsMarketOpen (broker e) with
  | inl err =>
      ([Notification Normal FailureType],
       Returns (Some (MarketOpenCheckFailed err)))
  | inr false => (fst notification.MarketClosed, Returns None)
  | inr true =>
      match runStrategies (strategies e) with
      | (events, Panics) => (events, Panics)
      | (events, Returns r) => (events, Returns (option_map StrategyFailed r))
      end
  end.

End engine.

(** ** cmd/runstrategy and the Lambda handler *)

Module entry.
Import alpaca.

(** What a process finds: its environment, the two halves of the broker,
    and the sorter of the library. *)
Record World : Type := {
  getenv : list ascii -> list ascii;
  sorter : SliceSorter;
  broker : Client;
  exchange : market.Market
}.

Inductive SetupError : Type :=
| KeysNotSet.   (* "ALPACA_API_KEY and ALPACA_SECRET_KEY environment
                   variables must be set" *)

(** [alpaca.NewClient]. *)
Definition NewClient (w : World) : SetupError + (Client * market.Market) :=
  let apiKey := getenv w (bytes "ALPACA_API_KEY") in
  let secretKey := getenv w (bytes "ALPACA_SECRET_KEY") in
  if (bytes_eqb apiKey [] || bytes_eqb secretKey [])%bool then inl KeysNotSet
  else inr (broker w, exchange w).

(** [strategies.NewTwoPercentDown], reading MAX_ACTIVE_OPTIONS itself. *)
Definition NewTwoPercentDown (w : World) (broker : Client)
  : strategies.TwoPercentDown :=
  let envMax := getenv w (bytes "MAX_ACTIVE_OPTIONS") in
  strategies.NewTwoPercentDown broker
    (if bytes_eqb envMax [] then None else strconvInt.Atoi envMax).

Inductive RunStrategyError : Type :=
| CreateBrokerFailed (e : SetupError)  (* "failed to create broker client: %w" *)
| CreateNotifierFailed (e : string)    (* "failed to create notification client: %w" *)
| UnknownStrategy (name : list ascii)  (* "unknown strategy: %s" *)
| RunFailed (e : engine.EngineError).  (* "failed to run strategy: %w" *)

(** The command: the clients, the strategy of the name given, an engine
    with that one strategy, and its run. *)
Definition runStrategy (w : World) (strategyName : list ascii)
  : list Event * ending (option RunStrategyError) :=
  match NewClient w with
  | inl err => ([], Returns (Some (CreateBrokerFailed err)))
  | inr (broker, exchange) =>
      match webhook.NewClient (getenv w) with
      | (_, Some err) => ([], Returns (Some (CreateNotifierFailed err)))
      | (notifier, None) =>
          if bytes_eqb strategyName (bytes "two-percent-down") then
            let strategy :=
              engine.Boxed (H := engine.TwoPercentDown_Strategy (sorter w))
                (NewTwoPercentDown w broker) in
            let eng := engine.NewEngine [strategy] exchange in
            match engine.Run eng with
            | (events, Panics) => (events, Panics)
            | (events, Returns (Some err)) =>
                (events, Returns (Some (RunFailed err)))
            | (events, Returns None) => (events, Returns None)
            end
          else ([], Returns (Some (UnknownStrategy strategyName)))
      end
  end.

(** The [Error] field holds the text of an error; the model keeps the
    error. *)
Inductive ErrorField : Type :=
| Omitted
| Text (s : list ascii)
| OfSetup (e : SetupError)
| OfNotifier (e : string)
| OfRun (e : engine.EngineError).

Record LambdaResponse : Type := {
  Status : list ascii;
  Message : list ascii;
  Error : ErrorField
}.

(** The handler does the same for the name of the event and answers with
    a response; the last component is the error it returns to the Lambda
    runtime.  A panic of the run leaves the handler as it is: no response
    is made. *)
Definition Handler (w : World) (StrategyName : list ascii)
  : list Event * ending (LambdaResponse * option RunStrategyError) :=
  if bytes_eqb StrategyName [] then
    ([], Returns ({| Status := bytes "error";
                     Message := bytes "Strategy name is required";
                     Error := Text (bytes "strategy_name is empty") |}, None))
  else
    match NewClient w with
    | inl err =>
        ([], Returns ({| Status := bytes "error";
                         Message := bytes "Failed to create broker client";
                         Error := OfSetup err |}, None))
    | inr (broker, exchange) =>
        match webhook.NewClient (getenv w) with
        | (_, Some err) =>
            ([], Returns
                   ({| Status := bytes "error";
                       Message := bytes "Failed to create notification client";
                       Error := OfNotifier err |}, None))
        | (notifier, None) =>
            if bytes_eqb StrategyName (bytes "two-percent-down") then
              let strategy :=
                engine.Boxed (H := engine.TwoPercentDown_Strategy (sorter w))
                  (NewTwoPercentDown w broker) in
              let eng := engine.NewEngine [strategy] exchange in
              match engine.Run eng with
              | (events, Panics) => (events, Panics)
              | (events, Returns (Some err)) =>
                  (events,
                   Returns ({| Status := bytes "error";
                               Message := bytes "Failed to run strategy";
                               Error := OfRun err |}, None))
              | (events, Returns None) =>
                  (events,
                   Returns
                     ({| Status := bytes "success";
                         Message := bytes "Strategy " ++ StrategyName
                                    ++ bytes " completed successfully";
                         Error := Omitted |}, None))
              end
            else
              ([], Returns
                     ({| Status := bytes "error";
                         Message := bytes "Unknown strategy: " ++ StrategyName;
                         Error := Text (bytes "unknown strategy") |}, None))
        end
    end.

End entry.

(** ** Further fixtures *)

Module Examples.
Import alpaca strategies Fixtures.

(** Four QQQ calls are held when the run counts them and five when the
    sizer counts them again. *)
Definition four_open : list Position :=
  three_open ++ [position "QQQ260116C00430000"].

Definition filling_up : TwoPercentDown :=
  {| broker :=
       {| api_LastClose := fun _ => Reply (of_Z 100);
          api_GetLatestQuote := fun _ => Reply (Some (of_Z 97));
          api_GetPositions :=
            fun n => match n with
                     | O => Reply four_open
                     | _ => Reply five_open
                     end;
          api_NonMarginBuyingPower := Reply (of_Z 1000);
          api_GetOptionChain := fun _ => Reply example_chain;
          api_PlaceOrder := fun _ => Reply {| ID := bytes "order-1" |} |};
     maxActiveOptions := 5 |}.

(** Three QQQ calls are held when the run counts them and four when the
    sizer counts them again. *)
Definition one_more : TwoPercentDown :=
  {| broker :=
       {| api_LastClose := fun _ => Reply (of_Z 100);
          api_GetLatestQuote := fun _ => Reply (Some (of_Z 97));
          api_GetPositions :=
            fun n => match n with
                     | O => Reply three_open
                     | _ => Reply four_open
                     end;
          api_NonMarginBuyingPower := Reply (of_Z 10000);
          api_GetOptionChain := fun _ => Reply example_chain;
          api_PlaceOrder := fun _ => Reply {| ID := bytes "order-1" |} |};
     maxActiveOptions := 5 |}.

(** The close is fetched, and the quote response has no entry for the
    symbol. *)
Definition no_quote_broker : Client :=
  {| api_LastClose := fun _ => Reply (of_Z 100);
     api_GetLatestQuote := fun _ => Reply None;
     api_GetPositions := fun _ => Reply [];
     api_NonMarginBuyingPower := Reply (of_Z 1000);
     api_GetOptionChain := fun _ => Reply example_chain;
     api_PlaceOrder := fun _ => Reply {| ID := bytes "order-1" |} |}.

Definition no_quote : TwoPercentDown :=
  {| broker := no_quote_broker; maxActiveOptions := 5 |}.

(** A gap down, one contract on offer, and an account request that
    fails. *)
Definition no_account : TwoPercentDown :=
  {| broker :=
       {| api_LastClose := fun _ => Reply (of_Z 100);
          api_GetLatestQuote := fun _ => Reply (Some (of_Z 97));
          api_GetPositions := fun _ => Reply three_open;
          api_NonMarginBuyingPower := Fault "account unavailable";
          api_GetOptionChain := fun _ => Reply example_chain;
          api_PlaceOrder := fun _ => Reply {| ID := bytes "order-1" |} |};
     maxActiveOptions := 5 |}.

(** A process with the keys set, MAX_ACTIVE_OPTIONS at 3, an open market,
    a gap down and 10000 to spend. *)
Definition getenv_live (name : list ascii) : list ascii :=
  if bytes_eqb name (bytes "ALPACA_API_KEY") then bytes "key"
  else if bytes_eqb name (bytes "ALPACA_SECRET_KEY") then bytes "secret"
  else if bytes_eqb name (bytes "MAX_ACTIVE_OPTIONS") then bytes "3"
  else [].

Definition live (S : SliceSorter) : entry.World :=
  {| entry.getenv := getenv_live;
     entry.sorter := S;
     entry.broker := broker_of (of_Z 100) (of_Z 97) [] (of_Z 10000) example_chain;
     entry.exchange :=
       {| market.api_GetCalendar := Reply [];
          market.api_GetBars := fun _ _ => Reply [];
          market.api_GetClock := Reply true |} |}.

(** The same process, with a quote response that has no entry for the
    symbol. *)
Definition live_no_quote (S : SliceSorter) : entry.World :=
  {| entry.getenv := getenv_live;
     entry.sorter := S;
     entry.broker := no_quote_broker;
     entry.exchange := entry.exchange (live S) |}.

(** A webhook that answers 500, and a Discord notifier. *)
Definition failing_http (p : webhook.Post) : webhook.HttpReply :=
  webhook.Responded 500.

Definition discord : webhook.Client :=
  {| webhook.noisyWebhookURL := [];
     webhook.normalWebhookURL := bytes "https://discord.example/hook";
     webhook.method := bytes "discord" |}.

(** A gap down with a budget of 10000 and the example chain. *)
Definition funded : TwoPercentDown :=
  {| broker := broker_of (of_Z 100) (of_Z 97) [] (of_Z 10000) example_chain;
     maxActiveOptions := 1 |}.

(** The calendar around January 16, 2024, and a bar that closed at 100. *)
Definition january : market.Market :=
  {| market.api_GetCalendar :=
       Reply [ {| market.Date := bytes "2024-01-12" |};
               {| market.Date := bytes "2024-01-16" |};
               {| market.Date := bytes "2024-01-17" |} ];
     market.api_GetBars := fun _ _ => Reply [ {| market.Close := of_Z 100 |} ];
     market.api_GetClock := Reply true |}.

End Examples.

(** * Facts about the embedding *)

Import alpaca Spec strategies Fixtures.

(** ** float64: order *)

Section FloatOrder.

Ltac cmp_cases :=
  repeat match goal with
         | |- context [Pos.compare_cont Eq ?p ?q] =>
             change (Pos.compare_cont Eq p q) with (Pos.compare p q);
             destruct (Pos.compare_spec p q)
         | |- context [Z.compare ?p ?q] => destruct (Z.compare_spec p q)
         end;
  simpl; intros; subst; try reflexivity; try discriminate; try lia.

Lemma SFcompare_antisym (a b : float64) (c : comparison) :
  SFcompare a b = Some c -> SFcompare b a = Some (CompOpp c).
Proof.
  destruct a as [[]|[]| |[] m1 e1], b as [[]|[]| |[] m2 e2]; simpl;
    intros H; inversion H; subst; clear H; try reflexivity; cmp_cases.
Qed.

Lemma ltb_irrefl (a : float64) : Float64.ltb a a = false.
Proof.
  unfold Float64.ltb, SFltb.
  destruct a as [[]|[]| |[] m e]; simpl; try reflexivity; cmp_cases.
Qed.

Lemma ltb_trans (a b c : float64) :
  Float64.ltb a b = true -> Float64.ltb b c = true -> Float64.ltb a c = true.
Proof.
  unfold Float64.ltb, SFltb.
  destruct a as [[]|[]| |[] m1 e1], b as [[]|[]| |[] m2 e2], c as [[]|[]| |[] m3 e3];
    simpl; try discriminate; try reflexivity; cmp_cases.
Qed.

Lemma geb_not_nan (a b : float64) : geb a b = true -> is_nan a = false /\ is_nan b = false.
Proof.
  unfold geb, SFleb. destruct a as [[]|[]| |[] m1 e1], b as [[]|[]| |[] m2 e2]; simpl; intros; try discriminate; auto.
Qed.

Lemma not_ltb_leb (a b : float64) :
  is_nan a = false -> is_nan b = false -> Float64.ltb b a = false -> Float64.leb a b = true.
Proof.
  unfold Float64.ltb, Float64.leb, SFltb, SFleb. intros Ha Hb.
  destruct (SFcompare b a) as [c|] eqn:E.
  - rewrite (SFcompare_antisym _ _ _ E). destruct c; simpl; congruence.
  - destruct a as [[]|[]| |[] m1 e1], b as [[]|[]| |[] m2 e2]; simpl in *; discriminate.
Qed.

End FloatOrder.

(** ** float64: signs, exact integers *)

Lemma ltb_zero_clear (x : float64) :
  Float64.ltb Float64.zero x = true -> signbit_clear x = true /\ Float64.leb x Float64.zero = false.
Proof.
  destruct x as [[]|[]| |[] m e]; simpl; try discriminate; auto.
Qed.

(** [float64(n)] is finite (and exact) for an integer below [2^53]. *)
Lemma digits2_iter (p k : positive) :
  digits2_pos (Pos.iter xO p k) = (digits2_pos p + k)%positive.
Proof.
  induction k using Pos.peano_ind.
  - simpl. lia.
  - rewrite Pos.iter_succ. simpl. rewrite IHk. lia.
Qed.

Lemma digits2_lower (p : positive) : 2 ^ (Z.pos (digits2_pos p) - 1) <= Z.pos p.
Proof.
  induction p; simpl digits2_pos.
  - rewrite Pos2Z.inj_succ. replace (Z.succ (Z.pos (digits2_pos p)) - 1) with (Z.succ (Z.pos (digits2_pos p) - 1)) by lia.
    rewrite Z.pow_succ_r by lia. lia.
  - rewrite Pos2Z.inj_succ. replace (Z.succ (Z.pos (digits2_pos p)) - 1) with (Z.succ (Z.pos (digits2_pos p) - 1)) by lia.
    rewrite Z.pow_succ_r by lia. lia.
  - simpl. lia.
Qed.

Lemma digits2_small (p : positive) : Z.pos p < 2 ^ 53 -> Z.pos (digits2_pos p) <= 53.
Proof.
  intros H. pose proof (digits2_lower p) as L.
  destruct (Z_le_gt_dec (Z.pos (digits2_pos p)) 53) as [|G]; [assumption|exfalso].
  assert (2 ^ 53 <= 2 ^ (Z.pos (digits2_pos p) - 1)) by (apply Z.pow_le_mono_r; lia).
  lia.
Qed.

Lemma round_aux_exact (s : bool) (m : positive) (e : Z) :
  Z.pos (digits2_pos m) = 53 -> -1074 <= e <= 971 ->
  binary_round_aux prec emax s (Z.pos m) e loc_Exact = S754_finite s m e.
Proof.
  intros Hd He.
  assert (Hx : forall x, x = fexp prec emax (Z.pos (digits2_pos m) + e) - e -> x = 0).
  { intros x ->. unfold fexp, emin, prec, emax. rewrite Hd. lia. }
  unfold binary_round_aux, shr_fexp.
  cbn [Zdigits2 shr_record_of_loc].
  rewrite (Hx _ eq_refl).
  cbn [shr shr_m loc_of_shr_record round_nearest_even Zdigits2 shr_record_of_loc].
  rewrite (Hx _ eq_refl).
  cbn [shr shr_m].
  replace (e <=? emax - prec) with true; [reflexivity|].
  symmetry. apply Z.leb_le. unfold emax, prec. lia.
Qed.

Lemma of_Z_finite (n : Z) :
  0 < n < 2 ^ 53 -> exists m e, of_Z n = S754_finite false m e.
Proof.
  intros [H0 H1]. destruct n as [|p|p]; try lia.
  unfold of_Z, binary_normalize, binary_round.
  pose proof (digits2_small p H1) as Hd.
  assert (Hf : fexp prec emax (Z.pos (digits2_pos p) + 0) = Z.pos (digits2_pos p) - 53).
  { unfold fexp, emin, prec, emax. lia. }
  rewrite Hf. unfold shl_align.
  destruct (Z.pos (digits2_pos p) - 53 - 0) as [|q|q] eqn:E; try lia.
  - eexists _, _. apply round_aux_exact; lia.
  - eexists _, _. apply round_aux_exact; [|lia].
    rewrite digits2_iter. lia.
Qed.

(** ** Decimal digits and the fields of a symbol *)

Lemma digit_char_spec (d : Z) :
  0 <= d < 10 ->
  is_digit (digit_char d) = true /\ digit_val (digit_char d) = d
  /\ strconv.lower (digit_char d) = digit_char d.
Proof.
  intros H.
  assert (C : d = 0 \/ d = 1 \/ d = 2 \/ d = 3 \/ d = 4 \/ d = 5 \/ d = 6
              \/ d = 7 \/ d = 8 \/ d = 9) by lia.
  repeat (destruct C as [-> | C]; [repeat split; reflexivity|]).
  subst d; repeat split; reflexivity.
Qed.

(** A digit is none of the bytes the float syntax treats specially. *)
Lemma is_digit_plain (c : ascii) :
  is_digit c = true ->
  Ascii.eqb c "_" = false /\ Ascii.eqb c "." = false /\ Ascii.eqb c "+" = false
  /\ Ascii.eqb c "-" = false /\ Ascii.eqb c "i" = false /\ Ascii.eqb c "I" = false
  /\ Ascii.eqb c "n" = false /\ Ascii.eqb c "N" = false
  /\ Ascii.eqb (strconv.lower c) "x" = false /\ Ascii.eqb (strconv.lower c) "e" = false.
Proof.
  destruct c as [[] [] [] [] [] [] [] []]; vm_compute; intros H;
    first [discriminate H | repeat split].
Qed.

Lemma read_mantissa_digits (s : list ascii) (st : strconv.mantissa) :
  Forall (fun c => is_digit c = true) s ->
  strconv.sawdot st = false ->
  strconv.read_mantissa false s st =
  ({| strconv.mant := digits_value s (strconv.mant st);
      strconv.frac := strconv.frac st;
      strconv.sawdot := false;
      strconv.sawdigits := (strconv.sawdigits st || negb (Nat.eqb (length s) 0))%bool;
      strconv.underscores := strconv.underscores st |}, []).
Proof.
  intros Hs. revert st. induction Hs as [|c s Hc Hs IH]; intros st Hd.
  - simpl. destruct st; simpl in *; subst. rewrite orb_false_r. reflexivity.
  - cbn [strconv.read_mantissa].
    destruct (is_digit_plain c Hc) as (-> & -> & _).
    rewrite Hc. rewrite IH by (simpl; assumption).
    unfold strconv.push. cbn. rewrite Hd. rewrite orb_true_r. reflexivity.
Qed.

Lemma pad_length (w : nat) (n : Z) : length (pad w n) = w.
Proof.
  revert n. induction w; intros n; simpl; [reflexivity|].
  rewrite length_app, IHw. simpl. lia.
Qed.

Lemma pad_digits (w : nat) (n : Z) : Forall (fun c => is_digit c = true) (pad w n).
Proof.
  revert n. induction w; intros n; simpl; [constructor|].
  apply Forall_app. split; [apply IHw|].
  constructor; [|constructor]. apply digit_char_spec. apply Z.mod_pos_bound. lia.
Qed.

Lemma digits_value_pad (w : nat) (n acc : Z) :
  0 <= n ->
  digits_value (pad w n) acc = acc * 10 ^ Z.of_nat w + n mod 10 ^ Z.of_nat w.
Proof.
  revert n acc. induction w; intros n acc Hn.
  - simpl. rewrite Z.mod_1_r. lia.
  - cbn [pad]. unfold digits_value in *. rewrite fold_left_app. cbn [fold_left].
    rewrite IHw by (apply Z.div_pos; lia).
    destruct (digit_char_spec (n mod 10)) as (_ & -> & _); [apply Z.mod_pos_bound; lia|].
    rewrite Nat2Z.inj_succ, Z.pow_succ_r by lia.
    assert (P : 0 < 10 ^ Z.of_nat w) by (apply Z.pow_pos_nonneg; lia).
    rewrite (Z.rem_mul_r n 10 (10 ^ Z.of_nat w)) by lia.
    ring_simplify. lia.
Qed.

Lemma digits_value_nonneg (s : list ascii) (acc : Z) :
  Forall (fun c => is_digit c = true) s -> 0 <= acc -> 0 <= digits_value s acc.
Proof.
  intros Hs. revert acc. induction Hs as [|c s Hc Hs IH]; intros acc Ha; simpl; [assumption|].
  apply IH. unfold is_digit, digit_val in *. lia.
Qed.

Lemma ParseFloat_digits (s : list ascii) :
  s <> [] -> Forall (fun c => is_digit c = true) s ->
  digits_value s 0 < 2 ^ 53 ->
  strconv.ParseFloat s = Some (of_Z (digits_value s 0)).
Proof.
  intros Hne Hs Hv.
  assert (Hr : strconv.readFloat s =
               Some ({| strconv.p_neg := false; strconv.p_hex := false;
                        strconv.p_mant := digits_value s 0; strconv.p_exp := - 0 |}, [])).
  { destruct s as [|c s']; [congruence|].
    pose proof (Forall_inv Hs) as Hc.
    destruct (is_digit_plain c Hc) as (_ & _ & Hp & Hm & _).
    unfold strconv.readFloat. rewrite Hp, Hm.
    assert (Hh : (match c :: s' with
                  | c0 :: c1 :: c2 :: r =>
                      if (Ascii.eqb c0 "0" && Ascii.eqb (strconv.lower c1) "x")%bool
                      then (true, c2 :: r) else (false, c :: s')
                  | _ => (false, c :: s')
                  end) = (false, c :: s')).
    { destruct s' as [|c1 [|c2 r]]; try reflexivity.
      pose proof (Forall_inv (Forall_inv_tail Hs)) as Hc1.
      destruct (is_digit_plain c1 Hc1) as (_ & _ & _ & _ & _ & _ & _ & _ & -> & _).
      rewrite andb_false_r. reflexivity. }
    rewrite Hh.
    rewrite (read_mantissa_digits (c :: s') strconv.mantissa0 Hs eq_refl).
    reflexivity. }
  unfold strconv.ParseFloat.
  assert (Hsp : strconv.special s = None).
  { destruct s as [|c s']; [reflexivity|].
    pose proof (Forall_inv Hs) as Hc.
    destruct (is_digit_plain c Hc) as (_ & _ & Hp & Hm & Hi & HI & Hn & HN & _).
    unfold strconv.special. rewrite Hp, Hm, Hi, HI, Hn, HN. reflexivity. }
  rewrite Hsp, Hr. cbn [strconv.p_hex strconv.p_neg strconv.p_mant strconv.p_exp].
  pose proof (digits_value_nonneg s 0 Hs (Z.le_refl 0)) as H0.
  destruct (digits_value s 0) as [|p|p] eqn:E; try lia.
  - reflexivity.
  - unfold strconv.atof_decimal. cbn [Z.opp].
    rewrite Z.pow_0_r, Z.mul_1_r.
    destruct (of_Z_finite (Z.pos p)) as (m & e & Hf); [lia|].
    unfold of_Z in *. rewrite Hf. reflexivity.
Qed.

(** Slices of a symbol that ends in a block of known length. *)
Lemma from_app (a b : list ascii) (n : nat) :
  length b = n -> from (length (a ++ b) - n) (a ++ b) = b.
Proof.
  intros <-. unfold from. rewrite length_app.
  replace (length a + length b - length b)%nat with (length a) by lia.
  rewrite skipn_app, skipn_all, Nat.sub_diag. reflexivity.
Qed.

Lemma upto_app (a b : list ascii) (n : nat) :
  length b = n -> upto (length (a ++ b) - n) (a ++ b) = a.
Proof.
  intros <-. unfold upto. rewrite length_app.
  replace (length a + length b - length b)%nat with (length a) by lia.
  rewrite firstn_app, firstn_all, Nat.sub_diag. simpl. apply app_nil_r.
Qed.

Lemma bytes_eqb_eq (a b : list ascii) : bytes_eqb a b = true <-> a = b.
Proof. unfold bytes_eqb. destruct (list_eq_dec ascii_dec a b); split; congruence. Qed.

Lemma bytes_eqb_neq (a b : list ascii) : bytes_eqb a b = false <-> a <> b.
Proof. unfold bytes_eqb. destruct (list_eq_dec ascii_dec a b); split; congruence. Qed.

Lemma pad2 (n : Z) : pad 2 n = [digit_char (n / 10 mod 10); digit_char (n mod 10)].
Proof. reflexivity. Qed.

Lemma Parse_encoded (t : time.Time) :
  valid_date t ->
  time.Parse (bytes "20" ++ pad 2 (time.year t mod 100) ++ bytes "-"
              ++ pad 2 (time.month t) ++ bytes "-" ++ pad 2 (time.day t)) = Some t.
Proof.
  intros (Hy & Hm & Hd). destruct t as [y m d]. cbn [time.year time.month time.day] in *.
  assert (Dm : time.daysIn m y <= 31).
  { unfold time.daysIn. destruct (m =? 2); [destruct (time.isLeap y); lia|].
    pose proof (Z.mod_pos_bound (m + m / 8) 2). lia. }
  rewrite !pad2. cbn [app bytes list_ascii_of_string].
  unfold time.Parse.
  repeat match goal with
  | |- context [is_digit (digit_char ?k)] =>
      let H := fresh in
      destruct (digit_char_spec k) as (H & _); [try (apply Z.mod_pos_bound; lia)|rewrite H; clear H]
  end.
  change (is_digit "2") with true. change (is_digit "0") with true.
  change (Ascii.eqb "-" "-") with true. cbn [andb].
  unfold time.num2.
  repeat match goal with
  | |- context [digit_val (digit_char ?k)] =>
      let H := fresh in
      destruct (digit_char_spec k) as (_ & H & _); [try (apply Z.mod_pos_bound; lia)|rewrite H; clear H]
  end.
  change (digit_val "2") with 2. change (digit_val "0") with 0.
  replace ((2 * 10 + 0) * 100 + ((y mod 100) / 10 mod 10 * 10 + (y mod 100) mod 10)) with y.
  2:{ pose proof (Z.div_mod (y mod 100) 10). pose proof (Z.mod_pos_bound y 100).
      rewrite (Z.mod_small ((y mod 100) / 10) 10) by (split; [apply Z.div_pos; lia | apply Z.div_lt_upper_bound; lia]).
      pose proof (Z.div_mod y 100). lia. }
  replace (m / 10 mod 10 * 10 + m mod 10) with m.
  2:{ rewrite (Z.mod_small (m / 10) 10) by (split; [apply Z.div_pos; lia | apply Z.div_lt_upper_bound; lia]).
      pose proof (Z.div_mod m 10). lia. }
  replace (d / 10 mod 10 * 10 + d mod 10) with d.
  2:{ rewrite (Z.mod_small (d / 10) 10) by (split; [apply Z.div_pos; lia | apply Z.div_lt_upper_bound; lia]).
      pose proof (Z.div_mod d 10). lia. }
  replace ((m <=? 0) || (12 <? m))%bool with false by (symmetry; apply orb_false_iff; split; [apply Z.leb_gt|apply Z.ltb_ge]; lia).
  replace ((d <? 1) || (time.daysIn m y <? d))%bool with false by (symmetry; apply orb_false_iff; split; apply Z.ltb_ge; lia).
  reflexivity.
Qed.

(** The decoder on a symbol cut into its four fields. *)
Lemma ParseOptionTicker_fields (u D K : list ascii) (ty : ascii) :
  length D = 6%nat -> length K = 8%nat ->
  ParseOptionTicker (u ++ D ++ [ty] ++ K) =
  match strconv.ParseFloat K with
  | None => Err InvalidStrike
  | Some strikeFloat =>
      if negb (Ascii.eqb ty "C" || Ascii.eqb ty "P") then Err (InvalidOptionType ty)
      else
        match time.Parse (bytes "20" ++ upto 2 D ++ bytes "-"
                          ++ upto 2 (from 2 D) ++ bytes "-" ++ upto 2 (from 4 D)) with
        | None => Err InvalidExpirationDate
        | Some expiry =>
            Ok {| Underlying := u; Expiry := expiry; Type_ := [ty];
                  Strike := div strikeFloat (of_Z 1000);
                  Ticker := u ++ D ++ [ty] ++ K |}
        end
  end.
Proof.
  intros HD HK.
  remember (u ++ D ++ [ty] ++ K) as sym eqn:Es.
  assert (E1 : sym = (u ++ D ++ [ty]) ++ K) by (subst sym; rewrite <- !app_assoc; reflexivity).
  assert (E2 : u ++ D ++ [ty] = (u ++ D) ++ [ty]) by (rewrite <- app_assoc; reflexivity).
  assert (L : length sym = (length u + 15)%nat).
  { rewrite E1, !length_app, HD, HK. simpl. lia. }
  assert (F1 : from (length sym - 8) sym = K) by (rewrite E1; apply from_app, HK).
  assert (U1 : upto (length sym - 8) sym = u ++ D ++ [ty]) by (rewrite E1; apply upto_app, HK).
  unfold ParseOptionTicker. rewrite F1, U1.
  replace (bytes_eqb sym []) with false.
  2:{ symmetry. apply bytes_eqb_neq. intros H. rewrite H in L. simpl in L. lia. }
  replace (length sym <? 8)%nat with false by (symmetry; apply Nat.ltb_ge; lia).
  destruct (strconv.ParseFloat K) as [strikeFloat|]; [|reflexivity].
  assert (L2 : length (u ++ D ++ [ty]) = (length u + 7)%nat).
  { rewrite !length_app, HD. simpl. lia. }
  rewrite L2.
  replace (length u + 7 <? 1)%nat with false by (symmetry; apply Nat.ltb_ge; lia).
  replace (nth (length u + 7 - 1) (u ++ D ++ [ty]) "000"%char) with ty.
  2:{ rewrite E2. replace (length u + 7 - 1)%nat with (length (u ++ D)) by (rewrite length_app, HD; lia).
      rewrite nth_middle. reflexivity. }
  destruct (negb (Ascii.eqb ty "C" || Ascii.eqb ty "P")); [reflexivity|].
  assert (U2 : upto (length u + 7 - 1) (u ++ D ++ [ty]) = u ++ D).
  { rewrite E2. replace (length u + 7 - 1)%nat with (length ((u ++ D) ++ [ty]) - 1)%nat
      by (rewrite !length_app, HD; simpl; lia).
    apply upto_app. reflexivity. }
  rewrite U2.
  assert (L3 : length (u ++ D) = (length u + 6)%nat) by (rewrite length_app, HD; lia).
  rewrite L3.
  replace (length u + 6 <? 6)%nat with false by (symmetry; apply Nat.ltb_ge; lia).
  replace (length u + 6 - 6)%nat with (length (u ++ D) - 6)%nat by lia.
  rewrite (from_app u D 6 HD), (upto_app u D 6 HD).
  reflexivity.
Qed.

Lemma parse_encode (u : list ascii) (t : time.Time) (ty : ascii) (n : Z) :
  valid_date t -> ty = "C"%char \/ ty = "P"%char -> 0 <= n < 10 ^ 8 ->
  ParseOptionTicker (encode u t ty n) =
  Ok {| Underlying := u; Expiry := t; Type_ := [ty]; Strike := dec n 3;
        Ticker := encode u t ty n |}.
Proof.
  intros Ht Hty Hn.
  set (D := pad 2 (time.year t mod 100) ++ pad 2 (time.month t) ++ pad 2 (time.day t)).
  assert (E : encode u t ty n = u ++ D ++ [ty] ++ pad 8 n).
  { unfold encode, D. rewrite <- !app_assoc. reflexivity. }
  rewrite E.
  rewrite (ParseOptionTicker_fields u D (pad 8 n) ty eq_refl (pad_length 8 n)).
  assert (PF : strconv.ParseFloat (pad 8 n) = Some (of_Z n)).
  { assert (V : digits_value (pad 8 n) 0 = n).
    { rewrite digits_value_pad by lia. simpl Z.of_nat. rewrite Z.mod_small; lia. }
    rewrite <- V at 2. apply ParseFloat_digits.
    - intros H. apply (f_equal (@length ascii)) in H. rewrite pad_length in H. discriminate.
    - apply pad_digits.
    - rewrite V. lia. }
  rewrite PF.
  replace (negb (Ascii.eqb ty "C" || Ascii.eqb ty "P")) with false
    by (destruct Hty; subst ty; reflexivity).
  replace (bytes "20" ++ upto 2 D ++ bytes "-" ++ upto 2 (from 2 D) ++ bytes "-" ++ upto 2 (from 4 D))
    with (bytes "20" ++ pad 2 (time.year t mod 100) ++ bytes "-"
              ++ pad 2 (time.month t) ++ bytes "-" ++ pad 2 (time.day t)) by reflexivity.
  rewrite (Parse_encoded t Ht). reflexivity.
Qed.

(** Every failure of the decoder is a malformed symbol. *)
Lemma ParseOptionTicker_error_kind (symbol : list ascii) (e : error) :
  ParseOptionTicker symbol = Err e -> kind e = MalformedSymbol.
Proof.
  unfold ParseOptionTicker.
  repeat match goal with
         | |- context [if ?b then _ else _] => destruct b
         | |- context [match ?x with Some _ => _ | None => _ end] => destruct x
         end;
    intros H; inversion H; reflexivity.
Qed.

(** A symbol of fewer than 15 bytes has no room for a date, a type and a
    strike. *)
Lemma ParseOptionTicker_short (symbol : list ascii) :
  (length symbol < 15)%nat -> exists e, ParseOptionTicker symbol = Err e.
Proof.
  intros Hl. unfold ParseOptionTicker.
  destruct (bytes_eqb symbol []); [eexists; reflexivity|].
  destruct (Nat.ltb_spec (length symbol) 8) as [|H8]; [eexists; reflexivity|].
  destruct (strconv.ParseFloat _); [|eexists; reflexivity].
  assert (L1 : length (upto (length symbol - 8) symbol) = (length symbol - 8)%nat)
    by (apply firstn_length_le; lia).
  rewrite L1.
  destruct (Nat.ltb_spec (length symbol - 8) 1) as [|H9]; [eexists; reflexivity|].
  destruct (negb _); [eexists; reflexivity|].
  assert (L2 : length (upto (length symbol - 8 - 1) (upto (length symbol - 8) symbol))
               = (length symbol - 8 - 1)%nat)
    by (apply firstn_length_le; lia).
  rewrite L2.
  replace (length symbol - 8 - 1 <? 6)%nat with true
    by (symmetry; apply Nat.ltb_lt; lia).
  eexists; reflexivity.
Qed.

(** ** Insertion sort is a sorter *)

Section InsertionSort.

Context {A : Type}.
Variable less : A -> A -> bool.
Hypothesis less_sw : strict_weak less.

Lemma descending_cons (x : A) (l : list A) :
  descending less (x :: l) <-> (forall y, In y l -> less x y = false) /\ descending less l.
Proof.
  split.
  - intros H. split.
    + intros y Hy. destruct (in_split _ _ Hy) as (mid & post & ->).
      apply (H [] x mid y post). reflexivity.
    + intros pre a mid b post E. apply (H (x :: pre) a mid b post). rewrite E. reflexivity.
  - intros [Hx Hl] pre a mid b post E. destruct pre as [|p pre]; simpl in E; inversion E; subst.
    + apply Hx. apply in_or_app. right. left. reflexivity.
    + eapply Hl. reflexivity.
Qed.

Lemma insert_back_perm (x : A) (l : list A) : Permutation (x :: l) (insert_back less x l).
Proof.
  induction l as [|y r IH]; simpl; [reflexivity|].
  destruct (less x y); [|reflexivity].
  rewrite perm_swap. apply perm_skip, IH.
Qed.

Lemma insert_back_descending (x : A) (l : list A) :
  descending less l -> descending less (insert_back less x l).
Proof.
  induction l as [|y r IH]; intros Hl; simpl.
  - apply descending_cons. split; [intros ? []|]. intros [|? [|? ?]] ? ? ? ? E; discriminate E.
  - apply descending_cons in Hl. destruct Hl as [Hy Hr].
    destruct (less x y) eqn:Exy.
    + apply descending_cons. split; [|apply IH, Hr].
      intros z Hz. apply (Permutation_in _ (Permutation_sym (insert_back_perm x r))) in Hz.
      destruct Hz as [<-|Hz]; [apply (sw_asym less less_sw), Exy | apply Hy, Hz].
    + apply descending_cons. split; [|apply descending_cons; split; assumption].
      intros z [<-|Hz]; [assumption|].
      apply (sw_negtrans less less_sw x y z); [assumption | apply Hy, Hz].
Qed.

Lemma fold_insert_perm (l acc : list A) :
  Permutation (rev l ++ acc) (fold_left (fun racc x => insert_back less x racc) l acc).
Proof.
  revert acc. induction l as [|x l IH]; intros acc; simpl; [reflexivity|].
  rewrite <- IH. rewrite <- app_assoc. simpl.
  apply Permutation_app_head. apply insert_back_perm.
Qed.

Lemma fold_insert_descending (l acc : list A) :
  descending less acc ->
  descending less (fold_left (fun racc x => insert_back less x racc) l acc).
Proof.
  revert acc. induction l as [|x l IH]; intros acc Ha; simpl; [assumption|].
  apply IH, insert_back_descending, Ha.
Qed.

Lemma insertionSort_ordered (l : list A) : ordered less (insertionSort less l).
Proof.
  unfold insertionSort.
  assert (D : descending less (fold_left (fun racc x => insert_back less x racc) l [])).
  { apply fold_insert_descending. intros [|? ?] ? ? ? ? E; discriminate E. }
  intros pre x mid y post E.
  apply (f_equal (@rev A)) in E. rewrite rev_involutive in E.
  rewrite rev_app_distr in E. simpl in E. rewrite rev_app_distr in E. simpl in E.
  rewrite <- !app_assoc in E. simpl in E.
  apply (D (rev post) y (rev mid) x (rev pre)). exact E.
Qed.

End InsertionSort.

Lemma insertionSort_perm {A : Type} (less : A -> A -> bool) (l : list A) :
  Permutation l (insertionSort less l).
Proof.
  unfold insertionSort. rewrite <- (fold_insert_perm less l []).
  rewrite app_nil_r, rev_involutive. reflexivity.
Qed.

Definition insertion_sorter : SliceSorter :=
  {| sortSlice := @insertionSort;
     sortSlice_perm := @insertionSort_perm;
     sortSlice_ordered := fun A less l H => insertionSort_ordered less H l |}.

(** ** The selector *)

(** *** Dates *)

Lemma Equal_eq (t u : time.Time) : time.Equal t u = true <-> t = u.
Proof.
  destruct t as [y m d], u as [y' m' d']. unfold time.Equal. simpl.
  rewrite !andb_true_iff, !Z.eqb_eq. split.
  - intros [[-> ->] ->]. reflexivity.
  - intros E. inversion E. auto.
Qed.

Lemma Before_irrefl (t : time.Time) : time.Before t t = false.
Proof.
  unfold time.Before. rewrite !Z.ltb_irrefl, !Z.eqb_refl. reflexivity.
Qed.

Lemma expiryLess_strict_weak : strict_weak expiryLess.
Proof.
  split; unfold expiryLess, time.Before.
  - intros a b. destruct (expiry a) as [y m d], (expiry b) as [y' m' d']. simpl.
    destruct (Z.ltb_spec y y'), (Z.eqb_spec y y'), (Z.ltb_spec m m'), (Z.eqb_spec m m'),
      (Z.ltb_spec d d'), (Z.ltb_spec y' y), (Z.eqb_spec y' y), (Z.ltb_spec m' m),
      (Z.eqb_spec m' m), (Z.ltb_spec d' d); simpl; intros; try reflexivity; try discriminate; lia.
  - intros a b c.
    destruct (expiry a) as [y m d], (expiry b) as [y' m' d'], (expiry c) as [y'' m'' d'']. simpl.
    destruct (Z.ltb_spec y y'), (Z.eqb_spec y y'), (Z.ltb_spec m m'), (Z.eqb_spec m m'),
      (Z.ltb_spec d d'); simpl; intros; try discriminate;
    destruct (Z.ltb_spec y' y''), (Z.eqb_spec y' y''), (Z.ltb_spec m' m''), (Z.eqb_spec m' m''),
      (Z.ltb_spec d' d''); simpl in *; try discriminate;
    destruct (Z.ltb_spec y y''), (Z.eqb_spec y y''), (Z.ltb_spec m m''), (Z.eqb_spec m m''),
      (Z.ltb_spec d d''); simpl; try reflexivity; try lia.
Qed.

(** *** The filtering loop *)

Lemma validOptions_In (minDelta : float64) (chain : list (list ascii * OptionSnapshot))
    (c : candidate) :
  In c (validOptions minDelta chain) <->
  qualifying minDelta chain (symbol c) (snapshot c) (delta c) (expiry c).
Proof.
  unfold qualifying. induction chain as [|[sym snap] rest IH]; simpl.
  - split; [intros [] | intros ([] & _)].
  - destruct (Greeks snap) as [g|] eqn:Eg.
    2:{ rewrite IH. split.
        - intros (Hi & Hg & Ho). split; [right; exact Hi | split; assumption].
        - intros ([E|Hi] & Hg & Ho); [|split; [exact Hi | split; assumption]].
          inversion E; subst. destruct Hg as (g & Hg & _). congruence. }
    destruct (geb (Delta g) minDelta) eqn:Ed.
    2:{ rewrite IH. split.
        - intros (Hi & Hg & Ho). split; [right; exact Hi | split; assumption].
        - intros ([E|Hi] & Hg & Ho); [|split; [exact Hi | split; assumption]].
          inversion E; subst. destruct Hg as (g' & Hg & <- & Hd). congruence. }
    destruct (ParseOptionTicker sym) as [o|e] eqn:Ep.
    2:{ rewrite IH. split.
        - intros (Hi & Hg & Ho). split; [right; exact Hi | split; assumption].
        - intros ([E|Hi] & Hg & Ho); [|split; [exact Hi | split; assumption]].
          inversion E; subst. destruct Ho as (o & Ho & _). congruence. }
    simpl. rewrite IH. split.
    + intros [<-|(Hi & Hg & Ho)]; simpl.
      * split; [left; reflexivity|]. split; [exists g | exists o]; auto.
      * split; [right; exact Hi | split; assumption].
    + intros ([E|Hi] & Hg & Ho); [left | right; split; [exact Hi | split; assumption]].
      inversion E; subst. destruct c as [s sn d t]; simpl in *.
      destruct Hg as (g' & Hg & <- & _), Ho as (o' & Ho & <-).
      congruence.
Qed.

(** *** The minimum scan *)

Lemma ltb_asym (a b : float64) : Float64.ltb a b = true -> Float64.ltb b a = false.
Proof.
  intros H. destruct (Float64.ltb b a) eqn:E; [|reflexivity].
  rewrite <- (ltb_irrefl a). symmetry. apply (ltb_trans a b a); assumption.
Qed.

Lemma minDeltaScan_spec (l : list candidate) (first : candidate) :
  let r := minDeltaScan first l in
  In r (first :: l)
  /\ (r = first \/ Float64.ltb (delta r) (delta first) = true)
  /\ forall c, In c l -> Float64.ltb (delta c) (delta r) = false.
Proof.
  unfold minDeltaScan. revert first. induction l as [|o l IH]; intros first; simpl.
  - split; [left; reflexivity|]. split; [left; reflexivity | intros c []].
  - destruct (Float64.ltb (delta o) (delta first)) eqn:E.
    + specialize (IH o). revert IH.
      generalize (fold_left
                    (fun minDeltaOption option : candidate =>
                       if Float64.ltb (delta option) (delta minDeltaOption)
                       then option else minDeltaOption) l o).
      intros r (Hin & Ho & Hall). split; [|split].
      * destruct Hin as [<-|Hin]; [right; left; reflexivity | right; right; exact Hin].
      * right. destruct Ho as [->|Ho]; [exact E | exact (ltb_trans _ _ _ Ho E)].
      * intros c [Ec|Hc]; [subst c|apply Hall, Hc].
        destruct Ho as [->|Ho]; [apply ltb_irrefl | apply ltb_asym, Ho].
    + specialize (IH first). revert IH.
      generalize (fold_left
                    (fun minDeltaOption option : candidate =>
                       if Float64.ltb (delta option) (delta minDeltaOption)
                       then option else minDeltaOption) l first).
      intros r (Hin & Ho & Hall). split; [|split].
      * destruct Hin as [<-|Hin]; [left; reflexivity | right; right; exact Hin].
      * exact Ho.
      * intros c [Ec|Hc]; [subst c|apply Hall, Hc].
        destruct Ho as [->|Ho]; [exact E|].
        destruct (Float64.ltb (delta o) (delta r)) eqn:E2; [|reflexivity].
        rewrite (ltb_trans _ _ _ E2 Ho) in E. discriminate.
Qed.

(** *** The selection steps *)

Lemma hd_In {A : Type} (d : A) (l : list A) : l <> [] -> In (hd d l) l.
Proof. destruct l; [congruence | left; reflexivity]. Qed.

Lemma ordered_head {A : Type} (less : A -> A -> bool) (d : A) (l : list A) :
  strict_weak less -> ordered less l ->
  forall x, In x l -> less x (hd d l) = false.
Proof.
  intros [Hasym _] Ho x Hx. destruct l as [|h t]; [destruct Hx|]. simpl.
  destruct Hx as [<-|Hx].
  - destruct (less h h) eqn:E; [|reflexivity]. rewrite <- E. apply Hasym, E.
  - destruct (in_split _ _ Hx) as (mid & post & ->). apply (Ho [] h mid x post). reflexivity.
Qed.

(** What the selection steps return on a non-empty list of candidates. *)
Lemma select_spec (S : SliceSorter) (v0 : candidate) (valid : list candidate) :
  valid <> [] ->
  let sorted := sortSlice S expiryLess valid in
  let earliest := filter (fun o => time.Equal (expiry o) (expiry (hd v0 sorted))) sorted in
  let r := minDeltaScan (hd v0 earliest) earliest in
  In r valid
  /\ forall c, In c valid ->
       time.Before (expiry c) (expiry r) = false
       /\ (expiry c = expiry r -> Float64.ltb (delta c) (delta r) = false).
Proof.
  intros Hne sorted earliest r.
  pose proof (sortSlice_perm S _ expiryLess valid) as P. fold sorted in P.
  assert (Hs : sorted <> []).
  { intros E. rewrite E in P. apply Permutation_sym, Permutation_nil in P. contradiction. }
  pose proof (hd_In v0 sorted Hs) as Hh.
  assert (He : In (hd v0 sorted) earliest).
  { apply filter_In. split; [exact Hh | apply Equal_eq; reflexivity]. }
  assert (Hne' : earliest <> []) by (intros E; rewrite E in He; destruct He).
  destruct (minDeltaScan_spec earliest (hd v0 earliest)) as (Hin & _ & Hmin). fold r in Hin, Hmin.
  assert (Hr : In r earliest).
  { destruct Hin as [<-|Hin]; [apply hd_In, Hne' | exact Hin]. }
  apply filter_In in Hr. destruct Hr as [Hrs Hre]. apply Equal_eq in Hre.
  split; [apply (Permutation_in _ (Permutation_sym P)), Hrs|].
  intros c Hc. apply (Permutation_in _ P) in Hc. split.
  - rewrite Hre.
    apply (ordered_head expiryLess v0 sorted expiryLess_strict_weak
             (sortSlice_ordered S _ expiryLess valid expiryLess_strict_weak) c Hc).
  - intros E. apply Hmin. apply filter_In. split; [exact Hc|].
    apply Equal_eq. congruence.
Qed.
(** *** The selector, case by case *)

Lemma qualifying_perm (minDelta : float64) (l1 l2 : list (list ascii * OptionSnapshot))
    sym snap d t :
  Permutation l1 l2 -> qualifying minDelta l1 sym snap d t -> qualifying minDelta l2 sym snap d t.
Proof.
  intros P (Hi & H). split; [apply (Permutation_in _ P Hi) | exact H].
Qed.

Lemma selected_perm (minDelta : float64) (l1 l2 : list (list ascii * OptionSnapshot)) sym snap :
  Permutation l1 l2 -> selected minDelta l1 sym snap -> selected minDelta l2 sym snap.
Proof.
  intros P (d & t & Hq & Hall). exists d, t.
  split; [exact (qualifying_perm _ _ _ _ _ _ _ P Hq)|].
  intros sym' snap' d' t' Hq'. apply (Hall sym' snap').
  exact (qualifying_perm _ _ _ _ _ _ _ (Permutation_sym P) Hq').
Qed.

Lemma GetCallLeapsByDelta_cases (S : SliceSorter) (m : Client)
    (underlyingTicker : list ascii) (minDelta : float64)
    (chain : list (list ascii * OptionSnapshot)) :
  underlyingTicker <> [] -> Float64.leb minDelta Float64.zero = false ->
  api_GetOptionChain m underlyingTicker = Reply chain ->
  (validOptions minDelta chain = []
   /\ GetCallLeapsByDelta S m underlyingTicker minDelta =
      Err (if (length chain =? 0)%nat then NoLeapsFound else NoLeapsWithDelta))
  \/ (exists sym snap,
        GetCallLeapsByDelta S m underlyingTicker minDelta = Ok (sym, snap)
        /\ selected minDelta chain sym snap).
Proof.
  intros Ht Hd Hc. unfold GetCallLeapsByDelta.
  replace (bytes_eqb underlyingTicker []) with false by (symmetry; apply bytes_eqb_neq, Ht).
  rewrite Hd, Hc. cbn [call wrap bind].
  destruct (validOptions minDelta chain) as [|v0 vs] eqn:Ev.
  - left. split; [reflexivity|]. destruct (length chain =? 0)%nat; reflexivity.
  - right. destruct chain as [|e chain']; [discriminate Ev|]. cbn [length Nat.eqb].
    rewrite <- Ev.
    destruct (select_spec S v0 (validOptions minDelta (e :: chain'))) as (Hin & Hall);
      [rewrite Ev; discriminate|].
    match goal with
    | |- context [Ok (symbol ?r, snapshot ?r)] => set (res := r) in *
    end.
    exists (symbol res), (snapshot res). split; [reflexivity|].
    exists (delta res), (expiry res). apply validOptions_In in Hin. split; [exact Hin|].
    intros sym' snap' d' t' Hq.
    pose (c := {| symbol := sym'; snapshot := snap'; delta := d'; expiry := t' |}).
    destruct (Hall c) as [Hb Hm]; [apply validOptions_In; exact Hq|].
    split; [exact Hb|]. intros E. simpl in Hm. specialize (Hm E).
    destruct Hin as (_ & (g & _ & Eg & Hg) & _), Hq as (_ & (g' & _ & Eg' & Hg') & _).
    apply not_ltb_leb; [| | exact Hm].
    + apply (geb_not_nan _ _ Hg).
    + apply (geb_not_nan _ _ Hg').
Qed.


Lemma ltb_zero_leb (x : float64) :
  Float64.ltb Float64.zero x = true -> Float64.leb x Float64.zero = false.
Proof. intros H. apply ltb_zero_clear, H. Qed.

Lemma entry_qualifies (sym : list ascii) (d : float64) (o : Option)
    (chain : list (list ascii * OptionSnapshot)) (minDelta : float64) :
  In (sym, snapshot_of d) chain -> geb d minDelta = true ->
  ParseOptionTicker sym = Ok o ->
  qualifying minDelta chain sym (snapshot_of d) d (Expiry o).
Proof.
  intros Hi Hd Hp. split; [exact Hi|]. split.
  - exists {| Delta := d |}. auto.
  - exists o. auto.
Qed.

Lemma example_chain_selected (sym : list ascii) (snap : OptionSnapshot) :
  selected (dec 60 2) example_chain sym snap -> (sym, snap) = entryC.
Proof.
  assert (QC : exists o, ParseOptionTicker (fst entryC) = Ok o
                         /\ Expiry o = {| time.year := 2024; time.month := 6;
                                          time.day := 21 |}).
  { eexists. split; [vm_compute; reflexivity | reflexivity]. }
  destruct QC as (oC & PC & EC).
  assert (HC : qualifying (dec 60 2) example_chain (fst entryC) (snd entryC)
                 (dec 62 2) (Expiry oC)).
  { apply entry_qualifies; [right; right; left; reflexivity | reflexivity | exact PC]. }
  intros (d & t & (Hi & _ & (o & Hp & Ht)) & Hall).
  destruct (Hall _ _ _ _ HC) as [Hb _]. rewrite EC in Hb.
  destruct Hi as [E|[E|[E|[]]]]; inversion E; subst sym snap; clear E.
  - vm_compute in Hp. inversion Hp; subst o. subst t. discriminate Hb.
  - vm_compute in Hp. inversion Hp; subst o. subst t. discriminate Hb.
  - reflexivity.
Qed.

(** *** Determinism *)

Lemma NoDup_fst_unique {K V : Type} (l : list (K * V)) (k : K) (v1 v2 : V) :
  NoDup (map fst l) -> In (k, v1) l -> In (k, v2) l -> v1 = v2.
Proof.
  induction l as [|[k' v'] l IH]; simpl; intros Hn H1 H2; [destruct H1|].
  inversion Hn as [|? ? Hk Hn']; subst.
  destruct H1 as [E1|H1], H2 as [E2|H2].
  - congruence.
  - inversion E1; subst. exfalso. apply Hk. apply (in_map fst _ _ H2).
  - inversion E2; subst. exfalso. apply Hk. apply (in_map fst _ _ H1).
  - exact (IH Hn' H1 H2).
Qed.

Lemma validOptions_nil_perm (minDelta : float64)
    (l1 l2 : list (list ascii * OptionSnapshot)) :
  Permutation l1 l2 -> validOptions minDelta l1 = [] -> validOptions minDelta l2 = [].
Proof.
  intros P H. destruct (validOptions minDelta l2) as [|c cs] eqn:E; [reflexivity|exfalso].
  assert (Hc : In c (validOptions minDelta l2)) by (rewrite E; left; reflexivity).
  apply validOptions_In in Hc.
  apply (qualifying_perm _ _ _ _ _ _ _ (Permutation_sym P)) in Hc.
  apply validOptions_In in Hc. rewrite H in Hc. destruct Hc.
Qed.

(** ** The sizer *)

Lemma wrap_int64_id (z : Z) : in_int64 z = true -> wrap_int64 z = z.
Proof.
  unfold in_int64, min_int64, max_int64, wrap_int64. intros H.
  apply andb_true_iff in H. destruct H as [H1 H2].
  apply Z.leb_le in H1, H2. rewrite Z.mod_small; lia.
Qed.

Lemma calculateInvestmentSize_spec (s : TwoPercentDown) (n : nat)
    (openOptions : list Position) (buyingPower : float64) :
  GetOptionsPositions (broker s) n ticker = Ok openOptions ->
  GetNonMarginableBuyingPower (broker s) = Ok buyingPower ->
  in_int64 (maxActiveOptions s - len openOptions) = true ->
  calculateInvestmentSize s n =
  if maxActiveOptions s - len openOptions <=? 0 then Err NoRemainingSpots
  else Ok (div buyingPower (of_Z (maxActiveOptions s - len openOptions))).
Proof.
  intros Hp Hb Hr. unfold calculateInvestmentSize.
  rewrite Hp. cbn [wrap bind]. rewrite (wrap_int64_id _ Hr).
  destruct (maxActiveOptions s - len openOptions <=? 0); [reflexivity|].
  rewrite Hb. reflexivity.
Qed.

(** The sizer fails for want of a spot or upstream, never on its input. *)
Lemma GetOptionsPositions_error (c : Client) (n : nat) (e : error) :
  GetOptionsPositions c n ticker = Err e -> kind e = UpstreamFailure.
Proof.
  unfold GetOptionsPositions, GetAllPositions. cbn [bytes_eqb ticker].
  change (bytes_eqb ticker []) with false. cbn iota.
  destruct (api_GetPositions c n); cbn; intros H; inversion H. reflexivity.
Qed.

Lemma calculateInvestmentSize_error (s : TwoPercentDown) (n : nat) (e : error) :
  calculateInvestmentSize s n = Err e ->
  kind e = CapacityExceeded \/ kind e = UpstreamFailure.
Proof.
  unfold calculateInvestmentSize.
  destruct (GetOptionsPositions (broker s) n ticker) as [openOptions|e0] eqn:Ep; cbn [wrap bind].
  - destruct (wrap_int64 _ <=? 0).
    + intros H; inversion H. left; reflexivity.
    + unfold GetNonMarginableBuyingPower.
      destruct (api_NonMarginBuyingPower (broker s)); cbn; intros H; inversion H.
      right; reflexivity.
  - intros H; inversion H. right. cbn. exact (GetOptionsPositions_error _ _ _ Ep).
Qed.
(** ** The run *)

Lemma PlaceOrder_events (m : Client) (investmentSize : float64)
    (optionSymbol : list ascii) (optionQuote : option OptionQuote)
    (takeProfitPercentage : float64) (events : list Event) (r : result Order) :
  PlaceOptionLimitOrderWithTakeProfit m investmentSize optionSymbol optionQuote
    takeProfitPercentage = (events, r) ->
  (events = [] /\ exists e, r = Err e /\ kind e <> UpstreamFailure)
  \/ (exists req, events = [OrderSubmitted req]
                  /\ ((exists o, r = Ok o) \/ exists e, r = Err e /\ kind e = UpstreamFailure)).
Proof.
  unfold PlaceOptionLimitOrderWithTakeProfit.
  destruct (bytes_eqb optionSymbol []).
  { intros H; inversion H. left. split; [reflexivity|]. eexists; split; [reflexivity|discriminate]. }
  destruct optionQuote as [q|].
  2:{ intros H; inversion H. left. split; [reflexivity|]. eexists; split; [reflexivity|discriminate]. }
  destruct (Float64.leb investmentSize Float64.zero).
  { intros H; inversion H. left. split; [reflexivity|]. eexists; split; [reflexivity|discriminate]. }
  destruct (Float64.leb takeProfitPercentage Float64.zero).
  { intros H; inversion H. left. split; [reflexivity|]. eexists; split; [reflexivity|discriminate]. }
  destruct (Float64.leb (BidPrice q) Float64.zero || Float64.leb (AskPrice q) Float64.zero)%bool.
  { intros H; inversion H. left. split; [reflexivity|]. eexists; split; [reflexivity|discriminate]. }
  destruct (to_int _ <=? 0).
  { intros H; inversion H. left. split; [reflexivity|]. eexists; split; [reflexivity|discriminate]. }
  intros H; inversion H. right. eexists. split; [reflexivity|].
  destruct (api_PlaceOrder m _); cbn.
  - left. eexists; reflexivity.
  - right. eexists; split; reflexivity.
Qed.


Lemma Run_gapDown (S : SliceSorter) (s : TwoPercentDown) :
  gap_triggered s -> Run S s = returned (gapDown S s).
Proof.
  intros (yc & cp & Hy & Hc & Hg). unfold Run. rewrite Hy, Hc, Hg. reflexivity.
Qed.

(** * The claims *)

(** ** Option symbol codec *)

(** C6. Encoding an underlying, an expiry date the two-digit year can
    carry (2000 to 2099), a type C or P and a strike of [n] thousandths
    ([n] below [10^8]) and parsing the symbol back succeeds and returns the
    same underlying, expiry date and type, and the strike [n / 1000] as
    the nearest float64.  It holds for every underlying, alphanumeric or
    not, ending in a digit or not: the fields are cut from the right. *)
Theorem ParseOptionTicker_round_trip :
  forall (underlying : list ascii) (expiry : time.Time) (type : ascii)
         (strike1000 : Z),
    valid_date expiry ->
    type = "C"%char \/ type = "P"%char ->
    0 <= strike1000 < 10 ^ 8 ->
    ParseOptionTicker (encode underlying expiry type strike1000) =
    Ok {| Underlying := underlying; Expiry := expiry; Type_ := [type];
          Strike := dec strike1000 3;
          Ticker := encode underlying expiry type strike1000 |}.
Proof.
  intros underlying expiry type strike1000 Hd Ht Hs.
  apply parse_encode; assumption.
Qed.

Lemma ParseOptionTicker_round_trip_witness :
  ParseOptionTicker (bytes "QQQ240119C00420000") =
  Ok {| Underlying := bytes "QQQ";
        Expiry := {| time.year := 2024; time.month := 1; time.day := 19 |};
        Type_ := bytes "C"; Strike := dec 420000 3;
        Ticker := bytes "QQQ240119C00420000" |}.
Proof.
  apply (ParseOptionTicker_round_trip (bytes "QQQ")
           {| time.year := 2024; time.month := 1; time.day := 19 |}
           "C"%char 420000).
  - unfold valid_date. repeat split; vm_compute; discriminate.
  - left. reflexivity.
  - lia.
Defined.

(** C7. The claim fails on the code: the strike is read with
    [strconv.ParseFloat], which takes more than eight digits.  Here the last
    eight bytes hold a decimal point, and the symbol parses, with strike
    0.42. *)
Theorem ParseOptionTicker_accepts_non_digit_strike :
  forallb is_digit (bytes "0420.000") = false
  /\ ParseOptionTicker (bytes "QQQ240119C0420.000") =
     Ok {| Underlying := bytes "QQQ";
           Expiry := {| time.year := 2024; time.month := 1; time.day := 19 |};
           Type_ := bytes "C"; Strike := dec 42 2;
           Ticker := bytes "QQQ240119C0420.000" |}.
Proof.
  split; vm_compute; reflexivity.
Qed.

(** C10. The 15-byte symbol 240119C00420000 parses, and its underlying is
    the empty string; so does every symbol made of a date, a type and a
    strike alone, and every 15-byte symbol that parses at all. *)
Theorem ParseOptionTicker_empty_underlying :
  (exists o, ParseOptionTicker (bytes "240119C00420000") = Ok o
             /\ Underlying o = [])
  /\ (forall (expiry : time.Time) (type : ascii) (strike1000 : Z),
        valid_date expiry ->
        type = "C"%char \/ type = "P"%char ->
        0 <= strike1000 < 10 ^ 8 ->
        length (encode [] expiry type strike1000) = 15%nat
        /\ exists o, ParseOptionTicker (encode [] expiry type strike1000) = Ok o
                     /\ Underlying o = [])
  /\ (forall (symbol : list ascii) (o : Option),
        length symbol = 15%nat ->
        ParseOptionTicker symbol = Ok o -> Underlying o = []).
Proof.
  split; [|split].
  - eexists. split; [vm_compute; reflexivity | reflexivity].
  - intros expiry type strike1000 Hd Ht Hs. split.
    + unfold encode. rewrite !length_app, !pad_length. reflexivity.
    + eexists. split; [apply parse_encode; assumption | reflexivity].
  - intros symbol o Hl Hp.
    do 15 (destruct symbol as [|? symbol]; [discriminate Hl|]).
    destruct symbol; [|discriminate Hl].
    match type of Hp with
    | ParseOptionTicker [?a; ?b; ?c; ?d; ?e; ?f; ?t; ?k1; ?k2; ?k3; ?k4; ?k5; ?k6; ?k7; ?k8] = _ =>
        pose proof (ParseOptionTicker_fields [] [a; b; c; d; e; f]
                      [k1; k2; k3; k4; k5; k6; k7; k8] t eq_refl eq_refl) as F
    end.
    cbn [app] in F. rewrite F in Hp.
    destruct (strconv.ParseFloat _); [|discriminate Hp].
    destruct (negb _); [discriminate Hp|].
    destruct (time.Parse _); [|discriminate Hp].
    inversion Hp. reflexivity.
Qed.

Lemma ParseOptionTicker_empty_underlying_witness :
  exists o, ParseOptionTicker (bytes "250117P00005500") = Ok o
            /\ Underlying o = [].
Proof.
  apply (proj1 (proj2 ParseOptionTicker_empty_underlying)
           {| time.year := 2025; time.month := 1; time.day := 17 |}
           "P"%char 5500).
  - unfold valid_date. repeat split; vm_compute; discriminate.
  - right. reflexivity.
  - lia.
Defined.

(** ** Contract selector *)

(** C1. Whenever some chain entry has greeks, a delta at or above a
    positive floor and a symbol that parses, the selector succeeds and
    returns such an entry whose expiry no qualifying entry precedes and
    whose delta is the least among the qualifying entries of that expiry;
    entries without greeks or with a symbol that does not parse are passed
    over.  The chain A (0.65, January 2025), B (0.70, January 2025),
    C (0.62, June 2024) with floor 0.60 yields C, whatever the order the
    map is visited in and whatever the sorter. *)
Theorem GetCallLeapsByDelta_earliest_expiry_then_min_delta :
  (forall (S : SliceSorter) (m : Client) (underlyingTicker : list ascii)
          (minDelta : float64) (chain : list (list ascii * OptionSnapshot)),
      underlyingTicker <> [] ->
      Float64.ltb Float64.zero minDelta = true ->
      api_GetOptionChain m underlyingTicker = Reply chain ->
      (exists sym snap d t, qualifying minDelta chain sym snap d t) ->
      exists sym snap,
        GetCallLeapsByDelta S m underlyingTicker minDelta = Ok (sym, snap)
        /\ selected minDelta chain sym snap)
  /\ (forall (S : SliceSorter) (m : Client)
             (chain : list (list ascii * OptionSnapshot)),
        Permutation example_chain chain ->
        api_GetOptionChain m ticker = Reply chain ->
        GetCallLeapsByDelta S m ticker (dec 60 2) = Ok entryC).
Proof.
  assert (General :
    forall (S : SliceSorter) (m : Client) (underlyingTicker : list ascii)
           (minDelta : float64) (chain : list (list ascii * OptionSnapshot)),
      underlyingTicker <> [] ->
      Float64.ltb Float64.zero minDelta = true ->
      api_GetOptionChain m underlyingTicker = Reply chain ->
      (exists sym snap d t, qualifying minDelta chain sym snap d t) ->
      exists sym snap,
        GetCallLeapsByDelta S m underlyingTicker minDelta = Ok (sym, snap)
        /\ selected minDelta chain sym snap).
  { intros S m underlyingTicker minDelta chain Ht Hd Hc (sym & snap & d & t & Hq).
    destruct (GetCallLeapsByDelta_cases S m underlyingTicker minDelta chain Ht
                (ltb_zero_leb _ Hd) Hc) as [[Hv _]|H]; [exfalso|exact H].
    pose (c := {| symbol := sym; snapshot := snap; delta := d; expiry := t |}).
    assert (Hin : In c (validOptions minDelta chain))
      by (apply validOptions_In; exact Hq).
    rewrite Hv in Hin. destruct Hin. }
  split; [exact General|].
  intros S m chain P Hc.
  destruct (General S m ticker (dec 60 2) chain)
    as (sym & snap & -> & Hs); [discriminate | reflexivity | exact Hc | |].
  { exists (fst entryC), (snd entryC), (dec 62 2),
      {| time.year := 2024; time.month := 6; time.day := 21 |}.
    apply (qualifying_perm _ example_chain chain _ _ _ _ P).
    split; [right; right; left; reflexivity|]. split.
    - exists {| Delta := dec 62 2 |}. repeat split; reflexivity.
    - eexists. split; [vm_compute; reflexivity | reflexivity]. }
  apply (selected_perm _ _ _ _ _ (Permutation_sym P)) in Hs.
  rewrite (example_chain_selected _ _ Hs). reflexivity.
Qed.

Lemma GetCallLeapsByDelta_earliest_expiry_then_min_delta_witness :
  exists sym snap,
    GetCallLeapsByDelta insertion_sorter (chain_broker example_chain) ticker
      (dec 60 2) = Ok (sym, snap)
    /\ selected (dec 60 2) example_chain sym snap.
Proof.
  apply (proj1 GetCallLeapsByDelta_earliest_expiry_then_min_delta
           insertion_sorter (chain_broker example_chain) ticker (dec 60 2)
           example_chain).
  - discriminate.
  - reflexivity.
  - reflexivity.
  - exists (fst entryA), (snd entryA), (dec 65 2),
      {| time.year := 2025; time.month := 1; time.day := 17 |}.
    split; [left; reflexivity|]. split.
    + exists {| Delta := dec 65 2 |}. repeat split; reflexivity.
    + eexists. split; [vm_compute; reflexivity | reflexivity].
Defined.


(** C5, as the code has it.  Two calls on one chain, visited in any two
    orders and sorted by any two sorters, both fail with one error or both
    return an entry the selection rule admits; they return the same entry
    whenever the rule admits the entries of one symbol only. *)
Theorem GetCallLeapsByDelta_same_result_without_ties :
  forall (S1 S2 : SliceSorter) (m1 m2 : Client) (underlyingTicker : list ascii)
         (minDelta : float64) (chain1 chain2 : list (list ascii * OptionSnapshot)),
    api_GetOptionChain m1 underlyingTicker = Reply chain1 ->
    api_GetOptionChain m2 underlyingTicker = Reply chain2 ->
    Permutation chain1 chain2 ->
    NoDup (map fst chain1) ->
    let r1 := GetCallLeapsByDelta S1 m1 underlyingTicker minDelta in
    let r2 := GetCallLeapsByDelta S2 m2 underlyingTicker minDelta in
    ((exists e, r1 = Err e /\ r2 = Err e)
     \/ (exists sym1 snap1 sym2 snap2,
           r1 = Ok (sym1, snap1) /\ r2 = Ok (sym2, snap2)
           /\ selected minDelta chain1 sym1 snap1
           /\ selected minDelta chain1 sym2 snap2))
    /\ ((forall sym snap sym' snap',
            selected minDelta chain1 sym snap ->
            selected minDelta chain1 sym' snap' -> sym = sym') ->
        r1 = r2).
Proof.
  intros S1 S2 m1 m2 tk minDelta chain1 chain2 H1 H2 P Hn r1 r2.
  assert (Main : (exists e, r1 = Err e /\ r2 = Err e)
     \/ (exists sym1 snap1 sym2 snap2,
           r1 = Ok (sym1, snap1) /\ r2 = Ok (sym2, snap2)
           /\ selected minDelta chain1 sym1 snap1
           /\ selected minDelta chain1 sym2 snap2)).
  { destruct (list_eq_dec ascii_dec tk []) as [Et|Et].
    { left. exists UnderlyingEmpty. subst r1 r2. unfold GetCallLeapsByDelta.
      rewrite (proj2 (bytes_eqb_eq tk []) Et). auto. }
    destruct (Float64.leb minDelta Float64.zero) eqn:Ed.
    { left. exists MinDeltaNotPositive. subst r1 r2. unfold GetCallLeapsByDelta.
      rewrite (proj2 (bytes_eqb_neq tk []) Et), Ed. auto. }
    destruct (GetCallLeapsByDelta_cases S1 m1 tk minDelta chain1 Et Ed H1)
      as [[Hv1 Hr1]|(sym1 & snap1 & Hr1 & Hs1)].
    - left. pose proof (validOptions_nil_perm _ _ _ P Hv1) as Hv2.
      destruct (GetCallLeapsByDelta_cases S2 m2 tk minDelta chain2 Et Ed H2)
        as [[_ Hr2]|(sym2 & snap2 & _ & (d & t & Hq & _))].
      + rewrite <- (Permutation_length P) in Hr2. eexists. split; eassumption.
      + apply validOptions_In
          with (c := {| symbol := sym2; snapshot := snap2; delta := d; expiry := t |}) in Hq.
        rewrite Hv2 in Hq. destruct Hq.
    - right.
      destruct (GetCallLeapsByDelta_cases S2 m2 tk minDelta chain2 Et Ed H2)
        as [[Hv2 _]|(sym2 & snap2 & Hr2 & Hs2)].
      + pose proof (validOptions_nil_perm _ _ _ (Permutation_sym P) Hv2) as Hv1.
        destruct Hs1 as (d & t & Hq & _).
        apply validOptions_In
          with (c := {| symbol := sym1; snapshot := snap1; delta := d; expiry := t |}) in Hq.
        rewrite Hv1 in Hq. destruct Hq.
      + exists sym1, snap1, sym2, snap2. repeat split; try assumption.
        exact (selected_perm _ _ _ _ _ (Permutation_sym P) Hs2). }
  split; [exact Main|].
  intros Huniq. destruct Main as [(e & -> & ->)|(s1 & n1 & s2 & n2 & -> & -> & Hs1 & Hs2)];
    [reflexivity|].
  assert (s1 = s2) by exact (Huniq _ _ _ _ Hs1 Hs2). subst s2.
  destruct Hs1 as (? & ? & (Hi1 & _) & _), Hs2 as (? & ? & (Hi2 & _) & _).
  rewrite (NoDup_fst_unique chain1 s1 n1 n2 Hn Hi1 Hi2). reflexivity.
Qed.

(** C5 as stated fails: two contracts tied on expiry and delta, visited in
    the two possible orders, give two different symbols. *)
Lemma GetCallLeapsByDelta_tie_follows_iteration_order :
  Permutation [entryX; entryY] [entryY; entryX]
  /\ NoDup (map fst [entryX; entryY])
  /\ GetCallLeapsByDelta insertion_sorter (chain_broker [entryX; entryY]) ticker
       (dec 60 2) = Ok entryX
  /\ GetCallLeapsByDelta insertion_sorter (chain_broker [entryY; entryX]) ticker
       (dec 60 2) = Ok entryY
  /\ fst entryX <> fst entryY.
Proof.
  split; [apply perm_swap|]. split.
  - repeat constructor; simpl; intuition discriminate.
  - repeat split; try (vm_compute; reflexivity). discriminate.
Qed.

Lemma GetCallLeapsByDelta_same_result_without_ties_witness :
  GetCallLeapsByDelta insertion_sorter (chain_broker example_chain) ticker
    (dec 60 2)
  = GetCallLeapsByDelta insertion_sorter (chain_broker (rev example_chain))
      ticker (dec 60 2).
Proof.
  apply (GetCallLeapsByDelta_same_result_without_ties
           insertion_sorter insertion_sorter
           (chain_broker example_chain) (chain_broker (rev example_chain))
           ticker (dec 60 2) example_chain (rev example_chain)).
  - reflexivity.
  - reflexivity.
  - apply Permutation_rev.
  - repeat constructor; simpl; intuition discriminate.
  - intros sym snap sym' snap' H H'.
    apply example_chain_selected in H. apply example_chain_selected in H'.
    congruence.
Defined.

(** ** Order planner *)

(** C2.  The claim's two examples hold: at an ask of 12.34 the limit
    price is 12.21, a budget of 500 buys nothing (InsufficientBudget) and
    a budget of 2000 buys one contract with a take-profit of 18.31.  The
    formulas do not hold in general, because each product and quotient is
    a float64 operation and the cast cuts what the rounding left below
    the whole number.  At an ask of 17.00 the order goes out at 16.82,
    where 99 percent of the ask is 16.83; at an ask of 12.33 the
    take-profit is 18.29, where 150 percent of the limit 12.20 is 18.30;
    a budget of 1610 at an ask of 16.10 is refused as InsufficientBudget,
    where it pays for exactly one contract.  Over the asks from 0.01 to
    50.00 the limit price is short at five of them (17.00, 19.00, 34.00,
    38.00 and 41.00), by one cent each time, and is the floor everywhere
    else. *)
Theorem PlaceOptionLimitOrderWithTakeProfit_truncates_float_products :
  (PlaceOptionLimitOrderWithTakeProfit (chain_broker []) (of_Z 500)
     (bytes "QQQ250117C00400000") (Some quote_12_34) (of_Z 50)
   = ([], Err QuantityNotPositive)
   /\ kind QuantityNotPositive = InsufficientBudget
   /\ contracts 50000 1234 = 0
   /\ truncate2 (mul (AskPrice quote_12_34) (dec 99 2))
      = dec (limitCents 1234) 2
   /\ limitCents 1234 = 1221
   /\ fst (PlaceOptionLimitOrderWithTakeProfit (chain_broker []) (of_Z 2000)
             (bytes "QQQ250117C00400000") (Some quote_12_34) (of_Z 50))
      = [OrderSubmitted
           {| req_Symbol := bytes "QQQ250117C00400000";
              req_Qty := of_Z (contracts 200000 1234);
              req_LimitPrice := dec (limitCents 1234) 2;
              req_TakeProfit := dec (takeProfitCents (limitCents 1234) 50) 2 |}]
   /\ contracts 200000 1234 = 1
   /\ takeProfitCents (limitCents 1234) 50 = 1831)
  /\ (fst (PlaceOptionLimitOrderWithTakeProfit (chain_broker []) (of_Z 2000)
             (bytes "QQQ250117C00400000") (Some (quote_cents 1690 1700))
             (of_Z 50))
      = [OrderSubmitted
           {| req_Symbol := bytes "QQQ250117C00400000";
              req_Qty := of_Z 1;
              req_LimitPrice := dec 1682 2;
              req_TakeProfit := dec 2523 2 |}]
      /\ limitCents 1700 = 1683
      /\ dec 1682 2 <> dec (limitCents 1700) 2)
  /\ (fst (PlaceOptionLimitOrderWithTakeProfit (chain_broker []) (of_Z 2000)
             (bytes "QQQ250117C00400000") (Some (quote_cents 1220 1233))
             (of_Z 50))
      = [OrderSubmitted
           {| req_Symbol := bytes "QQQ250117C00400000";
              req_Qty := of_Z 1;
              req_LimitPrice := dec (limitCents 1233) 2;
              req_TakeProfit := dec 1829 2 |}]
      /\ limitCents 1233 = 1220
      /\ takeProfitCents 1220 50 = 1830
      /\ dec 1829 2 <> dec (takeProfitCents 1220 50) 2)
  /\ (PlaceOptionLimitOrderWithTakeProfit (chain_broker []) (of_Z 1610)
        (bytes "QQQ250117C00400000") (Some (quote_cents 1600 1610)) (of_Z 50)
      = ([], Err QuantityNotPositive)
      /\ contracts 161000 1610 = 1)
  /\ (forall x, truncate2 x = dec (to_int (mul x (of_Z 100))) 2)
  /\ filter (fun askCents =>
               negb (to_int (mul (mul (dec askCents 2) (dec 99 2)) (of_Z 100))
                     =? limitCents askCents))
            (amounts_upto 5000)
     = short_asks
  /\ forallb (fun askCents =>
                to_int (mul (mul (dec askCents 2) (dec 99 2)) (of_Z 100))
                =? limitCents askCents - 1)
             short_asks
     = true.
Proof.
  repeat match goal with |- _ /\ _ => split end;
    lazymatch goal with
    | |- forall x, _ => intros x; reflexivity
    | |- _ <> _ => vm_compute; discriminate
    | |- _ => vm_compute; reflexivity
    end.
Qed.

(** ** Position sizer *)

(** C3. With the option positions and the buying power fetched, the sizer
    fails with CapacityExceeded exactly when maxPositions - openCount <= 0
    and otherwise returns buyingPower / (maxPositions - openCount), the
    float64 quotient.  The difference is taken in Go's [int]: the statement
    is for caps whose difference with the count does not wrap, as is the
    case of every strategy the constructor makes (its cap is positive).
    With a cap of 5,
    five open positions fail; three open positions and a buying power of
    1000 give 500. *)
Theorem calculateInvestmentSize_even_split :
  (forall (s : TwoPercentDown) (n : nat) (openOptions : list Position)
          (buyingPower : float64),
      GetOptionsPositions (broker s) n ticker = Ok openOptions ->
      GetNonMarginableBuyingPower (broker s) = Ok buyingPower ->
      in_int64 (maxActiveOptions s - len openOptions) = true ->
      calculateInvestmentSize s n =
      if maxActiveOptions s - len openOptions <=? 0 then Err NoRemainingSpots
      else Ok (div buyingPower (of_Z (maxActiveOptions s - len openOptions))))
  /\ kind NoRemainingSpots = CapacityExceeded
  /\ (forall (broker : Client) (envMax : option Z)
             (openOptions : list Position),
        (forall parsed, envMax = Some parsed -> in_int64 parsed = true) ->
        len openOptions <= max_int64 ->
        0 < maxActiveOptions (NewTwoPercentDown broker envMax)
        /\ in_int64 (maxActiveOptions (NewTwoPercentDown broker envMax)
                     - len openOptions) = true)
  /\ calculateInvestmentSize (sizing 5 five_open (of_Z 1000)) 0
     = Err NoRemainingSpots
  /\ GetOptionsPositions (broker (sizing 5 three_open (of_Z 1000))) 0 ticker
     = Ok [position "QQQ250117C00400000"; position "QQQ250117C00410000";
           position "QQQ260116C00420000"]
  /\ calculateInvestmentSize (sizing 5 three_open (of_Z 1000)) 0
     = Ok (of_Z 500).
Proof.
  split; [exact calculateInvestmentSize_spec|].
  split; [reflexivity|]. split.
  - intros b envMax openOptions Hr Hl.
    assert (Hc : 0 < maxActiveOptions (NewTwoPercentDown b envMax) <= max_int64).
    { destruct envMax as [parsed|]; simpl; [|unfold max_int64; lia].
      specialize (Hr parsed eq_refl). unfold in_int64 in Hr.
      apply andb_true_iff in Hr. destruct Hr as [_ Hr]. apply Z.leb_le in Hr.
      destruct (Z.ltb_spec 0 parsed); unfold max_int64 in *; lia. }
    split; [apply Hc|].
    unfold in_int64. apply andb_true_iff. unfold len in *.
    split; apply Z.leb_le; unfold min_int64, max_int64 in *; lia.
  - repeat split; vm_compute; reflexivity.
Qed.

Lemma calculateInvestmentSize_even_split_witness :
  calculateInvestmentSize (sizing 5 three_open (of_Z 1000)) 0 =
  if 5 - 3 <=? 0 then Err NoRemainingSpots
  else Ok (div (of_Z 1000) (of_Z (5 - 3))).
Proof.
  apply (proj1 calculateInvestmentSize_even_split
           (sizing 5 three_open (of_Z 1000)) 0%nat
           [position "QQQ250117C00400000"; position "QQQ250117C00410000";
            position "QQQ260116C00420000"] (of_Z 1000)).
  - vm_compute. reflexivity.
  - reflexivity.
  - reflexivity.
Defined.

(** C9 as stated fails: with a cap of 5, three open positions and a buying
    power of -100 the sizer returns the budget -50, not a failure. *)
Lemma calculateInvestmentSize_negative_budget :
  Float64.ltb (of_Z (-100)) Float64.zero = true
  /\ calculateInvestmentSize (sizing 5 three_open (of_Z (-100))) 0
     = Ok (of_Z (-50))
  /\ Float64.ltb (of_Z (-50)) Float64.zero = true.
Proof.
  repeat split; vm_compute; reflexivity.
Qed.

(** C9, as the code has it.  The sizer checks neither the buying power
    nor the cap: none of its failures is an InvalidInput (each is a
    CapacityExceeded or an upstream failure); a cap of 0 or less is the
    CapacityExceeded failure; and with a spot left it returns
    buyingPower / remainingSpots whatever the sign of the buying power. *)
Theorem calculateInvestmentSize_no_input_check :
  forall (s : TwoPercentDown) (n : nat),
    (forall e, calculateInvestmentSize s n = Err e ->
               kind e = CapacityExceeded \/ kind e = UpstreamFailure)
    /\ (forall openOptions,
          GetOptionsPositions (broker s) n ticker = Ok openOptions ->
          in_int64 (maxActiveOptions s - len openOptions) = true ->
          maxActiveOptions s <= 0 ->
          calculateInvestmentSize s n = Err NoRemainingSpots)
    /\ (forall openOptions buyingPower,
          GetOptionsPositions (broker s) n ticker = Ok openOptions ->
          GetNonMarginableBuyingPower (broker s) = Ok buyingPower ->
          in_int64 (maxActiveOptions s - len openOptions) = true ->
          0 < maxActiveOptions s - len openOptions ->
          calculateInvestmentSize s n =
          Ok (div buyingPower (of_Z (maxActiveOptions s - len openOptions)))).
Proof.
  intros s n. split; [|split].
  - intros e. apply calculateInvestmentSize_error.
  - intros openOptions Hp Hr Hm. unfold calculateInvestmentSize.
    rewrite Hp. cbn [wrap bind]. rewrite (wrap_int64_id _ Hr).
    replace (maxActiveOptions s - len openOptions <=? 0) with true; [reflexivity|].
    symmetry. apply Z.leb_le. unfold len. lia.
  - intros openOptions buyingPower Hp Hb Hr Hpos.
    rewrite (calculateInvestmentSize_spec s n openOptions buyingPower Hp Hb Hr).
    replace (maxActiveOptions s - len openOptions <=? 0) with false; [reflexivity|].
    symmetry. apply Z.leb_gt. exact Hpos.
Qed.

Lemma calculateInvestmentSize_no_input_check_witness :
  calculateInvestmentSize (sizing 0 three_open (of_Z (-100))) 0
  = Err NoRemainingSpots.
Proof.
  apply (proj1 (proj2 (calculateInvestmentSize_no_input_check
                         (sizing 0 three_open (of_Z (-100))) 0%nat))
           [position "QQQ250117C00400000"; position "QQQ250117C00410000";
            position "QQQ260116C00420000"]).
  - vm_compute. reflexivity.
  - reflexivity.
  - simpl. lia.
Defined.

(** ** Strategy orchestrator *)


(** C8 as stated fails: a gap down with no contract on offer ends in
    NoMatchingContract; the run reports it through the Notifier and sends
    no order, but returns the failure as an error, not nil. *)
Lemma Run_no_matching_contract_returns_error :
  Run insertion_sorter no_chain
  = ([Notification Normal FailureType],
     Returns (Some (CallLeapsFailed NoLeapsFound)))
  /\ kind (CallLeapsFailed NoLeapsFound) = NoMatchingContract.
Proof.
  split; vm_compute; reflexivity.
Qed.

(** C8, as the code has it.  On a gap down with the positions fetched: a
    run stopped by the position cap sends the Skipping notification, no
    order, and returns nil; a run whose selector fails (NoMatchingContract
    included) or whose sizer fails (its CapacityExceeded included) sends
    the Failure notification, no order, and returns that failure as an
    error; a run whose planner fails returns the failure as an error, and
    has sent no order when the failure is InsufficientBudget. *)
Theorem Run_business_outcomes :
  forall (S : SliceSorter) (s : TwoPercentDown) (openOptions : list Position),
    gap_triggered s ->
    GetOptionsPositions (broker s) 0 ticker = Ok openOptions ->
    (maxActiveOptions s <= len openOptions ->
     Run S s = ([Notification Normal SkippingType], Returns None))
    /\ (len openOptions < maxActiveOptions s ->
        (forall e,
            GetCallLeapsByDelta S (broker s) ticker (dec 60 2) = Err e ->
            Run S s = ([Notification Normal FailureType],
                       Returns (Some (CallLeapsFailed e))))
        /\ (forall optionSymbol optionSnapshot,
               GetCallLeapsByDelta S (broker s) ticker (dec 60 2)
               = Ok (optionSymbol, optionSnapshot) ->
               (forall e,
                   calculateInvestmentSize s 1 = Err e ->
                   Run S s = ([Notification Normal FailureType],
                              Returns (Some (InvestmentSizeFailed e))))
               /\ (forall investmentSize events e,
                      calculateInvestmentSize s 1 = Ok investmentSize ->
                      PlaceOptionLimitOrderWithTakeProfit (broker s)
                        investmentSize optionSymbol
                        (LatestQuote optionSnapshot) (of_Z 50)
                      = (events, Err e) ->
                      Run S s = (events, Returns (Some (PlaceOrderFailed e)))
                      /\ (kind e = InsufficientBudget -> events = [])))).
Proof.
  intros S s openOptions Hg Hp.
  rewrite (Run_gapDown S s Hg).
  unfold returned, gapDown. rewrite Hp. split.
  - intros H. replace (maxActiveOptions s <=? len openOptions) with true
      by (symmetry; apply Z.leb_le, H). reflexivity.
  - intros H. replace (maxActiveOptions s <=? len openOptions) with false
      by (symmetry; apply Z.leb_gt, H). split.
    + intros e ->. reflexivity.
    + intros sym snap ->. split.
      * intros e ->. reflexivity.
      * intros size events e -> Hpl. rewrite Hpl. split; [reflexivity|].
        intros Hk.
        destruct (PlaceOrder_events _ _ _ _ _ _ _ Hpl)
          as [[-> _]|(req & _ & [(o & Ho)|(e' & He & Hk')])]; [reflexivity|discriminate Ho|].
        inversion He; subst e'. rewrite Hk in Hk'. discriminate Hk'.
Qed.

Lemma Run_business_outcomes_witness :
  Run insertion_sorter (sizing 5 five_open (of_Z 1000))
  = ([Notification Normal SkippingType], Returns None).
Proof.
  apply (proj1 (Run_business_outcomes insertion_sorter
                  (sizing 5 five_open (of_Z 1000))
                  [position "QQQ250117C00400000"; position "QQQ250117C00410000";
                   position "QQQ260116C00420000"; position "QQQ260116C00430000";
                   position "QQQ260116C00440000"]
                  (ex_intro _ (of_Z 100)
                     (ex_intro _ (of_Z 97) (conj eq_refl (conj eq_refl eq_refl))))
                  eq_refl)).
  vm_compute. discriminate.
Defined.

(** * Further properties of the code *)

(** ** The option-symbol parser *)

Lemma digit_char_val (c : ascii) : is_digit c = true -> digit_char (digit_val c) = c.
Proof.
  unfold is_digit, digit_char, digit_val, byte_code. intros H.
  apply andb_true_iff in H. destruct H as [H1 H2].
  apply Z.leb_le in H1. apply Z.leb_le in H2.
  replace (48 + (Z.of_N (N_of_ascii c) - 48)) with (Z.of_N (N_of_ascii c)) by lia.
  rewrite N2Z.id. apply ascii_N_embedding.
Qed.

Lemma digit_val_range (c : ascii) : is_digit c = true -> 0 <= digit_val c < 10.
Proof.
  unfold is_digit, digit_val. intros H.
  apply andb_true_iff in H. destruct H as [H1 H2].
  apply Z.leb_le in H1. apply Z.leb_le in H2. lia.
Qed.

Lemma pad2_num2 (a b : ascii) :
  is_digit a = true -> is_digit b = true -> pad 2 (time.num2 a b) = [a; b].
Proof.
  intros Ha Hb. rewrite pad2. unfold time.num2.
  pose proof (digit_val_range a Ha). pose proof (digit_val_range b Hb).
  replace ((digit_val a * 10 + digit_val b) / 10 mod 10) with (digit_val a).
  - replace ((digit_val a * 10 + digit_val b) mod 10) with (digit_val b).
    + rewrite !digit_char_val by assumption. reflexivity.
    + rewrite Z.add_comm, Z.mod_add by lia. symmetry. apply Z.mod_small. lia.
  - rewrite Z.add_comm, Z.div_add by lia. rewrite (Z.div_small (digit_val b)) by lia.
    symmetry. apply Z.mod_small. lia.
Qed.

(** What [time.Parse] accepts of the date the parser rebuilds. *)
Lemma Parse_20 (D : list ascii) (t : time.Time) :
  length D = 6%nat ->
  time.Parse (bytes "20" ++ upto 2 D ++ bytes "-" ++ upto 2 (from 2 D)
              ++ bytes "-" ++ upto 2 (from 4 D)) = Some t ->
  valid_date t
  /\ D = pad 2 (time.year t mod 100) ++ pad 2 (time.month t) ++ pad 2 (time.day t).
Proof.
  intros HD.
  destruct D as [|y3 [|y4 [|m1 [|m2 [|d1 [|d2 [|? ?]]]]]]]; try discriminate HD.
  cbn [bytes list_ascii_of_string upto from firstn skipn app time.Parse].
  destruct (is_digit y3) eqn:E1; [|rewrite ?andb_false_r; discriminate].
  destruct (is_digit y4) eqn:E2; [|rewrite ?andb_false_r; discriminate].
  destruct (is_digit m1) eqn:E3; [|rewrite ?andb_false_r; discriminate].
  destruct (is_digit m2) eqn:E4; [|rewrite ?andb_false_r; discriminate].
  destruct (is_digit d1) eqn:E5; [|rewrite ?andb_false_r; discriminate].
  destruct (is_digit d2) eqn:E6; [|rewrite ?andb_false_r; discriminate].
  replace (is_digit "2" && is_digit "0" && true && true && ("-" =? "-")%char
           && true && true && ("-" =? "-")%char && true && true)%bool with true
    by reflexivity.
  pose proof (digit_val_range _ E1) as R1. pose proof (digit_val_range _ E2) as R2.
  replace (time.num2 "2" "0") with 20 by reflexivity.
  set (yy := time.num2 y3 y4). set (m := time.num2 m1 m2). set (d := time.num2 d1 d2).
  assert (Hyy : 0 <= yy < 100) by (unfold yy, time.num2; lia).
  destruct ((m <=? 0) || (12 <? m))%bool eqn:Em; [discriminate|].
    remember (20 * 100 + yy) as y eqn:Hy.
  destruct ((d <? 1) || (time.daysIn m y <? d))%bool eqn:Ed; [discriminate|].
  intros Ht. injection Ht as <-.
  apply orb_false_iff in Em. destruct Em as [Em1 Em2].
  apply Z.leb_gt in Em1. apply Z.ltb_ge in Em2.
  apply orb_false_iff in Ed. destruct Ed as [Ed1 Ed2].
  apply Z.ltb_ge in Ed1. apply Z.ltb_ge in Ed2.
  split.
  - unfold valid_date. cbn [time.year time.month time.day]. lia.
  - cbn [time.year time.month time.day].
    replace (y mod 100) with yy
      by (rewrite Hy, Z.add_comm, Z.mod_add by lia; symmetry; apply Z.mod_small; lia).
    unfold yy, m, d. rewrite !pad2_num2 by assumption. reflexivity.
Qed.

Lemma split_tail (n : nat) (s : list ascii) :
  (n <= length s)%nat ->
  s = upto (length s - n) s ++ from (length s - n) s
  /\ length (from (length s - n) s) = n.
Proof.
  intros H. unfold upto, from. split.
  - symmetry. apply firstn_skipn.
  - rewrite length_skipn. lia.
Qed.

(** X1. A symbol the parser accepts is an underlying, six date digits, C
    or P, and eight bytes that ParseFloat reads; the option returned holds
    these parts, its date is a calendar date of 2000 to 2099, and writing
    the date back in two-digit fields gives the six digits of the symbol. *)
Theorem ParseOptionTicker_success_shape :
  forall (symbol : list ascii) (o : Option),
    ParseOptionTicker symbol = Ok o ->
    exists (K : list ascii) (ty : ascii) (strikeFloat : float64),
      symbol = Underlying o
               ++ pad 2 (time.year (Expiry o) mod 100)
               ++ pad 2 (time.month (Expiry o)) ++ pad 2 (time.day (Expiry o))
               ++ [ty] ++ K
      /\ length K = 8%nat
      /\ (ty = "C"%char \/ ty = "P"%char)
      /\ Type_ o = [ty]
      /\ strconv.ParseFloat K = Some strikeFloat
      /\ Strike o = div strikeFloat (of_Z 1000)
      /\ Ticker o = symbol
      /\ valid_date (Expiry o).
Proof.
  intros symbol o H.
  assert (Hlen : (15 <= length symbol)%nat).
  { destruct (Nat.lt_ge_cases (length symbol) 15) as [Hs|Hs]; [|exact Hs].
    destruct (ParseOptionTicker_short symbol Hs) as [e He].
    rewrite He in H. discriminate H. }
  destruct (split_tail 15 symbol Hlen) as [Hsplit Htail].
  set (u := upto (length symbol - 15) symbol) in *.
  destruct (from (length symbol - 15) symbol)
    as [|c1 [|c2 [|c3 [|c4 [|c5 [|c6 [|ty [|k1 [|k2 [|k3 [|k4 [|k5 [|k6 [|k7 [|k8 [|? ?]]]]]]]]]]]]]]]];
    try discriminate Htail.
  set (D := [c1; c2; c3; c4; c5; c6]).
  set (K := [k1; k2; k3; k4; k5; k6; k7; k8]).
  assert (Hs : symbol = u ++ D ++ [ty] ++ K) by exact Hsplit.
  rewrite Hs in H. rewrite (ParseOptionTicker_fields u D K ty eq_refl eq_refl) in H.
  destruct (strconv.ParseFloat K) as [strikeFloat|] eqn:EK; [|discriminate H].
  destruct (negb (Ascii.eqb ty "C" || Ascii.eqb ty "P")) eqn:Ety; [discriminate H|].
  destruct (time.Parse _) as [t|] eqn:Et; [|discriminate H].
  injection H as <-. cbn [Underlying Expiry Type_ Strike Ticker].
  destruct (Parse_20 D t eq_refl Et) as [Hv HD].
  exists K, ty, strikeFloat.
  split; [|split; [reflexivity|split; [|split; [reflexivity|
    split; [exact EK|split; [reflexivity|split; [symmetry; exact Hs|exact Hv]]]]]]].
  - rewrite Hs at 1. rewrite HD. rewrite <- !app_assoc. reflexivity.
  - apply negb_false_iff, orb_true_iff in Ety.
    destruct Ety as [E|E]; apply Ascii.eqb_eq in E; auto.
Qed.

Lemma ParseOptionTicker_success_shape_witness :
  exists (K : list ascii) (ty : ascii) (strikeFloat : float64),
    bytes "QQQ240119C00420000" =
      bytes "QQQ" ++ pad 2 (2024 mod 100) ++ pad 2 1 ++ pad 2 19 ++ [ty] ++ K
    /\ length K = 8%nat
    /\ (ty = "C"%char \/ ty = "P"%char)
    /\ bytes "C" = [ty]
    /\ strconv.ParseFloat K = Some strikeFloat
    /\ dec 420000 3 = div strikeFloat (of_Z 1000)
    /\ bytes "QQQ240119C00420000" = bytes "QQQ240119C00420000"
    /\ valid_date {| time.year := 2024; time.month := 1; time.day := 19 |}.
Proof.
  exact (ParseOptionTicker_success_shape (bytes "QQQ240119C00420000")
           {| Underlying := bytes "QQQ";
              Expiry := {| time.year := 2024; time.month := 1; time.day := 19 |};
              Type_ := bytes "C"; Strike := dec 420000 3;
              Ticker := bytes "QQQ240119C00420000" |}
           ltac:(vm_compute; reflexivity)).
Defined.

(** ** The option positions of an underlying *)

Lemma ParseOptionTicker_underlying (symbol : list ascii) (o : Option) :
  ParseOptionTicker symbol = Ok o ->
  exists rest, symbol = Underlying o ++ rest /\ length rest = 15%nat.
Proof.
  intros H.
  assert (Hlen : (15 <= length symbol)%nat).
  { destruct (Nat.lt_ge_cases (length symbol) 15) as [Hs|Hs]; [|exact Hs].
    destruct (ParseOptionTicker_short symbol Hs) as [e He].
    rewrite He in H. discriminate H. }
  destruct (split_tail 15 symbol Hlen) as [Hsplit Htail].
  set (u := upto (length symbol - 15) symbol) in *.
  destruct (from (length symbol - 15) symbol)
    as [|c1 [|c2 [|c3 [|c4 [|c5 [|c6 [|ty [|k1 [|k2 [|k3 [|k4 [|k5 [|k6 [|k7 [|k8 [|? ?]]]]]]]]]]]]]]]];
    try discriminate Htail.
  assert (Hs : symbol = u ++ [c1; c2; c3; c4; c5; c6] ++ [ty]
                        ++ [k1; k2; k3; k4; k5; k6; k7; k8]) by exact Hsplit.
  rewrite Hs in H.
  rewrite (ParseOptionTicker_fields u [c1; c2; c3; c4; c5; c6]
             [k1; k2; k3; k4; k5; k6; k7; k8] ty eq_refl eq_refl) in H.
  destruct (strconv.ParseFloat _); [|discriminate H].
  destruct (negb _); [discriminate H|].
  destruct (time.Parse _); [|discriminate H].
  injection H as <-. cbn [Underlying].
  eexists. split; [exact Hs|reflexivity].
Qed.

(** X2. [GetOptionsPositions] refuses an empty ticker before asking the
    broker and hands on a failure of the positions request, wrapped twice.
    Of the positions fetched it keeps, in their order, exactly those whose
    symbol parses with the ticker as underlying: an encoded option is kept
    if and only if it is held and its underlying is the ticker, and every
    position kept has the ticker followed by 15 bytes as its symbol, so a
    share position in the ticker itself is not counted. *)
Theorem GetOptionsPositions_keeps_options_on_ticker :
  forall (c : Client) (n : nat) (underlyingTicker : list ascii),
    (underlyingTicker = [] ->
     GetOptionsPositions c n underlyingTicker = Err UnderlyingEmpty)
    /\ (underlyingTicker <> [] ->
        forall msg, api_GetPositions c n = Fault msg ->
        GetOptionsPositions c n underlyingTicker
        = Err (GetAllPositionsFailed (GetPositionsFailed (ApiError msg))))
    /\ (underlyingTicker <> [] ->
        forall allPositions, api_GetPositions c n = Reply allPositions ->
        exists kept,
          GetOptionsPositions c n underlyingTicker = Ok kept
          /\ (forall underlying expiry type strike1000,
                 valid_date expiry ->
                 type = "C"%char \/ type = "P"%char ->
                 0 <= strike1000 < 10 ^ 8 ->
                 (In {| Symbol := encode underlying expiry type strike1000 |} kept
                  <-> In {| Symbol := encode underlying expiry type strike1000 |}
                         allPositions
                      /\ underlying = underlyingTicker))
          /\ (forall p, In p kept ->
                 In p allPositions
                 /\ exists rest, Symbol p = underlyingTicker ++ rest
                                 /\ length rest = 15%nat)
          /\ ~ In {| Symbol := underlyingTicker |} kept
          /\ len kept <= len allPositions).
Proof.
  intros c n t. split; [|split].
  - intros ->. reflexivity.
  - intros Ht msg Hf. unfold GetOptionsPositions, GetAllPositions.
    rewrite (proj2 (bytes_eqb_neq t []) Ht), Hf. reflexivity.
  - intros Ht allPositions Hr. unfold GetOptionsPositions, GetAllPositions.
    rewrite (proj2 (bytes_eqb_neq t []) Ht), Hr. cbn [call wrap bind].
    eexists. split; [reflexivity|].
    assert (Hkept : forall p,
      In p (filter (fun position =>
                      match ParseOptionTicker (Symbol position) with
                      | Ok parsedOption => bytes_eqb (Underlying parsedOption) t
                      | Err _ => false
                      end) allPositions) ->
      In p allPositions
      /\ exists rest, Symbol p = t ++ rest /\ length rest = 15%nat).
    { intros p Hp. apply filter_In in Hp. destruct Hp as [Hin Hp].
      split; [exact Hin|].
      destruct (ParseOptionTicker (Symbol p)) as [o|] eqn:Eo; [|discriminate Hp].
      apply bytes_eqb_eq in Hp. subst t.
      exact (ParseOptionTicker_underlying _ _ Eo). }
    split; [|split; [exact Hkept|split]].
    + intros u e ty k Hv Hty Hk. rewrite filter_In. cbn [Symbol].
      rewrite (parse_encode u e ty k Hv Hty Hk). cbn [Underlying].
      rewrite bytes_eqb_eq. reflexivity.
    + intros Hin. destruct (Hkept _ Hin) as [_ (rest & Hs & Hl)].
      cbn [Symbol] in Hs. apply (f_equal (@length ascii)) in Hs.
      rewrite length_app in Hs. lia.
    + unfold len. apply inj_le. apply filter_length_le.
Qed.

Lemma GetOptionsPositions_keeps_options_on_ticker_witness :
  exists kept,
    GetOptionsPositions (broker_of (of_Z 100) (of_Z 97) three_open (of_Z 1000) [])
      0 ticker = Ok kept
    /\ (forall underlying expiry type strike1000,
           valid_date expiry ->
           type = "C"%char \/ type = "P"%char ->
           0 <= strike1000 < 10 ^ 8 ->
           (In {| Symbol := encode underlying expiry type strike1000 |} kept
            <-> In {| Symbol := encode underlying expiry type strike1000 |}
                   three_open
                /\ underlying = ticker))
    /\ (forall p, In p kept ->
           In p three_open
           /\ exists rest, Symbol p = ticker ++ rest /\ length rest = 15%nat)
    /\ ~ In {| Symbol := ticker |} kept
    /\ len kept <= len three_open.
Proof.
  apply (proj2 (proj2 (GetOptionsPositions_keeps_options_on_ticker
                         (broker_of (of_Z 100) (of_Z 97) three_open (of_Z 1000) [])
                         0%nat ticker))).
  - discriminate.
  - reflexivity.
Defined.

(** ** The selector's failures *)

Lemma validOptions_nil_iff (minDelta : float64)
    (chain : list (list ascii * OptionSnapshot)) :
  validOptions minDelta chain = [] <->
  forall sym snap d t, ~ qualifying minDelta chain sym snap d t.
Proof.
  split.
  - intros Hv sym snap d t Hq.
    pose (c := {| symbol := sym; snapshot := snap; delta := d; expiry := t |}).
    assert (Hin : In c (validOptions minDelta chain))
      by (apply validOptions_In; exact Hq).
    rewrite Hv in Hin. destruct Hin.
  - intros Hq. destruct (validOptions minDelta chain) as [|c l] eqn:Ev; [reflexivity|].
    exfalso. apply (Hq (symbol c) (snapshot c) (delta c) (expiry c)).
    apply validOptions_In. rewrite Ev. left. reflexivity.
Qed.

(** X3. The failures of [GetCallLeapsByDelta], all of them and in the
    order the guards come: an empty ticker; a delta floor at or below 0; a
    failed option-chain request; an empty chain; a chain none of whose
    entries has greeks, a delta at or above the floor and a symbol that
    parses.  In every other case it returns an entry. *)
Theorem GetCallLeapsByDelta_failure_iff :
  forall (S : SliceSorter) (m : Client) (underlyingTicker : list ascii)
         (minDelta : float64) (e : error),
    GetCallLeapsByDelta S m underlyingTicker minDelta = Err e <->
    (underlyingTicker = [] /\ e = UnderlyingEmpty)
    \/ (underlyingTicker <> [] /\ Float64.leb minDelta Float64.zero = true
        /\ e = MinDeltaNotPositive)
    \/ (underlyingTicker <> [] /\ Float64.leb minDelta Float64.zero = false
        /\ ((exists msg, api_GetOptionChain m underlyingTicker = Fault msg
                         /\ e = GetOptionChainFailed (ApiError msg))
            \/ (api_GetOptionChain m underlyingTicker = Reply []
                /\ e = NoLeapsFound)
            \/ (exists chain,
                   api_GetOptionChain m underlyingTicker = Reply chain
                   /\ chain <> []
                   /\ (forall sym snap d t,
                          ~ qualifying minDelta chain sym snap d t)
                   /\ e = NoLeapsWithDelta))).
Proof.
  intros S m t minDelta e.
  destruct (list_eq_dec ascii_dec t []) as [Et|Et].
  { subst t. cbn. split.
    - intros H. injection H as <-. left. auto.
    - intros [[_ ->]|[[H _]|[H _]]]; [reflexivity|destruct H; reflexivity ..]. }
  destruct (Float64.leb minDelta Float64.zero) eqn:Ed.
  { unfold GetCallLeapsByDelta. rewrite (proj2 (bytes_eqb_neq t []) Et), Ed. split.
    - intros H. injection H as <-. right. left. auto.
    - intros [[H _]|[(_ & _ & ->)|(_ & H & _)]];
        [contradiction|reflexivity|discriminate H]. }
  destruct (api_GetOptionChain m t) as [chain|msg] eqn:Ec.
  - destruct (GetCallLeapsByDelta_cases S m t minDelta chain Et Ed Ec)
      as [[Hv Hr]|(sym & snap & Hr & _)]; rewrite Hr.
    + split.
      * intros H. injection H as <-. right. right. split; [exact Et|]. split; [reflexivity|].
        right. destruct chain as [|x chain'].
        -- left. auto.
        -- right. exists (x :: chain'). split; [reflexivity|]. split; [discriminate|].
           split; [apply validOptions_nil_iff; exact Hv|reflexivity].
      * intros [[H _]|[(_ & H & _)|(_ & _ & [(msg & H & _)|[[H ->]|(chain' & H & Hne & _ & ->)]])]];
          try contradiction; try discriminate H.
        -- injection H as ->. reflexivity.
        -- injection H as ->. destruct chain'; [contradiction|reflexivity].
    + split; [discriminate|].
      intros [[H _]|[(_ & H & _)|(_ & _ & [(msg & H & _)|[[H _]|(chain' & H & _ & Hq & _)]])]];
        try contradiction; try discriminate H; exfalso.
      * injection H as ->.
        assert (Hc : GetCallLeapsByDelta S m t minDelta = Err NoLeapsFound).
        { unfold GetCallLeapsByDelta.
          rewrite (proj2 (bytes_eqb_neq t []) Et), Ed, Ec. reflexivity. }
        rewrite Hr in Hc. discriminate Hc.
      * injection H as <-. apply validOptions_nil_iff in Hq.
        assert (Hc : exists e', GetCallLeapsByDelta S m t minDelta = Err e').
        { unfold GetCallLeapsByDelta.
          rewrite (proj2 (bytes_eqb_neq t []) Et), Ed, Ec. cbn [call wrap bind].
          rewrite Hq. destruct (length chain =? 0)%nat; eexists; reflexivity. }
        destruct Hc as [e' Hc]. rewrite Hr in Hc. discriminate Hc.
  - assert (Hr : GetCallLeapsByDelta S m t minDelta
                 = Err (GetOptionChainFailed (ApiError msg))).
    { unfold GetCallLeapsByDelta.
      rewrite (proj2 (bytes_eqb_neq t []) Et), Ed, Ec. reflexivity. }
    rewrite Hr. split.
    + intros H. injection H as <-. right. right. split; [exact Et|]. split; [reflexivity|].
      left. exists msg. auto.
    + intros [[H _]|[(_ & H & _)|(_ & _ & [(msg' & H & ->)|[[H _]|(chain' & H & _)]])]];
        try contradiction; try discriminate H.
      injection H as ->. reflexivity.
Qed.

Lemma GetCallLeapsByDelta_failure_iff_witness :
  GetCallLeapsByDelta insertion_sorter (chain_broker example_chain) ticker
    (of_Z 0) = Err MinDeltaNotPositive.
Proof.
  apply (proj2 (GetCallLeapsByDelta_failure_iff insertion_sorter
                  (chain_broker example_chain) ticker (of_Z 0)
                  MinDeltaNotPositive)).
  right. left. split; [discriminate|]. split; reflexivity.
Defined.

Lemma geb_nan (d : float64) : geb d S754_nan = false.
Proof. destruct d; reflexivity. Qed.

Lemma validOptions_nan (chain : list (list ascii * OptionSnapshot)) :
  validOptions S754_nan chain = [].
Proof.
  induction chain as [|[sym snap] rest IH]; [reflexivity|].
  cbn [validOptions]. destruct (Greeks snap); [|exact IH].
  rewrite geb_nan. exact IH.
Qed.

(** X4. A NaN delta floor passes the guard on the floor ([NaN <= 0] is
    false), and then no entry reaches it: on any chain the selector fails,
    with the no-contract failure and not with the invalid-input one. *)
Theorem GetCallLeapsByDelta_nan_floor :
  forall (S : SliceSorter) (m : Client) (underlyingTicker : list ascii)
         (chain : list (list ascii * OptionSnapshot)),
    underlyingTicker <> [] ->
    api_GetOptionChain m underlyingTicker = Reply chain ->
    GetCallLeapsByDelta S m underlyingTicker S754_nan
    = Err (match chain with [] => NoLeapsFound | _ => NoLeapsWithDelta end).
Proof.
  intros S m t chain Ht Hc. unfold GetCallLeapsByDelta.
  rewrite (proj2 (bytes_eqb_neq t []) Ht), Hc.
  change (Float64.leb S754_nan Float64.zero) with false. cbn [call wrap bind].
  rewrite validOptions_nan. destruct chain; reflexivity.
Qed.

Lemma GetCallLeapsByDelta_nan_floor_witness :
  GetCallLeapsByDelta insertion_sorter (chain_broker example_chain) ticker S754_nan
  = Err NoLeapsWithDelta.
Proof.
  apply (GetCallLeapsByDelta_nan_floor insertion_sorter
           (chain_broker example_chain) ticker example_chain).
  - discriminate.
  - reflexivity.
Defined.

Lemma validOptions_app (minDelta : float64)
    (a b : list (list ascii * OptionSnapshot)) :
  validOptions minDelta (a ++ b)
  = validOptions minDelta a ++ validOptions minDelta b.
Proof.
  induction a as [|[sym snap] a IH]; [reflexivity|].
  cbn [app validOptions]. destruct (Greeks snap) as [g|]; [|exact IH].
  destruct (geb (Delta g) minDelta); [|exact IH].
  destruct (ParseOptionTicker sym); [|exact IH].
  rewrite IH. reflexivity.
Qed.

(** X5. An entry of the chain without greeks, with a delta below the
    floor (or NaN), or with a symbol that does not parse has no part in
    the choice: with other entries left in the chain, the selector returns
    the same with that entry as without it, wherever in the chain it
    stands. *)
Theorem GetCallLeapsByDelta_passes_over_unqualified :
  forall (S : SliceSorter) (m m' : Client) (underlyingTicker : list ascii)
         (minDelta : float64) (a b : list (list ascii * OptionSnapshot))
         (sym : list ascii) (snap : OptionSnapshot),
    api_GetOptionChain m underlyingTicker = Reply (a ++ (sym, snap) :: b) ->
    api_GetOptionChain m' underlyingTicker = Reply (a ++ b) ->
    a ++ b <> [] ->
    Greeks snap = None
    \/ (exists greeks, Greeks snap = Some greeks
                       /\ geb (Delta greeks) minDelta = false)
    \/ (exists e, ParseOptionTicker sym = Err e) ->
    GetCallLeapsByDelta S m underlyingTicker minDelta
    = GetCallLeapsByDelta S m' underlyingTicker minDelta.
Proof.
  intros S m m' t minDelta a b sym snap Hm Hm' Hne Hu.
  unfold GetCallLeapsByDelta. rewrite Hm, Hm'.
  destruct (bytes_eqb t []); [reflexivity|].
  destruct (Float64.leb minDelta Float64.zero); [reflexivity|].
  cbn [call wrap bind].
  replace (length (a ++ (sym, snap) :: b) =? 0)%nat with false
    by (rewrite length_app; cbn [length]; symmetry; apply Nat.eqb_neq; lia).
  replace (length (a ++ b) =? 0)%nat with false
    by (symmetry; apply Nat.eqb_neq; intros H;
        apply length_zero_iff_nil in H; contradiction).
  replace (validOptions minDelta (a ++ (sym, snap) :: b))
    with (validOptions minDelta (a ++ b)); [reflexivity|].
  rewrite !validOptions_app. f_equal. cbn [validOptions].
  destruct Hu as [H|[(g & H & Hg)|(e & H)]].
  - rewrite H. reflexivity.
  - rewrite H, Hg. reflexivity.
  - destruct (Greeks snap) as [g|]; [|reflexivity].
    destruct (geb (Delta g) minDelta); [|reflexivity].
    rewrite H. reflexivity.
Qed.

Lemma GetCallLeapsByDelta_passes_over_unqualified_witness :
  GetCallLeapsByDelta insertion_sorter
    (chain_broker ([entryA] ++ (bytes "QQQ", snapshot_of (dec 90 2))
                   :: [entryB; entryC])) ticker (dec 60 2)
  = GetCallLeapsByDelta insertion_sorter
      (chain_broker ([entryA] ++ [entryB; entryC])) ticker (dec 60 2).
Proof.
  apply (GetCallLeapsByDelta_passes_over_unqualified insertion_sorter
           (chain_broker ([entryA] ++ (bytes "QQQ", snapshot_of (dec 90 2))
                          :: [entryB; entryC]))
           (chain_broker ([entryA] ++ [entryB; entryC])) ticker (dec 60 2)
           [entryA] [entryB; entryC] (bytes "QQQ") (snapshot_of (dec 90 2))).
  - reflexivity.
  - reflexivity.
  - discriminate.
  - right. right. exists SymbolTooShort. reflexivity.
Defined.

(** ** The bracket order *)

Lemma to_int_range (f : float64) : in_int64 (to_int f) = true.
Proof.
  unfold to_int. destruct (Float64.trunc f) as [z|]; [|reflexivity].
  destruct (in_int64 z) eqn:E; [exact E|reflexivity].
Qed.

Lemma to_int_positive (f : float64) :
  0 < to_int f -> is_finite f = true /\ 1 <= to_int f <= max_int64.
Proof.
  intros H. pose proof (to_int_range f) as R. unfold in_int64 in R.
  apply andb_true_iff in R. destruct R as [_ R]. apply Z.leb_le in R.
  split; [|lia]. destruct f; try reflexivity; vm_compute in H; discriminate H.
Qed.

Lemma hundred_finite : exists m e, of_Z 100 = S754_finite false m e.
Proof. vm_compute. eauto. Qed.

(** A positive quantity needs a finite positive budget and a finite
    positive ask. *)
Lemma quantity_positive (investmentSize ask : float64) :
  Float64.leb investmentSize Float64.zero = false ->
  Float64.leb ask Float64.zero = false ->
  0 < to_int (div investmentSize (mul ask (of_Z 100))) ->
  is_finite investmentSize = true /\ Float64.ltb Float64.zero investmentSize = true
  /\ is_finite ask = true /\ Float64.ltb Float64.zero ask = true.
Proof.
  intros Hs Ha Hpos. destruct (to_int_positive _ Hpos) as [Hq _].
  destruct hundred_finite as (m100 & e100 & E100). rewrite E100 in Hq, Hpos.
  destruct investmentSize as [s|s| |s m e].
  - destruct s; cbv in Hs; discriminate Hs.
  - destruct s; [cbv in Hs; discriminate Hs|].
    destruct (mul ask (S754_finite false m100 e100)) as [?|?| |? ? ?];
      cbv in Hq; discriminate Hq.
  - destruct (mul ask (S754_finite false m100 e100)) as [?|?| |? ? ?];
      cbv in Hq; discriminate Hq.
  - destruct s; [cbv in Hs; discriminate Hs|].
    destruct ask as [sa|sa| |sa ma ea].
    + destruct sa; cbv in Ha; discriminate Ha.
    + destruct sa; [cbv in Ha; discriminate Ha|]. cbv in Hpos. discriminate Hpos.
    + cbv in Hq. discriminate Hq.
    + destruct sa; [cbv in Ha; discriminate Ha|]. repeat split; reflexivity.
Qed.

(** X6. An order goes to the broker only if the symbol is not empty, the
    quote is there, the budget and the ask are finite and positive, and
    neither the bid nor the take-profit percentage is at or below 0; it is
    then the only order of the call, for the symbol given, and its
    quantity is a whole number from 1 up to the largest [int].  A budget
    or an ask that is NaN or infinite never places an order: on the amd64
    build, where [int] of NaN, of an infinity or of a quotient beyond the
    range is the least [int], and so no positive quantity. *)
Theorem PlaceOptionLimitOrderWithTakeProfit_orders_only_when_valid :
  forall (m : Client) (investmentSize : float64) (optionSymbol : list ascii)
         (optionQuote : option OptionQuote) (takeProfitPercentage : float64)
         (req : PlaceOrderRequest),
    In (OrderSubmitted req)
       (fst (PlaceOptionLimitOrderWithTakeProfit m investmentSize optionSymbol
               optionQuote takeProfitPercentage)) ->
    fst (PlaceOptionLimitOrderWithTakeProfit m investmentSize optionSymbol
           optionQuote takeProfitPercentage) = [OrderSubmitted req]
    /\ optionSymbol <> [] /\ req_Symbol req = optionSymbol
    /\ (exists quote,
           optionQuote = Some quote
           /\ is_finite (AskPrice quote) = true
           /\ Float64.ltb Float64.zero (AskPrice quote) = true
           /\ Float64.leb (BidPrice quote) Float64.zero = false)
    /\ is_finite investmentSize = true
    /\ Float64.ltb Float64.zero investmentSize = true
    /\ Float64.leb takeProfitPercentage Float64.zero = false
    /\ (exists quantity,
           1 <= quantity <= max_int64 /\ req_Qty req = of_Z quantity).
Proof.
  intros m size sym quote tp req. unfold PlaceOptionLimitOrderWithTakeProfit.
  destruct (bytes_eqb sym []) eqn:Es; [intros []|].
  destruct quote as [q|]; [|intros []].
  destruct (Float64.leb size Float64.zero) eqn:Esz; [intros []|].
  destruct (Float64.leb tp Float64.zero) eqn:Etp; [intros []|].
  destruct (Float64.leb (BidPrice q) Float64.zero) eqn:Eb; [intros []|].
  destruct (Float64.leb (AskPrice q) Float64.zero) eqn:Ea; [intros []|].
  cbn [orb].
  destruct (to_int (div size (mul (AskPrice q) (of_Z 100))) <=? 0) eqn:Eq; [intros []|].
  apply Z.leb_gt in Eq. cbn [fst].
  intros [H|[]]. injection H as <-.
  destruct (quantity_positive size (AskPrice q) Esz Ea Eq) as (F1 & P1 & F2 & P2).
  split; [reflexivity|]. split; [apply bytes_eqb_neq; exact Es|].
  split; [reflexivity|]. split; [exists q; auto|].
  split; [exact F1|]. split; [exact P1|]. split; [reflexivity|].
  eexists. split; [|reflexivity]. apply (to_int_positive _ Eq).
Qed.

Lemma PlaceOptionLimitOrderWithTakeProfit_orders_only_when_valid_witness :
  fst (PlaceOptionLimitOrderWithTakeProfit (chain_broker []) (of_Z 2000)
         (bytes "QQQ250117C00400000") (Some quote_12_34) (of_Z 50))
  = [OrderSubmitted {| req_Symbol := bytes "QQQ250117C00400000";
                       req_Qty := of_Z 1; req_LimitPrice := dec 1221 2;
                       req_TakeProfit := dec 1831 2 |}]
  /\ bytes "QQQ250117C00400000" <> []
  /\ bytes "QQQ250117C00400000" = bytes "QQQ250117C00400000"
  /\ (exists quote,
         Some quote_12_34 = Some quote
         /\ is_finite (AskPrice quote) = true
         /\ Float64.ltb Float64.zero (AskPrice quote) = true
         /\ Float64.leb (BidPrice quote) Float64.zero = false)
  /\ is_finite (of_Z 2000) = true
  /\ Float64.ltb Float64.zero (of_Z 2000) = true
  /\ Float64.leb (of_Z 50) Float64.zero = false
  /\ (exists quantity, 1 <= quantity <= max_int64 /\ of_Z 1 = of_Z quantity).
Proof.
  apply (PlaceOptionLimitOrderWithTakeProfit_orders_only_when_valid
           (chain_broker []) (of_Z 2000) (bytes "QQQ250117C00400000")
           (Some quote_12_34) (of_Z 50)
           {| req_Symbol := bytes "QQQ250117C00400000";
              req_Qty := of_Z 1; req_LimitPrice := dec 1221 2;
              req_TakeProfit := dec 1831 2 |}).
  vm_compute. left. reflexivity.
Defined.

Lemma mul_nan_r (x : float64) : mul x S754_nan = S754_nan.
Proof. destruct x; reflexivity. Qed.

(** X7. A NaN take-profit percentage passes its guard ([NaN <= 0] is
    false).  Where a positive percentage places an order, NaN places the
    same order but for the take-profit price, which is [int(NaN)] over
    100: the least [int], -2^63, divided by 100. *)
Theorem PlaceOptionLimitOrderWithTakeProfit_nan_take_profit :
  forall (m : Client) (investmentSize : float64) (optionSymbol : list ascii)
         (optionQuote : option OptionQuote) (takeProfitPercentage : float64)
         (req : PlaceOrderRequest) (r : result Order),
    PlaceOptionLimitOrderWithTakeProfit m investmentSize optionSymbol
      optionQuote takeProfitPercentage = ([OrderSubmitted req], r) ->
    let req' := {| req_Symbol := req_Symbol req; req_Qty := req_Qty req;
                   req_LimitPrice := req_LimitPrice req;
                   req_TakeProfit := div (of_Z min_int64) (of_Z 100) |} in
    PlaceOptionLimitOrderWithTakeProfit m investmentSize optionSymbol
      optionQuote S754_nan
    = ([OrderSubmitted req'],
       wrap PlaceBracketOrderFailed (call (api_PlaceOrder m req'))).
Proof.
  intros m size sym quote tp req r. unfold PlaceOptionLimitOrderWithTakeProfit.
  destruct (bytes_eqb sym []); [discriminate|].
  destruct quote as [q|]; [|discriminate].
  destruct (Float64.leb size Float64.zero); [discriminate|].
  destruct (Float64.leb tp Float64.zero); [discriminate|].
  change (Float64.leb S754_nan Float64.zero) with false.
  destruct (Float64.leb (BidPrice q) Float64.zero || Float64.leb (AskPrice q) Float64.zero)%bool;
    [discriminate|].
  destruct (to_int (div size (mul (AskPrice q) (of_Z 100))) <=? 0); [discriminate|].
  intros H. injection H as <- _. cbn [req_Symbol req_Qty req_LimitPrice].
  replace (add (of_Z 1) (div S754_nan (of_Z 100))) with S754_nan
    by (vm_compute; reflexivity).
  rewrite mul_nan_r.
  replace (truncate2 S754_nan) with (div (of_Z min_int64) (of_Z 100))
    by (vm_compute; reflexivity).
  reflexivity.
Qed.

Lemma PlaceOptionLimitOrderWithTakeProfit_nan_take_profit_witness :
  PlaceOptionLimitOrderWithTakeProfit (chain_broker []) (of_Z 2000)
    (bytes "QQQ250117C00400000") (Some quote_12_34) S754_nan
  = ([OrderSubmitted {| req_Symbol := bytes "QQQ250117C00400000";
                        req_Qty := of_Z 1; req_LimitPrice := dec 1221 2;
                        req_TakeProfit := div (of_Z min_int64) (of_Z 100) |}],
     wrap PlaceBracketOrderFailed
       (call (api_PlaceOrder (chain_broker [])
                {| req_Symbol := bytes "QQQ250117C00400000";
                   req_Qty := of_Z 1; req_LimitPrice := dec 1221 2;
                   req_TakeProfit := div (of_Z min_int64) (of_Z 100) |}))).
Proof.
  apply (PlaceOptionLimitOrderWithTakeProfit_nan_take_profit (chain_broker [])
           (of_Z 2000) (bytes "QQQ250117C00400000") (Some quote_12_34) (of_Z 50)
           {| req_Symbol := bytes "QQQ250117C00400000";
              req_Qty := of_Z 1; req_LimitPrice := dec 1221 2;
              req_TakeProfit := dec 1831 2 |}
           (Ok {| ID := bytes "order-1" |})).
  vm_compute. reflexivity.
Defined.

(** ** The run of the strategy *)

(** The five ways [PlaceOptionLimitOrderWithTakeProfit] ends. *)
Lemma PlaceOrder_outcomes (m : Client) (investmentSize : float64)
    (optionSymbol : list ascii) (optionQuote : option OptionQuote)
    (takeProfitPercentage : float64) :
  let p := PlaceOptionLimitOrderWithTakeProfit m investmentSize optionSymbol
             optionQuote takeProfitPercentage in
  (exists e, p = ([], Err e) /\ kind e <> UpstreamFailure)
  \/ (exists req,
         fst p = [OrderSubmitted req]
         /\ req_Symbol req = optionSymbol
         /\ 0 < to_int (div investmentSize
                          (mul (match optionQuote with
                                | Some q => AskPrice q
                                | None => Float64.zero
                                end) (of_Z 100)))
         /\ req_Qty req = of_Z (to_int (div investmentSize
                          (mul (match optionQuote with
                                | Some q => AskPrice q
                                | None => Float64.zero
                                end) (of_Z 100))))
         /\ ((exists o, snd p = Ok o)
             \/ exists msg, snd p = Err (PlaceBracketOrderFailed (ApiError msg)))).
Proof.
  unfold PlaceOptionLimitOrderWithTakeProfit.
  destruct (bytes_eqb optionSymbol []);
    [left; eexists; split; [reflexivity|discriminate]|].
  destruct optionQuote as [q|];
    [|left; eexists; split; [reflexivity|discriminate]].
  destruct (Float64.leb investmentSize Float64.zero);
    [left; eexists; split; [reflexivity|discriminate]|].
  destruct (Float64.leb takeProfitPercentage Float64.zero);
    [left; eexists; split; [reflexivity|discriminate]|].
  destruct (Float64.leb (BidPrice q) Float64.zero || Float64.leb (AskPrice q) Float64.zero)%bool;
    [left; eexists; split; [reflexivity|discriminate]|].
  destruct (to_int (div investmentSize (mul (AskPrice q) (of_Z 100))) <=? 0) eqn:Eq;
    [left; eexists; split; [reflexivity|discriminate]|].
  apply Z.leb_gt in Eq.
  right. eexists. cbn [fst snd].
  split; [reflexivity|]. split; [reflexivity|]. split; [exact Eq|].
  split; [reflexivity|].
  destruct (api_PlaceOrder m _) as [o|msg]; [left|right]; eexists; reflexivity.
Qed.

(** The run panics exactly when the close was fetched and the quote
    request answered without an error and without a quote. *)
Lemma Run_panics_iff (S : SliceSorter) (s : TwoPercentDown) :
  snd (Run S s) = Panics <->
  (exists yesterdayClose,
      GetLastTradingDayClose (broker s) ticker = Ok yesterdayClose)
  /\ api_GetLatestQuote (broker s) ticker = Reply None.
Proof.
  unfold Run, GetLatestQuote.
  replace (bytes_eqb ticker []) with false by reflexivity.
  destruct (GetLastTradingDayClose (broker s) ticker) as [yc|e].
  2:{ cbn. split; [discriminate|]. intros [[c Hc] _]. discriminate Hc. }
  destruct (api_GetLatestQuote (broker s) ticker) as [[cp|]|msg].
  3:{ cbn. split; [discriminate|]. intros [_ H]. discriminate H. }
  2:{ cbn. split; [intros _; split; [eexists|]; reflexivity|reflexivity]. }
  destruct (Float64.leb (changePercent cp yc) (of_Z (-2)));
    cbn; (split; [discriminate|]); intros [_ H]; discriminate H.
Qed.

(** X8. What a run leaves behind, in every case one of seven: a Failure
    notification and an error that is not one of order placement; the
    Skipping notification and nil; the NoGapDown notification and nil;
    nothing at all and the error of an order refused before it was sent;
    one order sent, refused by the broker, the error returned and no
    notification; one order sent and then the OrderPlaced notification,
    and nil; nothing at all and a panic.  So a run sends at most one
    order and at most one notification, and the OrderPlaced notification
    only after the broker took the order.  The run panics exactly when
    the close was fetched and the quote request answered without an
    error and without a quote for the ticker. *)
Theorem Run_outcomes :
  forall (S : SliceSorter) (s : TwoPercentDown),
    ((exists e, Run S s = ([Notification Normal FailureType], Returns (Some e))
                /\ forall e', e <> PlaceOrderFailed e')
     \/ Run S s = ([Notification Normal SkippingType], Returns None)
     \/ Run S s = ([Notification Noisy NoGapDownType], Returns None)
     \/ (exists e, Run S s = ([], Returns (Some (PlaceOrderFailed e)))
                   /\ kind e <> UpstreamFailure)
     \/ (exists req msg,
            Run S s = ([OrderSubmitted req],
                       Returns (Some (PlaceOrderFailed
                                        (PlaceBracketOrderFailed
                                           (ApiError msg))))))
     \/ (exists req,
            Run S s = ([OrderSubmitted req;
                        Notification Normal OrderPlacedType],
                       Returns None))
     \/ Run S s = ([], Panics))
    /\ (snd (Run S s) = Panics <->
        (exists yesterdayClose,
            GetLastTradingDayClose (broker s) ticker = Ok yesterdayClose)
        /\ api_GetLatestQuote (broker s) ticker = Reply None).
Proof.
  intros S s. unfold Run, GetLatestQuote.
  replace (bytes_eqb ticker []) with false by reflexivity.
  destruct (GetLastTradingDayClose (broker s) ticker) as [yc|e].
  2:{ split; [left; eexists; split; [reflexivity|discriminate]|].
      cbn. split; [discriminate|]. intros [[c Hc] _]. discriminate Hc. }
  destruct (api_GetLatestQuote (broker s) ticker) as [[cp|]|msg].
  3:{ split; [left; eexists; split; [reflexivity|discriminate]|].
      cbn. split; [discriminate|]. intros [_ H]. discriminate H. }
  2:{ split; [do 6 right; reflexivity|].
      cbn. split; [intros _; split; [eexists|]; reflexivity|reflexivity]. }
  assert (Hn : forall p : list Event * option error,
             snd (returned p) = Panics <->
             (exists c : float64, @Ok float64 yc = Ok c)
             /\ @Reply (option float64) (Some cp) = Reply None).
  { intros p. cbn. split; [discriminate|]. intros [_ H]. discriminate H. }
  destruct (Float64.leb (changePercent cp yc) (of_Z (-2)));
    (split; [|apply Hn]); [|right; right; left; reflexivity].
  unfold returned, gapDown.
  destruct (GetOptionsPositions (broker s) 0 ticker) as [openOptions|e];
    [|left; eexists; split; [reflexivity|discriminate]].
  destruct (maxActiveOptions s <=? len openOptions); [right; left; reflexivity|].
  destruct (GetCallLeapsByDelta S (broker s) ticker (dec 60 2)) as [[sym snap]|e];
    [|left; eexists; split; [reflexivity|discriminate]].
  destruct (calculateInvestmentSize s 1) as [size|e];
    [|left; eexists; split; [reflexivity|discriminate]].
  pose proof (PlaceOrder_outcomes (broker s) size sym (LatestQuote snap) (of_Z 50)) as Hp.
  cbv zeta in Hp.
  destruct (PlaceOptionLimitOrderWithTakeProfit (broker s) size sym
              (LatestQuote snap) (of_Z 50)) as [events r].
  destruct Hp as [(e & Hp & Hk)|(req & Hev & _ & _ & _ & [(o & Ho)|(msg & Hm)])].
  - injection Hp as -> ->. right. right. right. left. eexists. split; [reflexivity|exact Hk].
  - cbn [fst snd] in Hev, Ho. subst events r.
    right. right. right. right. right. left. eexists. reflexivity.
  - cbn [fst snd] in Hev, Hm. subst events r.
    right. right. right. right. left. do 2 eexists. reflexivity.
Qed.

(** X9. An order is sent only on a gap down, with fewer option positions
    open than the cap: it is for the symbol the selector returned, it is
    the order the planner makes of the sizer's budget and that contract's
    quote, with a take-profit of 50 percent, and its quantity is at
    least 1. *)
Theorem Run_orders_only_after_every_check :
  forall (S : SliceSorter) (s : TwoPercentDown) (req : PlaceOrderRequest),
    In (OrderSubmitted req) (fst (Run S s)) ->
    gap_triggered s
    /\ (exists openOptions,
           GetOptionsPositions (broker s) 0 ticker = Ok openOptions
           /\ len openOptions < maxActiveOptions s)
    /\ (exists optionSnapshot investmentSize,
           GetCallLeapsByDelta S (broker s) ticker (dec 60 2)
           = Ok (req_Symbol req, optionSnapshot)
           /\ calculateInvestmentSize s 1 = Ok investmentSize
           /\ fst (PlaceOptionLimitOrderWithTakeProfit (broker s) investmentSize
                     (req_Symbol req) (LatestQuote optionSnapshot) (of_Z 50))
              = [OrderSubmitted req])
    /\ (exists quantity,
           1 <= quantity <= max_int64 /\ req_Qty req = of_Z quantity).
Proof.
  intros S s req. unfold Run.
  destruct (GetLastTradingDayClose (broker s) ticker) as [yc|e] eqn:Ey;
    [|intros [H|[]]; discriminate H].
  destruct (GetLatestQuote (broker s) ticker) as [[cp|e]|] eqn:Ecp;
    [|intros [H|[]]; discriminate H|intros []].
  destruct (Float64.leb (changePercent cp yc) (of_Z (-2))) eqn:Eg;
    [|intros [H|[]]; discriminate H].
  unfold returned, gapDown.
  destruct (GetOptionsPositions (broker s) 0 ticker) as [openOptions|e];
    [|intros [H|[]]; discriminate H].
  destruct (maxActiveOptions s <=? len openOptions) eqn:Ecap;
    [intros [H|[]]; discriminate H|].
  destruct (GetCallLeapsByDelta S (broker s) ticker (dec 60 2)) as [[sym snap]|e];
    [|intros [H|[]]; discriminate H].
  destruct (calculateInvestmentSize s 1) as [size|e];
    [|intros [H|[]]; discriminate H].
  pose proof (PlaceOrder_outcomes (broker s) size sym (LatestQuote snap) (of_Z 50)) as Hp.
  cbv zeta in Hp.
  destruct (PlaceOptionLimitOrderWithTakeProfit (broker s) size sym
              (LatestQuote snap) (of_Z 50)) as [events r] eqn:Ep.
  intros Hin.
  assert (Hev : In (OrderSubmitted req) events).
  { destruct r; cbn [fst] in Hin; [|exact Hin].
    apply in_app_or in Hin. destruct Hin as [Hin|[Hin|[]]]; [exact Hin|discriminate Hin]. }
  destruct Hp as [(e & Hp & _)|(req0 & Hev0 & Hsym & Hq & Hqty & _)].
  - injection Hp as -> _. destruct Hev.
  - cbn [fst] in Hev0. subst events. destruct Hev as [Hev|[]].
    injection Hev as ->.
    split; [exists yc, cp; auto|].
    split; [exists openOptions; split; [reflexivity|apply Z.leb_gt; exact Ecap]|].
    split.
    + exists snap, size. rewrite Hsym, Ep. auto.
    + eexists. split; [|exact Hqty]. apply (to_int_positive _ Hq).
Qed.

Lemma Run_orders_only_after_every_check_witness :
  gap_triggered Examples.funded
  /\ (exists openOptions,
         GetOptionsPositions (broker Examples.funded) 0 ticker = Ok openOptions
         /\ len openOptions < maxActiveOptions Examples.funded)
  /\ (exists optionSnapshot investmentSize,
         GetCallLeapsByDelta insertion_sorter (broker Examples.funded) ticker
           (dec 60 2)
         = Ok (bytes "QQQ240621C00390000", optionSnapshot)
         /\ calculateInvestmentSize Examples.funded 1 = Ok investmentSize
         /\ fst (PlaceOptionLimitOrderWithTakeProfit (broker Examples.funded)
                   investmentSize (bytes "QQQ240621C00390000")
                   (LatestQuote optionSnapshot) (of_Z 50))
            = [OrderSubmitted {| req_Symbol := bytes "QQQ240621C00390000";
                                 req_Qty := of_Z 8;
                                 req_LimitPrice := dec 1221 2;
                                 req_TakeProfit := dec 1831 2 |}])
  /\ (exists quantity, 1 <= quantity <= max_int64 /\ of_Z 8 = of_Z quantity).
Proof.
  apply (Run_orders_only_after_every_check insertion_sorter Examples.funded
           {| req_Symbol := bytes "QQQ240621C00390000"; req_Qty := of_Z 8;
              req_LimitPrice := dec 1221 2; req_TakeProfit := dec 1831 2 |}).
  vm_compute. left. reflexivity.
Defined.


Lemma GetOptionsPositions_same_answer (c : Client) (n n' : nat) (t : list ascii) :
  api_GetPositions c n = api_GetPositions c n' ->
  GetOptionsPositions c n t = GetOptionsPositions c n' t.
Proof.
  intros H. unfold GetOptionsPositions, GetAllPositions. rewrite H. reflexivity.
Qed.

(** X10. The sizer counts the open positions again, after the run has
    checked them against the cap.  When the broker answers both positions
    requests alike (and the cap is an [int]), the second count cannot
    fail the run: the sizer then fails only when the account request
    fails.  When the answers differ, the second one decides.  If it holds
    as many positions as the cap, or more, the run that passed the cap
    check fails in the sizer for want of a spot (four open, then five,
    under a cap of 5).  If it still holds fewer, the run goes on to the
    planner with the buying power divided by the spots the second count
    leaves (three open, then four, under a cap of 5: the order is sized
    for one spot, 8 contracts, not for two). *)
Theorem Run_sizer_counts_again :
  (forall (S : SliceSorter) (s : TwoPercentDown) (e : error),
      in_int64 (maxActiveOptions s) = true ->
      api_GetPositions (broker s) 0 = api_GetPositions (broker s) 1 ->
      snd (Run S s) = Returns (Some (InvestmentSizeFailed e)) ->
      exists msg, e = BuyingPowerFailed (GetAccountFailed (ApiError msg)))
  /\ (forall (S : SliceSorter) (s : TwoPercentDown)
             (first second : list Position) (optionSymbol : list ascii)
             (optionSnapshot : OptionSnapshot),
        gap_triggered s ->
        GetOptionsPositions (broker s) 0 ticker = Ok first ->
        len first < maxActiveOptions s ->
        GetCallLeapsByDelta S (broker s) ticker (dec 60 2)
        = Ok (optionSymbol, optionSnapshot) ->
        GetOptionsPositions (broker s) 1 ticker = Ok second ->
        in_int64 (maxActiveOptions s - len second) = true ->
        (maxActiveOptions s <= len second ->
         Run S s = ([Notification Normal FailureType],
                    Returns (Some (InvestmentSizeFailed NoRemainingSpots))))
        /\ (len second < maxActiveOptions s ->
            forall buyingPower,
              GetNonMarginableBuyingPower (broker s) = Ok buyingPower ->
              Run S s =
              match PlaceOptionLimitOrderWithTakeProfit (broker s)
                      (div buyingPower
                           (of_Z (maxActiveOptions s - len second)))
                      optionSymbol (LatestQuote optionSnapshot) (of_Z 50) with
              | (events, Err err) =>
                  (events, Returns (Some (PlaceOrderFailed err)))
              | (events, Ok order) =>
                  (events ++ [Notification Normal OrderPlacedType],
                   Returns None)
              end))
  /\ (GetOptionsPositions (broker Examples.filling_up) 0 ticker
      = Ok [position "QQQ250117C00400000"; position "QQQ250117C00410000";
            position "QQQ260116C00420000"; position "QQQ260116C00430000"]
      /\ maxActiveOptions Examples.filling_up = 5
      /\ Run insertion_sorter Examples.filling_up
         = ([Notification Normal FailureType],
            Returns (Some (InvestmentSizeFailed NoRemainingSpots))))
  /\ (GetOptionsPositions (broker Examples.one_more) 0 ticker
      = Ok [position "QQQ250117C00400000"; position "QQQ250117C00410000";
            position "QQQ260116C00420000"]
      /\ GetOptionsPositions (broker Examples.one_more) 1 ticker
         = Ok [position "QQQ250117C00400000"; position "QQQ250117C00410000";
               position "QQQ260116C00420000"; position "QQQ260116C00430000"]
      /\ maxActiveOptions Examples.one_more = 5
      /\ GetNonMarginableBuyingPower (broker Examples.one_more)
         = Ok (of_Z 10000)
      /\ Run insertion_sorter Examples.one_more
         = ([OrderSubmitted {| req_Symbol := bytes "QQQ240621C00390000";
                               req_Qty := of_Z 8;
                               req_LimitPrice := dec 1221 2;
                               req_TakeProfit := dec 1831 2 |};
             Notification Normal OrderPlacedType],
            Returns None)).
Proof.
  split; [|split; [|split; repeat match goal with |- _ /\ _ => split end;
                            vm_compute; reflexivity]].
  - intros S s e Hcap Hsame. unfold Run.
    destruct (GetLastTradingDayClose (broker s) ticker) as [yc|e0]; [|discriminate].
    destruct (GetLatestQuote (broker s) ticker) as [[cp|e0]|];
      [|discriminate|discriminate].
    destruct (Float64.leb (changePercent cp yc) (of_Z (-2))); [|discriminate].
    unfold returned, gapDown.
    destruct (GetOptionsPositions (broker s) 0 ticker) as [openOptions|e0] eqn:Ep;
      [|discriminate].
    destruct (maxActiveOptions s <=? len openOptions) eqn:Ec; [discriminate|].
    destruct (GetCallLeapsByDelta S (broker s) ticker (dec 60 2)) as [[sym snap]|e0];
      [|discriminate].
    apply Z.leb_gt in Ec.
    assert (Hr : in_int64 (maxActiveOptions s - len openOptions) = true).
    { unfold in_int64, min_int64, max_int64 in *.
      apply andb_true_iff in Hcap. destruct Hcap as [_ Hcap]. apply Z.leb_le in Hcap.
      apply andb_true_iff. split; apply Z.leb_le; unfold len in *; lia. }
    unfold calculateInvestmentSize.
    rewrite <- (GetOptionsPositions_same_answer _ _ _ _ Hsame), Ep.
    cbn [wrap bind]. rewrite (wrap_int64_id _ Hr).
    replace (maxActiveOptions s - len openOptions <=? 0) with false
      by (symmetry; apply Z.leb_gt; lia).
    unfold GetNonMarginableBuyingPower.
    destruct (api_NonMarginBuyingPower (broker s)) as [bp|msg]; cbn [call wrap bind].
    + destruct (PlaceOptionLimitOrderWithTakeProfit _ _ _ _ _) as [ev [o|e0]]; discriminate.
    + cbn [snd]. intros H. injection H as <-. exists msg. reflexivity.
  - intros S s first second sym snap Hg H0 Hlt Hsel H1 Hr.
    rewrite (Run_gapDown S s Hg). unfold returned, gapDown.
    rewrite H0. replace (maxActiveOptions s <=? len first) with false
      by (symmetry; apply Z.leb_gt; exact Hlt).
    rewrite Hsel. unfold calculateInvestmentSize. rewrite H1.
    cbn [wrap bind]. rewrite (wrap_int64_id _ Hr). split.
    + intros Hge. replace (maxActiveOptions s - len second <=? 0) with true
        by (symmetry; apply Z.leb_le; lia). reflexivity.
    + intros Hlt2 buyingPower Hb.
      replace (maxActiveOptions s - len second <=? 0) with false
        by (symmetry; apply Z.leb_gt; lia).
      rewrite Hb. cbn [wrap bind].
      destruct (PlaceOptionLimitOrderWithTakeProfit _ _ _ _ _) as [ev [o|e0]];
        reflexivity.
Qed.

Lemma Run_sizer_counts_again_witness :
  Run insertion_sorter Examples.filling_up
  = ([Notification Normal FailureType],
     Returns (Some (InvestmentSizeFailed NoRemainingSpots))).
Proof.
  apply (proj1 (proj1 (proj2 Run_sizer_counts_again) insertion_sorter
                  Examples.filling_up
                  [position "QQQ250117C00400000"; position "QQQ250117C00410000";
                   position "QQQ260116C00420000"; position "QQQ260116C00430000"]
                  [position "QQQ250117C00400000"; position "QQQ250117C00410000";
                   position "QQQ260116C00420000"; position "QQQ260116C00430000";
                   position "QQQ260116C00440000"]
                  (fst entryC) (snd entryC)
                  (ex_intro _ (of_Z 100)
                     (ex_intro _ (of_Z 97) (conj eq_refl (conj eq_refl eq_refl))))
                  eq_refl eq_refl eq_refl eq_refl eq_refl)).
  vm_compute. discriminate.
Defined.




(** ** The cap on open positions, from the environment *)

Lemma digits_value_cons (c : ascii) (s : list ascii) (acc : Z) :
  digits_value (c :: s) acc = digits_value s (acc * 10 + digit_val c).
Proof. reflexivity. Qed.

Lemma digits_value_ge (s : list ascii) (acc : Z) :
  Forall (fun c => is_digit c = true) s -> 0 <= acc -> acc <= digits_value s acc.
Proof.
  intros H. revert acc. induction H as [|c s Hc _ IH]; intros acc Ha.
  - cbn. lia.
  - rewrite digits_value_cons. pose proof (digit_val_range c Hc).
    specialize (IH (acc * 10 + digit_val c) ltac:(lia)). lia.
Qed.

Lemma digits_value_lt (s : list ascii) (acc : Z) :
  Forall (fun c => is_digit c = true) s -> 0 <= acc ->
  digits_value s acc < (acc + 1) * 10 ^ Z.of_nat (length s).
Proof.
  intros H. revert acc. induction H as [|c s Hc _ IH]; intros acc Ha.
  - cbn. lia.
  - rewrite digits_value_cons. pose proof (digit_val_range c Hc).
    specialize (IH (acc * 10 + digit_val c) ltac:(lia)).
    cbn [length]. rewrite Nat2Z.inj_succ, Z.pow_succ_r by lia.
    assert (0 < 10 ^ Z.of_nat (length s)) by (apply Z.pow_pos_nonneg; lia).
    nia.
Qed.

Lemma fast_loop_spec (s : list ascii) (n : Z) (v : Z) :
  strconvInt.fast_loop s n = Some v <->
  Forall (fun c => is_digit c = true) s /\ v = digits_value s n.
Proof.
  revert n. induction s as [|c s IH]; intros n.
  - cbn. split.
    + intros H. injection H as <-. auto.
    + intros [_ ->]. reflexivity.
  - cbn [strconvInt.fast_loop]. rewrite digits_value_cons.
    destruct (is_digit c) eqn:Ec.
    + rewrite IH. split.
      * intros [Hs ->]. split; [constructor; assumption|reflexivity].
      * intros [Hs ->]. inversion Hs; subst. auto.
    + split; [discriminate|]. intros [Hs _]. inversion Hs; subst. congruence.
Qed.

Lemma ParseUint_loop_spec (s : list ascii) (n : Z) (v : Z) :
  0 <= n <= strconvInt.maxUint64 ->
  strconvInt.ParseUint_loop s n = strconvInt.UintOk v <->
  Forall (fun c => is_digit c = true) s /\ v = digits_value s n
  /\ v <= strconvInt.maxUint64.
Proof.
  revert n. induction s as [|c s IH]; intros n Hn.
  - cbn [strconvInt.ParseUint_loop digits_value fold_left]. split.
    + intros H. injection H as <-. split; [constructor|]. split; [reflexivity|lia].
    + intros (_ & -> & _). reflexivity.
  - cbn [strconvInt.ParseUint_loop]. rewrite digits_value_cons. cbv zeta.
    destruct (is_digit c) eqn:Ec.
    2:{ split; [discriminate|]. intros [Hs _]. inversion Hs; subst. congruence. }
    pose proof (digit_val_range c Ec) as Hd.
    assert (Hcut : strconvInt.maxUint64 / 10 + 1 = 1844674407370955162) by reflexivity.
    assert (Hmax : strconvInt.maxUint64 = 18446744073709551615) by reflexivity.
    rewrite Hcut.
    destruct (1844674407370955162 <=? n) eqn:E1.
    { apply Z.leb_le in E1. split; [discriminate|].
      intros (Hs & -> & Hv). inversion Hs; subst.
      pose proof (digits_value_ge s (n * 10 + digit_val c) H2 ltac:(lia)). lia. }
    apply Z.leb_gt in E1.
    destruct (strconvInt.maxUint64 <? n * 10 + digit_val c) eqn:E2.
    { apply Z.ltb_lt in E2. split; [discriminate|].
      intros (Hs & -> & Hv). inversion Hs; subst.
      pose proof (digits_value_ge s (n * 10 + digit_val c) H2 ltac:(lia)). lia. }
    apply Z.ltb_ge in E2.
    rewrite IH by lia. split.
    + intros (Hs & -> & Hv). split; [constructor; assumption|auto].
    + intros (Hs & -> & Hv). inversion Hs; subst. auto.
Qed.

(** A numeral: an optional sign and at least one decimal digit. *)
Lemma Atoi_inv (s : list ascii) (n : Z) :
  strconvInt.Atoi s = Some n ->
  exists sign digits,
    s = sign ++ digits
    /\ (sign = [] \/ sign = bytes "+" \/ sign = bytes "-")
    /\ digits <> []
    /\ Forall (fun c => is_digit c = true) digits
    /\ n = (if bytes_eqb sign (bytes "-") then - digits_value digits 0
            else digits_value digits 0)
    /\ in_int64 n = true.
Proof.
  unfold strconvInt.Atoi.
  destruct ((0 <? length s)%nat && (length s <? 19)%nat)%bool eqn:Elen.
  - apply andb_true_iff in Elen. destruct Elen as [_ Elen]. apply Nat.ltb_lt in Elen.
    destruct s as [|c rest]; [discriminate|].
    assert (Hbound : forall digits v,
               (length digits <= 18)%nat ->
               Forall (fun c => is_digit c = true) digits ->
               v = digits_value digits 0 -> 0 <= v < 10 ^ 18).
    { intros digits v Hl Hd ->. split; [apply digits_value_nonneg; [exact Hd|lia]|].
      pose proof (digits_value_lt digits 0 Hd ltac:(lia)) as Hlt.
      assert (10 ^ Z.of_nat (length digits) <= 10 ^ 18)
        by (apply Z.pow_le_mono_r; lia).
      lia. }
    destruct (Ascii.eqb c "-") eqn:Em.
    + apply Ascii.eqb_eq in Em. subst c. cbn [orb].
      destruct (length rest <? 1)%nat eqn:El; [discriminate|]. apply Nat.ltb_ge in El.
      destruct (strconvInt.fast_loop rest 0) as [v|] eqn:Ef; [|discriminate].
      intros H. injection H as <-. apply fast_loop_spec in Ef. destruct Ef as [Hd Hv].
      exists (bytes "-"), rest. split; [reflexivity|]. split; [auto|].
      split; [destruct rest; [cbn in El; lia|discriminate]|].
      split; [exact Hd|]. split; [subst v; reflexivity|].
      cbn [length] in Elen. pose proof (Hbound rest v ltac:(lia) Hd Hv).
      unfold in_int64, min_int64, max_int64.
      apply andb_true_iff. split; apply Z.leb_le; lia.
    + destruct (Ascii.eqb c "+") eqn:Ep.
      * apply Ascii.eqb_eq in Ep. subst c. cbn [orb].
        destruct (length rest <? 1)%nat eqn:El; [discriminate|]. apply Nat.ltb_ge in El.
        destruct (strconvInt.fast_loop rest 0) as [v|] eqn:Ef; [|discriminate].
        intros H. injection H as <-. apply fast_loop_spec in Ef. destruct Ef as [Hd Hv].
        exists (bytes "+"), rest. split; [reflexivity|]. split; [auto|].
        split; [destruct rest; [cbn in El; lia|discriminate]|].
        split; [exact Hd|]. split; [subst v; reflexivity|].
        cbn [length] in Elen. pose proof (Hbound rest v ltac:(lia) Hd Hv).
        unfold in_int64, min_int64, max_int64.
        apply andb_true_iff. split; apply Z.leb_le; lia.
      * cbn [orb andb].
        destruct (strconvInt.fast_loop (c :: rest) 0) as [v|] eqn:Ef; [|discriminate].
        intros H. injection H as <-. apply fast_loop_spec in Ef. destruct Ef as [Hd Hv].
        exists [], (c :: rest). split; [reflexivity|]. split; [auto|].
        split; [discriminate|]. split; [exact Hd|]. split; [exact Hv|].
        pose proof (Hbound (c :: rest) v ltac:(lia) Hd Hv).
        unfold in_int64, min_int64, max_int64.
        apply andb_true_iff. split; apply Z.leb_le; lia.
  - unfold strconvInt.ParseInt. destruct s as [|c rest]; [discriminate|].
    assert (Huint : forall body r,
               strconvInt.ParseUint body = r ->
               match r with
               | strconvInt.UintOk un =>
                   body <> [] /\ Forall (fun c => is_digit c = true) body
                   /\ un = digits_value body 0 /\ 0 <= un
               | _ => True
               end).
    { intros body r <-. unfold strconvInt.ParseUint.
      destruct (bytes_eqb body []) eqn:Eb; [exact I|].
      apply bytes_eqb_neq in Eb.
      destruct (strconvInt.ParseUint_loop body 0) as [un| |] eqn:El; try exact I.
      apply ParseUint_loop_spec in El; [|unfold strconvInt.maxUint64; lia].
      destruct El as (Hd & Hv & _). split; [exact Eb|]. split; [exact Hd|].
      split; [exact Hv|]. subst un. apply digits_value_nonneg; [exact Hd|lia]. }
    destruct (Ascii.eqb c "-") eqn:Em.
    + apply Ascii.eqb_eq in Em. subst c. cbn [orb negb andb].
      rewrite orb_true_r.
      pose proof (Huint rest _ eq_refl) as Hu.
      destruct (strconvInt.ParseUint rest) as [un| |]; try discriminate.
      destruct Hu as (Hne & Hd & Hv & Hpos).
      destruct (2 ^ 63 <? un) eqn:Ec; [discriminate|]. apply Z.ltb_ge in Ec.
      intros H. injection H as <-.
      exists (bytes "-"), rest. split; [reflexivity|]. split; [auto|].
      split; [exact Hne|]. split; [exact Hd|]. split; [subst un; reflexivity|].
      unfold in_int64, min_int64, max_int64.
      apply andb_true_iff. split; apply Z.leb_le; lia.
    + cbn [negb andb]. rewrite orb_false_r.
      destruct (Ascii.eqb c "+") eqn:Ep.
      * apply Ascii.eqb_eq in Ep. subst c.
        pose proof (Huint rest _ eq_refl) as Hu.
        destruct (strconvInt.ParseUint rest) as [un| |]; try discriminate.
        destruct Hu as (Hne & Hd & Hv & Hpos).
        destruct (2 ^ 63 <=? un) eqn:Ec; [discriminate|]. apply Z.leb_gt in Ec.
        intros H. injection H as <-.
        exists (bytes "+"), rest. split; [reflexivity|]. split; [auto|].
        split; [exact Hne|]. split; [exact Hd|]. split; [subst un; reflexivity|].
        unfold in_int64, min_int64, max_int64.
        apply andb_true_iff. split; apply Z.leb_le; lia.
      * pose proof (Huint (c :: rest) _ eq_refl) as Hu.
        destruct (strconvInt.ParseUint (c :: rest)) as [un| |]; try discriminate.
        destruct Hu as (Hne & Hd & Hv & Hpos).
        destruct (2 ^ 63 <=? un) eqn:Ec; [discriminate|]. apply Z.leb_gt in Ec.
        intros H. injection H as <-.
        exists [], (c :: rest). split; [reflexivity|]. split; [auto|].
        split; [exact Hne|]. split; [exact Hd|]. split; [exact Hv|].
        unfold in_int64, min_int64, max_int64.
        apply andb_true_iff. split; apply Z.leb_le; lia.
Qed.

(** [Atoi] returns a number exactly for an optional sign followed by one
    or more decimal digits whose value, with that sign, is a 64-bit [int];
    the number is that value.  The short strings of the fast path and the
    long ones (with leading zeros, say) are read alike. *)
Lemma Atoi_spec :
  forall (s : list ascii) (n : Z),
    strconvInt.Atoi s = Some n <->
    exists sign digits,
      s = sign ++ digits
      /\ (sign = [] \/ sign = bytes "+" \/ sign = bytes "-")
      /\ digits <> []
      /\ Forall (fun c => is_digit c = true) digits
      /\ n = (if bytes_eqb sign (bytes "-") then - digits_value digits 0
              else digits_value digits 0)
      /\ in_int64 n = true.
Proof.
  intros s n. split; [apply Atoi_inv|].
  intros (sign & digits & -> & Hsign & Hne & Hd & Hn & Hr).
  destruct digits as [|d0 digits']; [contradiction|].
  assert (Hd0 : is_digit d0 = true) by (inversion Hd; assumption).
  destruct (is_digit_plain d0 Hd0) as (_ & _ & Hplus & Hminus & _).
  set (v := digits_value (d0 :: digits') 0) in *.
  assert (Hv0 : 0 <= v) by (apply digits_value_nonneg; [exact Hd|lia]).
  unfold in_int64, min_int64, max_int64 in Hr.
  apply andb_true_iff in Hr. destruct Hr as [Hlo Hhi].
  apply Z.leb_le in Hlo. apply Z.leb_le in Hhi.
  assert (Hv63 : v <= 2 ^ 63).
  { destruct Hsign as [-> | [-> | ->]].
    - assert (n = v) by exact Hn. lia.
    - assert (n = v) by exact Hn. lia.
    - assert (n = - v) by exact Hn. lia. }
  assert (Huint : strconvInt.ParseUint (d0 :: digits') = strconvInt.UintOk v).
  { unfold strconvInt.ParseUint.
    rewrite (proj2 (bytes_eqb_neq (d0 :: digits') []) ltac:(discriminate)).
    apply ParseUint_loop_spec; [unfold strconvInt.maxUint64; lia|].
    split; [exact Hd|]. split; [reflexivity|].
    unfold strconvInt.maxUint64. lia. }
  assert (Hfast : strconvInt.fast_loop (d0 :: digits') 0 = Some v)
    by (apply fast_loop_spec; auto).
  unfold strconvInt.Atoi.
  destruct Hsign as [-> | [-> | ->]].
  - assert (Hn' : n = v) by exact Hn. cbn [app].
    destruct ((0 <? length (d0 :: digits'))%nat && (length (d0 :: digits') <? 19)%nat)%bool.
    + rewrite Hminus, Hplus. cbn [orb andb]. rewrite Hfast. subst n. reflexivity.
    + unfold strconvInt.ParseInt. rewrite Hminus, Hplus. cbn [orb negb andb].
      rewrite Huint. cbv zeta.
      replace (2 ^ 63 <=? v) with false by (symmetry; apply Z.leb_gt; lia).
      subst n. reflexivity.
  - assert (Hn' : n = v) by exact Hn.
    change (bytes "+" ++ d0 :: digits') with ("+"%char :: d0 :: digits').
    destruct ((0 <? length ("+"%char :: d0 :: digits'))%nat
              && (length ("+"%char :: d0 :: digits') <? 19)%nat)%bool.
    + change (Ascii.eqb "+" "-") with false. change (Ascii.eqb "+" "+") with true.
      cbn [orb andb length Nat.ltb Nat.leb]. rewrite Hfast. subst n. reflexivity.
    + unfold strconvInt.ParseInt.
      change (Ascii.eqb "+" "-") with false. change (Ascii.eqb "+" "+") with true.
      cbn [orb negb andb]. rewrite Huint. cbv zeta.
      replace (2 ^ 63 <=? v) with false by (symmetry; apply Z.leb_gt; lia).
      subst n. reflexivity.
  - assert (Hn' : n = - v) by exact Hn.
    change (bytes "-" ++ d0 :: digits') with ("-"%char :: d0 :: digits').
    destruct ((0 <? length ("-"%char :: d0 :: digits'))%nat
              && (length ("-"%char :: d0 :: digits') <? 19)%nat)%bool.
    + change (Ascii.eqb "-" "-") with true.
      cbn [orb andb length Nat.ltb Nat.leb]. rewrite Hfast. subst n. reflexivity.
    + unfold strconvInt.ParseInt.
      change (Ascii.eqb "-" "-") with true. change (Ascii.eqb "-" "+") with false.
      cbn [orb negb andb]. rewrite Huint. cbv zeta.
      replace (2 ^ 63 <? v) with false by (symmetry; apply Z.ltb_ge; lia).
      subst n. reflexivity.
Qed.

(** X12. Whatever MAX_ACTIVE_OPTIONS holds, the strategy is built with a
    cap between 1 and the largest [int]: the number the variable writes
    when [Atoi] reads one above 0, and 5 when the variable is unset or
    empty, is not a number, overflows, or is 0 or negative. *)
Theorem NewTwoPercentDown_cap_from_environment :
  forall (w : entry.World) (b : Client),
    let envMax := entry.getenv w (bytes "MAX_ACTIVE_OPTIONS") in
    let s := entry.NewTwoPercentDown w b in
    broker s = b
    /\ 1 <= maxActiveOptions s <= max_int64
    /\ (forall n, envMax <> [] -> strconvInt.Atoi envMax = Some n -> 0 < n ->
                  maxActiveOptions s = n)
    /\ (envMax = [] -> maxActiveOptions s = 5)
    /\ (strconvInt.Atoi envMax = None -> maxActiveOptions s = 5)
    /\ (forall n, strconvInt.Atoi envMax = Some n -> n <= 0 ->
                  maxActiveOptions s = 5).
Proof.
  intros w b envMax s. subst s. unfold entry.NewTwoPercentDown.
  fold envMax. unfold NewTwoPercentDown. cbn [broker maxActiveOptions].
  split; [reflexivity|].
  destruct (bytes_eqb envMax []) eqn:Ee.
  - apply bytes_eqb_eq in Ee. split; [unfold max_int64; lia|].
    split; [intros n Hne; contradiction|]. auto.
  - apply bytes_eqb_neq in Ee.
    destruct (strconvInt.Atoi envMax) as [n|] eqn:Ea.
    + destruct (Atoi_inv _ _ Ea) as (sg & dg & _ & _ & _ & _ & _ & Hr).
      unfold in_int64, min_int64, max_int64 in Hr.
      apply andb_true_iff in Hr. destruct Hr as [_ Hhi]. apply Z.leb_le in Hhi.
      destruct (0 <? n) eqn:En.
      * apply Z.ltb_lt in En. split; [unfold max_int64; lia|].
        split; [intros n' _ H _; congruence|].
        split; [contradiction|]. split; [discriminate|].
        intros n' H Hle. injection H as <-. lia.
      * apply Z.ltb_ge in En. split; [unfold max_int64; lia|].
        split; [intros n' _ H Hpos; injection H as <-; lia|].
        split; [contradiction|]. split; [discriminate|]. reflexivity.
    + split; [unfold max_int64; lia|].
      split; [discriminate|]. split; [contradiction|]. auto.
Qed.

Lemma NewTwoPercentDown_cap_from_environment_witness :
  maxActiveOptions
    (entry.NewTwoPercentDown (Examples.live insertion_sorter)
       (entry.broker (Examples.live insertion_sorter))) = 3.
Proof.
  apply (proj1 (proj2 (proj2 (NewTwoPercentDown_cap_from_environment
                                (Examples.live insertion_sorter)
                                (entry.broker (Examples.live insertion_sorter)))))
           3).
  - discriminate.
  - reflexivity.
  - lia.
Defined.

(** X13. For every number [n] other than the default 5, the cap is [n]
    exactly when MAX_ACTIVE_OPTIONS is one or more decimal digits, after
    an optional plus sign, that write [n], with [n] above 0 and within
    [int].  Leading zeros are read; a space, an underscore, a decimal
    point or an exponent makes the value unreadable. *)
Theorem NewTwoPercentDown_cap_is_decimal_of_environment :
  forall (w : entry.World) (b : Client) (n : Z),
    n <> 5 ->
    (maxActiveOptions (entry.NewTwoPercentDown w b) = n <->
     exists sign digits,
       entry.getenv w (bytes "MAX_ACTIVE_OPTIONS") = sign ++ digits
       /\ (sign = [] \/ sign = bytes "+")
       /\ digits <> []
       /\ Forall (fun c => is_digit c = true) digits
       /\ n = digits_value digits 0
       /\ 0 < n <= max_int64).
Proof.
  intros w b n Hn5. unfold entry.NewTwoPercentDown, NewTwoPercentDown.
  cbn [maxActiveOptions].
  set (envMax := entry.getenv w (bytes "MAX_ACTIVE_OPTIONS")).
  split.
  - destruct (bytes_eqb envMax []); [intros H; congruence|].
    destruct (strconvInt.Atoi envMax) as [parsed|] eqn:Ea; [|intros H; congruence].
    destruct (0 <? parsed) eqn:Epos; [|intros H; congruence].
    intros ->. apply Z.ltb_lt in Epos.
    apply Atoi_spec in Ea.
    destruct Ea as (sign & digits & Hs & Hsign & Hne & Hd & Hv & Hr).
    pose proof (digits_value_nonneg digits 0 Hd ltac:(lia)) as Hv0.
    unfold in_int64, max_int64 in *.
    apply andb_true_iff in Hr. destruct Hr as [_ Hhi]. apply Z.leb_le in Hhi.
    exists sign, digits. split; [exact Hs|].
    destruct Hsign as [-> | [-> | ->]].
    + assert (n = digits_value digits 0) by exact Hv. auto 6.
    + assert (n = digits_value digits 0) by exact Hv. auto 6.
    + assert (n = - digits_value digits 0) by exact Hv. lia.
  - intros (sign & digits & Hs & Hsign & Hne & Hd & Hv & Hpos & Hhi).
    assert (Hnz : envMax <> []).
    { rewrite Hs. intros H. apply app_eq_nil in H. destruct H. contradiction. }
    rewrite (proj2 (bytes_eqb_neq envMax []) Hnz).
    assert (Ha : strconvInt.Atoi envMax = Some n).
    { apply Atoi_spec. exists sign, digits. split; [exact Hs|].
      split; [destruct Hsign; auto|]. split; [exact Hne|]. split; [exact Hd|].
      split.
      - destruct Hsign as [-> | ->]; exact Hv.
      - unfold in_int64, min_int64. unfold max_int64 in Hhi.
        apply andb_true_iff. split; apply Z.leb_le; unfold max_int64; lia. }
    rewrite Ha. replace (0 <? n) with true by (symmetry; apply Z.ltb_lt; exact Hpos).
    reflexivity.
Qed.

Lemma NewTwoPercentDown_cap_is_decimal_of_environment_witness :
  maxActiveOptions
    (entry.NewTwoPercentDown (Examples.live insertion_sorter)
       (entry.broker (Examples.live insertion_sorter))) = 3.
Proof.
  apply (proj2 (NewTwoPercentDown_cap_is_decimal_of_environment
                  (Examples.live insertion_sorter)
                  (entry.broker (Examples.live insertion_sorter)) 3
                  ltac:(discriminate))).
  exists [], (bytes "3").
  split; [reflexivity|]. split; [left; reflexivity|]. split; [discriminate|].
  split; [repeat constructor|]. split; [reflexivity|]. vm_compute. split; [reflexivity|discriminate].
Defined.

(** ** The last trading day *)

Lemma lastBefore_skip (today : time.Time) (pre rest : list market.CalendarDay) :
  market.none_before today pre ->
  market.lastBefore today (pre ++ rest) = market.lastBefore today rest.
Proof.
  induction pre as [|x pre IH]; intros Hn; [reflexivity|].
  cbn [app market.lastBefore].
  assert (Hpre : market.none_before today pre)
    by (intros day d Hin; apply Hn; right; exact Hin).
  destruct (time.Parse (market.Date x)) as [d|] eqn:Ex; [|apply IH; exact Hpre].
  rewrite (Hn x d (or_introl eq_refl) Ex). apply IH. exact Hpre.
Qed.

Lemma lastBefore_spec (today : time.Time) (r : list market.CalendarDay) :
  (market.lastBefore today r = market.zeroTime /\ market.none_before today r)
  \/ (exists pre day post,
         r = pre ++ day :: post
         /\ market.none_before today pre
         /\ time.Parse (market.Date day) = Some (market.lastBefore today r)
         /\ time.Before (market.lastBefore today r) today = true).
Proof.
  induction r as [|x r IH].
  - left. split; [reflexivity|]. intros day d [].
  - cbn [market.lastBefore].
    destruct (time.Parse (market.Date x)) as [d|] eqn:Ex.
    + destruct (time.Before d today) eqn:Eb.
      * right. exists [], x, r. split; [reflexivity|].
        split; [intros day d' []|]. auto.
      * destruct IH as [[Hz Hn]|(pre & day & post & -> & Hn & Hp & Hb)].
        -- left. split; [exact Hz|]. intros day d' [<-|Hin] Hd.
           ++ rewrite Ex in Hd. injection Hd as <-. exact Eb.
           ++ exact (Hn day d' Hin Hd).
        -- right. exists (x :: pre), day, post. split; [reflexivity|].
           split; [|auto]. intros day' d' [<-|Hin] Hd.
           ++ rewrite Ex in Hd. injection Hd as <-. exact Eb.
           ++ exact (Hn day' d' Hin Hd).
    + destruct IH as [[Hz Hn]|(pre & day & post & -> & Hn & Hp & Hb)].
      * left. split; [exact Hz|]. intros day d' [<-|Hin] Hd.
        -- rewrite Ex in Hd. discriminate Hd.
        -- exact (Hn day d' Hin Hd).
      * right. exists (x :: pre), day, post. split; [reflexivity|].
        split; [|auto]. intros day' d' [<-|Hin] Hd.
        -- rewrite Ex in Hd. discriminate Hd.
        -- exact (Hn day' d' Hin Hd).
Qed.

Lemma none_before_rev (today : time.Time) (l : list market.CalendarDay) :
  market.none_before today (rev l) <-> market.none_before today l.
Proof.
  unfold market.none_before. split; intros H day d Hin; apply H.
  - apply in_rev in Hin. exact Hin.
  - apply in_rev. exact Hin.
Qed.

Lemma IsZero_eq (t : time.Time) : market.IsZero t = true <-> t = market.zeroTime.
Proof. apply Equal_eq. Qed.

(** X14. [getLastTradingDay] returns the date of the last entry of the
    calendar, in the order the broker lists them, that parses as a date
    and is strictly before today, and only when that date is not January
    1 of year 1, the zero time the loop starts from.  Entries that do not
    parse are passed over.  It fails when the request fails, when the
    calendar is empty, and otherwise with "no previous trading day". *)
Theorem getLastTradingDay_last_entry_before_today :
  forall (m : market.Market) (today : time.Time),
    (forall d,
        market.getLastTradingDay m today = inr d <->
        exists before day after,
          market.api_GetCalendar m = Reply (before ++ day :: after)
          /\ time.Parse (market.Date day) = Some d
          /\ time.Before d today = true
          /\ (forall day' d', In day' after ->
                              time.Parse (market.Date day') = Some d' ->
                              time.Before d' today = false)
          /\ d <> market.zeroTime)
    /\ (forall e,
           market.getLastTradingDay m today = inl e ->
           (exists msg, market.api_GetCalendar m = Fault msg
                        /\ e = market.GetCalendarFailed msg)
           \/ (market.api_GetCalendar m = Reply []
               /\ e = market.NoCalendarData)
           \/ (exists calendar, market.api_GetCalendar m = Reply calendar
                                /\ calendar <> []
                                /\ e = market.NoPreviousTradingDay)).
Proof.
  intros m today. unfold market.getLastTradingDay.
  destruct (market.api_GetCalendar m) as [calendar|msg].
  2:{ split.
      - intros d. split; [discriminate|]. intros (b & x & a & H & _). discriminate H.
      - intros e H. injection H as <-. left. exists msg. auto. }
  destruct (length calendar =? 0)%nat eqn:El.
  { apply Nat.eqb_eq, length_zero_iff_nil in El. subst calendar. split.
    - intros d. split; [discriminate|]. intros (b & x & a & H & _).
      injection H as H. destruct b; discriminate H.
    - intros e H. injection H as <-. right. left. auto. }
  assert (Hne : calendar <> []) by (intros ->; discriminate El).
  cbv zeta. split.
  - intros d. split.
    + destruct (market.IsZero (market.lastBefore today (rev calendar))) eqn:Ez;
        [discriminate|].
      intros H. injection H as <-.
      destruct (lastBefore_spec today (rev calendar))
        as [[Hz _]|(pre & day & post & Hr & Hn & Hp & Hb)].
      { rewrite (proj2 (IsZero_eq _) Hz) in Ez. discriminate Ez. }
      exists (rev post), day, (rev pre).
      split.
      { f_equal. rewrite <- (rev_involutive calendar), Hr.
        rewrite rev_app_distr. cbn [rev]. rewrite <- app_assoc. reflexivity. }
      split; [exact Hp|]. split; [exact Hb|].
      split; [apply none_before_rev; exact Hn|].
      intros Hz. rewrite (proj2 (IsZero_eq _) Hz) in Ez. discriminate Ez.
    + intros (b & x & a & Hc & Hp & Hb & Hn & Hz). injection Hc as Hc.
      rewrite Hc, rev_app_distr. cbn [rev]. rewrite <- app_assoc.
      rewrite lastBefore_skip by (apply none_before_rev; exact Hn).
      cbn [app market.lastBefore]. rewrite Hp, Hb.
      destruct (market.IsZero d) eqn:Ez; [|reflexivity].
      apply IsZero_eq in Ez. contradiction.
  - intros e H. right. right. exists calendar. split; [reflexivity|].
    split; [exact Hne|].
    destruct (market.IsZero _); [|discriminate H]. injection H as <-. reflexivity.
Qed.

Lemma getLastTradingDay_last_entry_before_today_witness :
  market.getLastTradingDay Examples.january
    {| time.year := 2024; time.month := 1; time.day := 17 |}
  = inr {| time.year := 2024; time.month := 1; time.day := 16 |}.
Proof.
  apply (proj2 (proj1 (getLastTradingDay_last_entry_before_today
                         Examples.january
                         {| time.year := 2024; time.month := 1; time.day := 17 |})
                  {| time.year := 2024; time.month := 1; time.day := 16 |})).
  exists [ {| market.Date := bytes "2024-01-12" |} ],
         {| market.Date := bytes "2024-01-16" |},
         [ {| market.Date := bytes "2024-01-17" |} ].
  split; [reflexivity|]. split; [reflexivity|]. split; [reflexivity|].
  split; [|discriminate].
  intros day' d' [<-|[]] H. vm_compute in H. injection H as <-. reflexivity.
Defined.

Lemma dates_app (a b : list market.CalendarDay) :
  market.dates (a ++ b) = market.dates a ++ market.dates b.
Proof.
  induction a as [|x a IH]; [reflexivity|].
  cbn [app market.dates]. destruct (time.Parse (market.Date x)); rewrite IH; reflexivity.
Qed.

Lemma dates_In (l : list market.CalendarDay) (day : market.CalendarDay) (d : time.Time) :
  In day l -> time.Parse (market.Date day) = Some d -> In d (market.dates l).
Proof.
  induction l as [|x l IH]; [intros []|]. intros [<-|Hin] Hp.
  - cbn [market.dates]. rewrite Hp. left. reflexivity.
  - cbn [market.dates]. destruct (time.Parse (market.Date x)); [right|]; auto.
Qed.

Lemma ascending_app_r (l1 l2 : list time.Time) :
  market.ascending (l1 ++ l2) = true -> market.ascending l2 = true.
Proof.
  induction l1 as [|x l1 IH]; [auto|].
  cbn [app market.ascending]. intros H. apply andb_true_iff in H. apply IH, H.
Qed.

Lemma ascending_app_l (l1 : list time.Time) (d d' : time.Time) (l2 : list time.Time) :
  market.ascending (l1 ++ d :: l2) = true -> In d' l1 -> time.Before d d' = false.
Proof.
  induction l1 as [|x l1 IH]; [intros _ []|]. intros H [<-|Hin].
  - cbn [app market.ascending] in H. apply andb_true_iff in H. destruct H as [H _].
    rewrite forallb_forall in H. apply negb_true_iff, H, in_or_app. right. left. reflexivity.
  - cbn [app market.ascending] in H. apply andb_true_iff in H. apply IH; [apply H|exact Hin].
Qed.

(** X15. On a calendar listed in ascending order, the day found is the
    latest date of the calendar before today, and [GetLastTradingDayClose]
    asks the daily bars of the symbol for that day: it returns the close
    of the first bar, and fails when the request fails or returns no bar.
    The order matters: of a calendar listing January 16 and then January
    12, the day found on the 17th is the 12th. *)
Theorem GetLastTradingDayClose_latest_day_before_today :
  (forall (m : market.Market) (today : time.Time) (symbol : list ascii)
          (calendar : list market.CalendarDay) (d : time.Time),
      symbol <> [] ->
      market.api_GetCalendar m = Reply calendar ->
      market.ascending (market.dates calendar) = true ->
      market.getLastTradingDay m today = inr d ->
      (forall day' d',
          In day' calendar -> time.Parse (market.Date day') = Some d' ->
          time.Before d' today = true -> time.Before d d' = false)
      /\ market.GetLastTradingDayClose m today symbol =
         match market.api_GetBars m symbol d with
         | Fault msg => inl (market.GetBarsFailed msg)
         | Reply [] => inl (market.NoBarData d)
         | Reply (bar :: _) => inr (market.Close bar)
         end)
  /\ market.getLastTradingDay
       {| market.api_GetCalendar :=
            Reply [ {| market.Date := bytes "2024-01-16" |};
                    {| market.Date := bytes "2024-01-12" |} ];
          market.api_GetBars := fun _ _ => Reply [];
          market.api_GetClock := Reply true |}
       {| time.year := 2024; time.month := 1; time.day := 17 |}
     = inr {| time.year := 2024; time.month := 1; time.day := 12 |}.
Proof.
  split; [|reflexivity].
  intros m today symbol calendar d Hs Hc Hasc Hd. split.
  - pose proof Hd as Hd'. unfold market.getLastTradingDay in Hd'. rewrite Hc in Hd'.
    destruct (length calendar =? 0)%nat; [discriminate Hd'|]. cbv zeta in Hd'.
    destruct (market.IsZero _); [discriminate Hd'|]. injection Hd' as Hd'.
    destruct (lastBefore_spec today (rev calendar))
      as [[Hz Hn]|(pre & day & post & Hr & Hn & Hp & Hb)].
    + intros day' d' Hin Hp' Hb'.
      apply (proj1 (none_before_rev _ _)) in Hn. rewrite (Hn day' d' Hin Hp') in Hb'. discriminate Hb'.
    + rewrite Hd' in Hp, Hb.
      assert (Hcal : calendar = rev post ++ day :: rev pre).
      { rewrite <- (rev_involutive calendar), Hr.
        rewrite rev_app_distr. cbn [rev]. rewrite <- app_assoc. reflexivity. }
      intros day' d' Hin Hp' Hb'. rewrite Hcal in Hin.
      apply in_app_or in Hin. destruct Hin as [Hin|[<-|Hin]].
      * rewrite Hcal, dates_app in Hasc. cbn [market.dates] in Hasc. rewrite Hp in Hasc.
        apply (ascending_app_l _ _ _ _ Hasc). exact (dates_In _ _ _ Hin Hp').
      * rewrite Hp in Hp'. injection Hp' as <-. apply Before_irrefl.
      * apply (proj2 (none_before_rev _ _)) in Hn. rewrite (Hn day' d' Hin Hp') in Hb'.
        discriminate Hb'.
  - unfold market.GetLastTradingDayClose.
    rewrite (proj2 (bytes_eqb_neq symbol []) Hs), Hd. reflexivity.
Qed.

Lemma GetLastTradingDayClose_latest_day_before_today_witness :
  (forall day' d',
      In day' [ {| market.Date := bytes "2024-01-12" |};
                {| market.Date := bytes "2024-01-16" |};
                {| market.Date := bytes "2024-01-17" |} ] ->
      time.Parse (market.Date day') = Some d' ->
      time.Before d' {| time.year := 2024; time.month := 1; time.day := 17 |}
      = true ->
      time.Before {| time.year := 2024; time.month := 1; time.day := 16 |} d'
      = false)
  /\ market.GetLastTradingDayClose Examples.january
       {| time.year := 2024; time.month := 1; time.day := 17 |} ticker
     = inr (of_Z 100).
Proof.
  apply (proj1 GetLastTradingDayClose_latest_day_before_today Examples.january
           {| time.year := 2024; time.month := 1; time.day := 17 |} ticker
           [ {| market.Date := bytes "2024-01-12" |};
             {| market.Date := bytes "2024-01-16" |};
             {| market.Date := bytes "2024-01-17" |} ]
           {| time.year := 2024; time.month := 1; time.day := 16 |}).
  - discriminate.
  - reflexivity.
  - reflexivity.
  - reflexivity.
Defined.

(** ** The engine *)

Lemma runStrategies_all_pass (l : list engine.AnyStrategy) :
  (forall s, In s l -> snd (engine.runAny s) = Returns None) ->
  engine.runStrategies l
  = (flat_map (fun s => fst (engine.runAny s)) l, Returns None).
Proof.
  induction l as [|s l IH]; intros H; [reflexivity|].
  cbn [engine.runStrategies flat_map].
  pose proof (H s (or_introl eq_refl)) as Hs.
  destruct (engine.runAny s) as [events [[err|]|]];
    [discriminate Hs| |discriminate Hs].
  rewrite IH by (intros s' Hin; apply H; right; exact Hin). reflexivity.
Qed.

(** The loop stops at the first strategy that does not return nil, with
    what that strategy ended in. *)
Lemma runStrategies_stops (done rest : list engine.AnyStrategy)
    (s : engine.AnyStrategy) :
  (forall s', In s' done -> snd (engine.runAny s') = Returns None) ->
  snd (engine.runAny s) <> Returns None ->
  engine.runStrategies (done ++ s :: rest)
  = (flat_map (fun s' => fst (engine.runAny s')) done
     ++ fst (engine.runAny s), snd (engine.runAny s)).
Proof.
  intros Hdone Hs.
  induction done as [|d done IH].
  - cbn [app engine.runStrategies flat_map].
    destruct (engine.runAny s) as [events [[err'|]|]];
      [reflexivity|contradiction Hs; reflexivity|reflexivity].
  - cbn [app engine.runStrategies flat_map].
    pose proof (Hdone d (or_introl eq_refl)) as Hd.
    destruct (engine.runAny d) as [events [[err'|]|]];
      [discriminate Hd| |discriminate Hd].
    rewrite IH by (intros s' Hin; apply Hdone; right; exact Hin).
    cbn [fst]. rewrite app_assoc. reflexivity.
Qed.

(** X16. The engine asks the market clock first.  If the request fails it
    sends the Failure notification and returns the failure; if the market
    is closed it sends the MarketClosed notification on the noisy webhook,
    runs no strategy and returns nil.  On an open market it runs the
    strategies in order up to the first that returns an error: that error
    is returned as it is, and no later strategy runs; it returns nil when
    all of them do.  A strategy that panics ends the loop the same way,
    and the engine panics with it. *)
Theorem engine_Run_stops_at_first_failure :
  forall (e : engine.Engine),
    (forall err,
        market.IsMarketOpen (engine.broker e) = inl err ->
        engine.Run e = ([Notification Normal FailureType],
                        Returns (Some (engine.MarketOpenCheckFailed err))))
    /\ (market.IsMarketOpen (engine.broker e) = inr false ->
        engine.Run e = ([Notification Noisy MarketClosedType], Returns None))
    /\ (market.IsMarketOpen (engine.broker e) = inr true ->
        (forall done s rest err,
            engine.strategies e = done ++ s :: rest ->
            (forall s', In s' done -> snd (engine.runAny s') = Returns None) ->
            snd (engine.runAny s) = Returns (Some err) ->
            engine.Run e
            = (flat_map (fun s' => fst (engine.runAny s')) done
               ++ fst (engine.runAny s),
               Returns (Some (engine.StrategyFailed err))))
        /\ ((forall s, In s (engine.strategies e) ->
                       snd (engine.runAny s) = Returns None) ->
            engine.Run e
            = (flat_map (fun s => fst (engine.runAny s)) (engine.strategies e),
               Returns None))
        /\ (forall done s rest,
               engine.strategies e = done ++ s :: rest ->
               (forall s', In s' done ->
                           snd (engine.runAny s') = Returns None) ->
               snd (engine.runAny s) = Panics ->
               engine.Run e
               = (flat_map (fun s' => fst (engine.runAny s')) done
                  ++ fst (engine.runAny s),
                  Panics))).
Proof.
  intros e. unfold engine.Run. split; [|split].
  - intros err ->. reflexivity.
  - intros ->. reflexivity.
  - intros ->. split; [|split].
    + intros done s rest err -> Hdone Hs.
      rewrite (runStrategies_stops done rest s Hdone)
        by (rewrite Hs; discriminate).
      rewrite Hs. reflexivity.
    + intros Hall. rewrite (runStrategies_all_pass _ Hall). reflexivity.
    + intros done s rest -> Hdone Hs.
      rewrite (runStrategies_stops done rest s Hdone)
        by (rewrite Hs; discriminate).
      rewrite Hs. reflexivity.
Qed.

Lemma engine_Run_stops_at_first_failure_witness :
  engine.Run
    (engine.NewEngine
       [engine.Boxed (H := engine.TwoPercentDown_Strategy insertion_sorter)
          (sizing 5 five_open (of_Z 1000));
        engine.Boxed (H := engine.TwoPercentDown_Strategy insertion_sorter)
          no_chain;
        engine.Boxed (H := engine.TwoPercentDown_Strategy insertion_sorter)
          Examples.funded]
       Examples.january)
  = ([Notification Normal SkippingType; Notification Normal FailureType],
     Returns (Some (engine.StrategyFailed (CallLeapsFailed NoLeapsFound)))).
Proof.
  apply (proj1 (proj2 (proj2 (engine_Run_stops_at_first_failure
           (engine.NewEngine
              [engine.Boxed (H := engine.TwoPercentDown_Strategy insertion_sorter)
                 (sizing 5 five_open (of_Z 1000));
               engine.Boxed (H := engine.TwoPercentDown_Strategy insertion_sorter)
                 no_chain;
               engine.Boxed (H := engine.TwoPercentDown_Strategy insertion_sorter)
                 Examples.funded]
              Examples.january))) eq_refl)
           [engine.Boxed (H := engine.TwoPercentDown_Strategy insertion_sorter)
              (sizing 5 five_open (of_Z 1000))]
           (engine.Boxed (H := engine.TwoPercentDown_Strategy insertion_sorter)
              no_chain)
           [engine.Boxed (H := engine.TwoPercentDown_Strategy insertion_sorter)
              Examples.funded]
           (CallLeapsFailed NoLeapsFound)).
  - reflexivity.
  - intros s' [<-|[]]. vm_compute. reflexivity.
  - vm_compute. reflexivity.
Defined.

(** ** The notifier *)

Lemma sendNotification_posts (http : webhook.Post -> webhook.HttpReply)
    (c : webhook.Client) (webhookURL notificationType message : list ascii) :
  fst (webhook.sendNotification http c webhookURL notificationType message)
  = if bytes_eqb webhookURL [] then []
    else [ {| webhook.post_url := webhookURL;
              webhook.post_body :=
                if bytes_eqb (webhook.method c) (bytes "discord")
                then webhook.DiscordBody
                       (notificationType ++ bytes ": " ++ message
                        ++ bytes " @everyone")
                else webhook.GenericBody notificationType message |} ].
Proof.
  unfold webhook.sendNotification.
  destruct (bytes_eqb webhookURL []); [reflexivity|].
  destruct (http _) as [code|msg]; [|reflexivity].
  destruct ((code <? 200) || (300 <=? code))%bool; reflexivity.
Qed.

(** X17. A notification is posted once, to the webhook given, and not at
    all when that webhook's URL is empty, which is no error.  The body is
    Discord's ("type: message @everyone") exactly when the method is
    "discord", and the generic type-and-message pair for every other
    method.  The send succeeds exactly when the URL is empty or the
    webhook answers with a status from 200 to 299. *)
Theorem sendNotification_posts_once_and_checks_status :
  forall (http : webhook.Post -> webhook.HttpReply) (c : webhook.Client)
         (webhookURL notificationType message : list ascii),
    let sent := webhook.sendNotification http c webhookURL notificationType
                  message in
    let body :=
      if bytes_eqb (webhook.method c) (bytes "discord")
      then webhook.DiscordBody (notificationType ++ bytes ": " ++ message
                                ++ bytes " @everyone")
      else webhook.GenericBody notificationType message in
    let post := {| webhook.post_url := webhookURL; webhook.post_body := body |} in
    (webhookURL = [] -> sent = ([], None))
    /\ (webhookURL <> [] -> fst sent = [post])
    /\ (snd sent = None <->
        webhookURL = []
        \/ exists statusCode,
             http post = webhook.Responded statusCode
             /\ 200 <= statusCode < 300)
    /\ (forall statusCode,
           webhookURL <> [] -> http post = webhook.Responded statusCode ->
           statusCode < 200 \/ 300 <= statusCode ->
           snd sent = Some (webhook.BadStatus statusCode)).
Proof.
  intros http c url ty message sent body post. subst sent.
  split; [intros ->; reflexivity|].
  split.
  { intros Hu. rewrite sendNotification_posts.
    rewrite (proj2 (bytes_eqb_neq url []) Hu). reflexivity. }
  unfold webhook.sendNotification. fold body. fold post.
  destruct (bytes_eqb url []) eqn:Eu.
  - apply bytes_eqb_eq in Eu. split; [split; auto|].
    intros code Hu. contradiction.
  - apply bytes_eqb_neq in Eu.
    destruct (http post) as [code|msg] eqn:Eh.
    + destruct ((code <? 200) || (300 <=? code))%bool eqn:Ec.
      * apply orb_true_iff in Ec. split.
        -- split; [discriminate|]. intros [Hu|(code' & H & Hr)]; [contradiction|].
           injection H as <-. destruct Ec as [Ec|Ec];
             [apply Z.ltb_lt in Ec|apply Z.leb_le in Ec]; lia.
        -- intros code' _ H _. injection H as <-. reflexivity.
      * apply orb_false_iff in Ec. destruct Ec as [E1 E2].
        apply Z.ltb_ge in E1. apply Z.leb_gt in E2. split.
        -- split; [|reflexivity]. intros _. right. exists code. split; [reflexivity|lia].
        -- intros code' _ H Hr. injection H as <-. lia.
    + split.
      * split; [discriminate|]. intros [Hu|(code' & H & _)]; [contradiction|discriminate H].
      * intros code' _ H. discriminate H.
Qed.

Lemma sendNotification_posts_once_and_checks_status_witness :
  snd (webhook.sendNotification Examples.failing_http Examples.discord
         (webhook.normalWebhookURL Examples.discord)
         (webhook.label FailureType) (bytes "no contract"))
  = Some (webhook.BadStatus 500).
Proof.
  apply (proj2 (proj2 (proj2 (sendNotification_posts_once_and_checks_status
           Examples.failing_http Examples.discord
           (webhook.normalWebhookURL Examples.discord)
           (webhook.label FailureType) (bytes "no contract"))))).
  - discriminate.
  - reflexivity.
  - right. lia.
Defined.

(** X18. What the six methods of the notifier return does not depend on
    the webhook: nil from OrderPlaced, MaxActiveOptions, NoGapDown and
    MarketClosed, the error given from ActionNeeded, and from Failure
    always an error, the one that carries the message; a post refused or
    answered with a bad status is dropped.  NoGapDown and MarketClosed
    post to the noisy webhook only, the four others to the normal one
    only, each at most once. *)
Theorem notifier_results_ignore_delivery :
  forall (http : webhook.Post -> webhook.HttpReply) (c : webhook.Client)
         (message date : list ascii) (err : option (list ascii)),
    snd (webhook.OrderPlaced http c message) = None
    /\ snd (webhook.Failure http c message) = Some message
    /\ snd (webhook.ActionNeeded http c message err) = err
    /\ snd (webhook.MaxActiveOptions http c message) = None
    /\ snd (webhook.NoGapDown http c message) = None
    /\ snd (webhook.MarketClosed http c date) = None
    /\ (forall p,
           In p (fst (webhook.OrderPlaced http c message)
                 ++ fst (webhook.Failure http c message)
                 ++ fst (webhook.ActionNeeded http c message err)
                 ++ fst (webhook.MaxActiveOptions http c message)) ->
           webhook.post_url p = webhook.normalWebhookURL c
           /\ webhook.normalWebhookURL c <> [])
    /\ (forall p,
           In p (fst (webhook.NoGapDown http c message)
                 ++ fst (webhook.MarketClosed http c date)) ->
           webhook.post_url p = webhook.noisyWebhookURL c
           /\ webhook.noisyWebhookURL c <> [])
    /\ (length (fst (webhook.OrderPlaced http c message)) <= 1
        /\ length (fst (webhook.Failure http c message)) <= 1
        /\ length (fst (webhook.ActionNeeded http c message err)) <= 1
        /\ length (fst (webhook.MaxActiveOptions http c message)) <= 1
        /\ length (fst (webhook.NoGapDown http c message)) <= 1
        /\ length (fst (webhook.MarketClosed http c date)) <= 1)%nat.
Proof.
  intros http c message date err.
  unfold webhook.OrderPlaced, webhook.Failure, webhook.ActionNeeded,
    webhook.MaxActiveOptions, webhook.NoGapDown, webhook.MarketClosed.
  cbn [fst snd]. rewrite !sendNotification_posts.
  repeat (split; [reflexivity|]).
  split; [|split].
  - destruct (bytes_eqb (webhook.normalWebhookURL c) []) eqn:E; [intros p []|].
    apply bytes_eqb_neq in E.
    intros p [<-|[<-|[<-|[<-|[]]]]]; split; solve [reflexivity|exact E].
  - destruct (bytes_eqb (webhook.noisyWebhookURL c) []) eqn:E; [intros p []|].
    apply bytes_eqb_neq in E.
    intros p [<-|[<-|[]]]; split; solve [reflexivity|exact E].
  - destruct (bytes_eqb (webhook.normalWebhookURL c) []);
      destruct (bytes_eqb (webhook.noisyWebhookURL c) []);
      cbn [length]; repeat split; lia.
Qed.

(** ** The two entry points *)

(** What both entry points run once the clients are built and the name is
    known. *)
Lemma engine_Run_single (w : entry.World) :
  engine.Run
    (engine.NewEngine
       [engine.Boxed (H := engine.TwoPercentDown_Strategy (entry.sorter w))
          (entry.NewTwoPercentDown w (entry.broker w))]
       (entry.exchange w))
  = match market.api_GetClock (entry.exchange w) with
    | Fault msg =>
        ([Notification Normal FailureType],
         Returns (Some (engine.MarketOpenCheckFailed
                          (market.GetClockFailed msg))))
    | Reply false => ([Notification Noisy MarketClosedType], Returns None)
    | Reply true =>
        (fst (Run (entry.sorter w) (entry.NewTwoPercentDown w (entry.broker w))),
         match snd (Run (entry.sorter w)
                      (entry.NewTwoPercentDown w (entry.broker w))) with
         | Panics => Panics
         | Returns r => Returns (option_map engine.StrategyFailed r)
         end)
    end.
Proof.
  unfold engine.Run, engine.NewEngine, market.IsMarketOpen.
  cbn [engine.broker engine.strategies].
  destruct (market.api_GetClock (entry.exchange w)) as [[|]|msg]; try reflexivity.
  cbn [engine.runStrategies engine.runAny engine.RunStrategy
       engine.TwoPercentDown_Strategy].
  destruct (Run (entry.sorter w) (entry.NewTwoPercentDown w (entry.broker w)))
    as [events [[err|]|]]; [reflexivity| |reflexivity].
  cbn [fst snd option_map]. rewrite app_nil_r. reflexivity.
Qed.

(** X19. The command and the Lambda handler do the same to the broker and
    the webhooks, and end together.  Either both panic, and the handler
    makes no response: that is the case exactly when both API keys are
    set, the strategy named is "two-percent-down", the market is open,
    the close was fetched and the quote request answered without an error
    and without a quote.  Or both return: the handler then answers with a
    response and no error of its own, "success" exactly when the command
    returns nil and "error" exactly when the command returns an error.
    Both succeed only for the strategy name "two-percent-down" with both
    API keys set; the notification client never fails to build, so
    neither reports that. *)
Theorem entry_points_agree :
  forall (w : entry.World) (name : list ascii),
    let h := entry.Handler w name in
    let r := entry.runStrategy w name in
    fst h = fst r
    /\ (snd h = Panics <-> snd r = Panics)
    /\ (snd r = Panics <->
        name = bytes "two-percent-down"
        /\ entry.getenv w (bytes "ALPACA_API_KEY") <> []
        /\ entry.getenv w (bytes "ALPACA_SECRET_KEY") <> []
        /\ market.api_GetClock (entry.exchange w) = Reply true
        /\ (exists yesterdayClose,
               GetLastTradingDayClose (entry.broker w) ticker
               = Ok yesterdayClose)
        /\ api_GetLatestQuote (entry.broker w) ticker = Reply None)
    /\ (forall response err,
           snd h = Returns (response, err) ->
           err = None
           /\ (entry.Status response = bytes "success" <->
               snd r = Returns None)
           /\ (entry.Status response = bytes "error" <->
               exists e, snd r = Returns (Some e))
           /\ (forall e, entry.Error response <> entry.OfNotifier e))
    /\ (snd r = Returns None ->
        name = bytes "two-percent-down"
        /\ entry.getenv w (bytes "ALPACA_API_KEY") <> []
        /\ entry.getenv w (bytes "ALPACA_SECRET_KEY") <> [])
    /\ (forall e, snd r <> Returns (Some (entry.CreateNotifierFailed e))).
Proof.
  intros w name h r. subst h r. unfold entry.Handler, entry.runStrategy.
  unfold entry.NewClient, webhook.NewClient.
  assert (Early : forall (response : entry.LambdaResponse)
                         (e : entry.RunStrategyError),
             entry.Status response = bytes "error" ->
             (forall e', entry.Error response <> entry.OfNotifier e') ->
             (forall e', e <> entry.CreateNotifierFailed e') ->
             (name = bytes "two-percent-down" ->
              entry.getenv w (bytes "ALPACA_API_KEY") <> [] ->
              entry.getenv w (bytes "ALPACA_SECRET_KEY") <> [] -> False) ->
             let h := (@nil Event, Returns (response, @None entry.RunStrategyError)) in
             let r := (@nil Event, Returns (Some e)) in
             fst h = fst r
             /\ (snd h = Panics <-> snd r = Panics)
             /\ (snd r = Panics <->
                 name = bytes "two-percent-down"
                 /\ entry.getenv w (bytes "ALPACA_API_KEY") <> []
                 /\ entry.getenv w (bytes "ALPACA_SECRET_KEY") <> []
                 /\ market.api_GetClock (entry.exchange w) = Reply true
                 /\ (exists yesterdayClose,
                        GetLastTradingDayClose (entry.broker w) ticker
                        = Ok yesterdayClose)
                 /\ api_GetLatestQuote (entry.broker w) ticker = Reply None)
             /\ (forall response' err,
                    snd h = Returns (response', err) ->
                    err = None
                    /\ (entry.Status response' = bytes "success" <->
                        snd r = Returns None)
                    /\ (entry.Status response' = bytes "error" <->
                        exists e', snd r = Returns (Some e'))
                    /\ (forall e', entry.Error response' <> entry.OfNotifier e'))
             /\ (snd r = Returns None ->
                 name = bytes "two-percent-down"
                 /\ entry.getenv w (bytes "ALPACA_API_KEY") <> []
                 /\ entry.getenv w (bytes "ALPACA_SECRET_KEY") <> [])
             /\ (forall e', snd r <> Returns (Some (entry.CreateNotifierFailed e')))).
  { intros response e Hst Her Hne Hno. cbn [fst snd].
    split; [reflexivity|]. split; [split; discriminate|].
    split; [split; [discriminate|intros (Hn & Hk & Hs & _); destruct (Hno Hn Hk Hs)]|].
    split.
    { intros response' err H. injection H as <- <-.
      split; [reflexivity|]. split.
      - rewrite Hst. split; discriminate.
      - split; [split; [intros _; eexists; reflexivity|intros _; exact Hst]|exact Her]. }
    split; [discriminate|].
    intros e' H. injection H as H. exact (Hne e' H). }
  destruct (bytes_eqb (entry.getenv w (bytes "ALPACA_API_KEY")) []) eqn:Ek.
  { cbn [orb]. apply bytes_eqb_eq in Ek.
    destruct (bytes_eqb name []); apply Early;
      try reflexivity; try discriminate; intros _ Hk _; exact (Hk Ek). }
  destruct (bytes_eqb (entry.getenv w (bytes "ALPACA_SECRET_KEY")) []) eqn:Es.
  { cbn [orb]. apply bytes_eqb_eq in Es.
    destruct (bytes_eqb name []); apply Early;
      try reflexivity; try discriminate; intros _ _ Hs; exact (Hs Es). }
  apply bytes_eqb_neq in Ek. apply bytes_eqb_neq in Es. cbn [orb].
  destruct (bytes_eqb name (bytes "two-percent-down")) eqn:En.
  2:{ apply bytes_eqb_neq in En.
      destruct (bytes_eqb name []); apply Early;
        try reflexivity; try discriminate; intros Hn _ _; exact (En Hn). }
  apply bytes_eqb_eq in En. subst name.
  replace (bytes_eqb (bytes "two-percent-down") []) with false by reflexivity.
  rewrite engine_Run_single.
  pose proof (Run_panics_iff (entry.sorter w)
                (entry.NewTwoPercentDown w (entry.broker w))) as Hp.
  cbn [broker entry.NewTwoPercentDown NewTwoPercentDown] in Hp.
  destruct (market.api_GetClock (entry.exchange w)) as [[|]|msg].
  - destruct (Run (entry.sorter w) (entry.NewTwoPercentDown w (entry.broker w)))
      as [events [[err|]|]]; cbn [fst snd option_map entry.Status entry.Error] in *.
    + split; [reflexivity|]. split; [split; discriminate|].
      split; [split; [discriminate|intros (_ & _ & _ & _ & H); apply Hp in H; discriminate H]|].
      split.
      { intros response' err' H. injection H as <- <-. cbn [entry.Status entry.Error].
        split; [reflexivity|]. split; [split; discriminate|].
        split; [split; [intros _; eexists; reflexivity|reflexivity]|discriminate]. }
      split; [discriminate|]. discriminate.
    + split; [reflexivity|]. split; [split; discriminate|].
      split; [split; [discriminate|intros (_ & _ & _ & _ & H); apply Hp in H; discriminate H]|].
      split.
      { intros response' err' H. injection H as <- <-. cbn [entry.Status entry.Error].
        split; [reflexivity|]. split; [split; reflexivity|].
        split; [split; [discriminate|intros [e H]; discriminate H]|discriminate]. }
      split; [auto|]. discriminate.
    + split; [reflexivity|]. split; [split; reflexivity|].
      split; [split; [intros _; repeat split; auto; apply Hp; reflexivity|reflexivity]|].
      split; [discriminate|]. split; discriminate.
  - cbn [fst snd]. split; [reflexivity|]. split; [split; discriminate|].
    split; [split; [discriminate|intros (_ & _ & _ & H & _); discriminate H]|].
    split.
    { intros response' err' H. injection H as <- <-. cbn [entry.Status entry.Error].
      split; [reflexivity|]. split; [split; reflexivity|].
      split; [split; [discriminate|intros [e H]; discriminate H]|discriminate]. }
    split; [auto|]. discriminate.
  - cbn [fst snd]. split; [reflexivity|]. split; [split; discriminate|].
    split; [split; [discriminate|intros (_ & _ & _ & H & _); discriminate H]|].
    split.
    { intros response' err' H. injection H as <- <-. cbn [entry.Status entry.Error].
      split; [reflexivity|]. split; [split; discriminate|].
      split; [split; [intros _; eexists; reflexivity|reflexivity]|discriminate]. }
    split; [discriminate|]. discriminate.
Qed.

Lemma entry_points_agree_witness :
  snd (entry.Handler (Examples.live_no_quote insertion_sorter)
         (bytes "two-percent-down")) = Panics.
Proof.
  apply (proj2 (proj1 (proj2 (entry_points_agree
                                (Examples.live_no_quote insertion_sorter)
                                (bytes "two-percent-down"))))).
  vm_compute. reflexivity.
Defined.

(** X20. From either entry point an order reaches the broker only when
    both API keys are set, the strategy named is "two-percent-down" and
    the market clock says open; what is then done is the run of the one
    strategy, built with the cap of the environment.  On a closed market
    the only thing sent is the MarketClosed notification, and nil is
    returned. *)
Theorem runStrategy_orders_only_on_open_market :
  forall (w : entry.World) (name : list ascii),
    (forall req,
        In (OrderSubmitted req) (fst (entry.runStrategy w name)) ->
        name = bytes "two-percent-down"
        /\ entry.getenv w (bytes "ALPACA_API_KEY") <> []
        /\ entry.getenv w (bytes "ALPACA_SECRET_KEY") <> []
        /\ market.api_GetClock (entry.exchange w) = Reply true
        /\ fst (entry.runStrategy w name)
           = fst (Run (entry.sorter w)
                    (entry.NewTwoPercentDown w (entry.broker w))))
    /\ (name = bytes "two-percent-down" ->
        entry.getenv w (bytes "ALPACA_API_KEY") <> [] ->
        entry.getenv w (bytes "ALPACA_SECRET_KEY") <> [] ->
        market.api_GetClock (entry.exchange w) = Reply false ->
        entry.runStrategy w name
        = ([Notification Noisy MarketClosedType], Returns None)).
Proof.
  intros w name. unfold entry.runStrategy, entry.NewClient, webhook.NewClient.
  split.
  - intros req.
    destruct (bytes_eqb (entry.getenv w (bytes "ALPACA_API_KEY")) []) eqn:Ek;
      [intros []|].
    destruct (bytes_eqb (entry.getenv w (bytes "ALPACA_SECRET_KEY")) []) eqn:Es;
      [intros []|].
    apply bytes_eqb_neq in Ek. apply bytes_eqb_neq in Es. cbn [orb].
    destruct (bytes_eqb name (bytes "two-percent-down")) eqn:En; [|intros []].
    apply bytes_eqb_eq in En. rewrite engine_Run_single.
    destruct (market.api_GetClock (entry.exchange w)) as [[|]|msg].
    + destruct (Run (entry.sorter w) (entry.NewTwoPercentDown w (entry.broker w)))
        as [events [[err|]|]]; cbn [fst snd option_map]; intros _; auto.
    + intros [H|[]]. discriminate H.
    + intros [H|[]]. discriminate H.
  - intros -> Hk Hs Hc.
    rewrite (proj2 (bytes_eqb_neq _ []) Hk), (proj2 (bytes_eqb_neq _ []) Hs).
    cbn [orb]. replace (bytes_eqb (bytes "two-percent-down") (bytes "two-percent-down"))
      with true by reflexivity.
    rewrite engine_Run_single, Hc. reflexivity.
Qed.

Lemma runStrategy_orders_only_on_open_market_witness :
  bytes "two-percent-down" = bytes "two-percent-down"
  /\ entry.getenv (Examples.live insertion_sorter) (bytes "ALPACA_API_KEY") <> []
  /\ entry.getenv (Examples.live insertion_sorter) (bytes "ALPACA_SECRET_KEY") <> []
  /\ market.api_GetClock (entry.exchange (Examples.live insertion_sorter))
     = Reply true
  /\ fst (entry.runStrategy (Examples.live insertion_sorter)
            (bytes "two-percent-down"))
     = fst (Run (entry.sorter (Examples.live insertion_sorter))
              (entry.NewTwoPercentDown (Examples.live insertion_sorter)
                 (entry.broker (Examples.live insertion_sorter)))).
Proof.
  apply (proj1 (runStrategy_orders_only_on_open_market
                  (Examples.live insertion_sorter) (bytes "two-percent-down"))
           {| req_Symbol := bytes "QQQ240621C00390000"; req_Qty := of_Z 2;
              req_LimitPrice := dec 1221 2; req_TakeProfit := dec 1831 2 |}).
  vm_compute. left. reflexivity.
Defined.
